(** * Shared-Knowledge-Lifelong-Learning: dataset loader and experiment utilities

    A shallow embedding of [src/gmmc_grid_search/utils.py] and
    [src/dataset/loader.py].

    Conventions of the embedding.
    - Python [int] is [Z]; [math.inf] is the extra point of [cap].
    - Python [str] is [string], a character being a code point below 256
      (Basic Latin and Latin-1); text with other characters is outside the
      embedding.
    - A Python [dict] whose iteration order is observed by the code is an
      association list in insertion order; a store that is only looked up
      by key is a [gmap]; a Python [set] is a [gset].
    - A raised exception is the left injection of a sum; printing is not
      modelled except where a claim is about what is reported.
    - The database engine behind [sqlite3] is a class: it says what the
      engine does with a query that it does not read the way the query is
      written for.
    - Python [float] / NumPy [float64] is IEEE binary64 as specified by
      [SpecFloat] (precision 53, maximal exponent 1024). *)

From Stdlib Require Import ZArith List String Ascii Bool Lia Permutation.
From Stdlib Require Import DecimalString.
From Stdlib.Floats Require Import SpecFloat.
From stdpp Require Import base option list gmap sets strings sorting.

Local Open Scope Z_scope.

(** ** Python runtime pieces shared by both source files *)

Module Py.

(** The exceptions the modelled code can raise. *)
Inductive exn : Type :=
| AssertionError
| IndexError
| KeyError
| ValueError
| TypeError
| ZeroDivisionError
| OverflowError
| UnboundLocalError
| AttributeError
| OSError
| OperationalError.

#[global] Instance exn_eq_dec : EqDecision exn.
Proof. solve_decision. Defined.

(** A computation that either raises or returns. *)
Definition result (A : Type) : Type := exn + A.

Definition raise {A} (e : exn) : result A := inl e.
Definition ret {A} (a : A) : result A := inr a.
Definition bind {A B} (m : result A) (k : A -> result B) : result B :=
  match m with
  | inl e => inl e
  | inr a => k a
  end.

Definition raises {A} (m : result A) : Prop :=
  match m with inl _ => True | inr _ => False end.

(** [str.isspace] on one character: TAB..CR, FS..US, SPACE, and in
    Latin-1 NEL (U+0085) and NO-BREAK SPACE (U+00A0). *)
Definition is_space (c : ascii) : bool :=
  let n := nat_of_ascii c in
  (Nat.leb 9 n && Nat.leb n 13) || (Nat.leb 28 n && Nat.leb n 32)
  || Nat.eqb n 133 || Nat.eqb n 160.

(** [s.lstrip()], [s.rstrip()], [s.strip()] *)
Fixpoint lstrip (s : string) : string :=
  match s with
  | EmptyString => EmptyString
  | String c r => if is_space c then lstrip r else s
  end.

Fixpoint rstrip (s : string) : string :=
  match s with
  | EmptyString => EmptyString
  | String c r =>
      match rstrip r with
      | EmptyString => if is_space c then EmptyString else String c EmptyString
      | r' => String c r'
      end
  end.

Definition strip (s : string) : string := rstrip (lstrip s).

(** [s.split()] with no separator: maximal runs of non-whitespace.
    [cur] is the word being read. *)
Fixpoint split_from (cur : string) (s : string) : list string :=
  match s with
  | EmptyString =>
      match cur with EmptyString => [] | _ => [cur] end
  | String c r =>
      if is_space c then
        match cur with
        | EmptyString => split_from EmptyString r
        | _ => cur :: split_from EmptyString r
        end
      else split_from (cur +:+ String c EmptyString) r
  end.

Definition split (s : string) : list string := split_from EmptyString s.

(** [int(s)] in base ten for a token without surrounding whitespace:
    an optional sign, then decimal digits in which single underscores may
    separate digits; below code point 256 the decimal digits are the ASCII
    ones.  An interpreter that limits the number of digits [int] converts
    (4300 by default, where there is a limit) raises [ValueError] beyond
    it; this limit is not part of [int_of_str], and what is proved of the
    tokens [int] accepts is stated for tokens within it. *)
Definition digit_val (c : ascii) : option Z :=
  let n := nat_of_ascii c in
  if Nat.leb 48 n && Nat.leb n 57 then Some (Z.of_nat (n - 48)) else None.

Fixpoint int_digits (acc : Z) (after_underscore : bool) (s : string) : option Z :=
  match s with
  | EmptyString => if after_underscore then None else Some acc
  | String c r =>
      if Ascii.eqb c "_"%char then
        if after_underscore then None else int_digits acc true r
      else
        match digit_val c with
        | Some d => int_digits (10 * acc + d) false r
        | None => None
        end
  end.

Definition int_unsigned (s : string) : option Z :=
  match s with
  | EmptyString => None
  | String c r =>
      match digit_val c with
      | Some d => int_digits d false r
      | None => None
      end
  end.

Definition int_of_str (s : string) : result Z :=
  let parsed :=
    match s with
    | String "-"%char r => Z.opp <$> int_unsigned r
    | String "+"%char r => int_unsigned r
    | _ => int_unsigned s
    end in
  match parsed with
  | Some z => ret z
  | None => raise ValueError
  end.

(** *** [dict] with observable insertion order *)
Section Dict.
Context {K V : Type} `{EqDecision K}.

Fixpoint dict_get (k : K) (d : list (K * V)) : option V :=
  match d with
  | [] => None
  | (k', v) :: r => if decide (k = k') then Some v else dict_get k r
  end.

Definition dict_mem (k : K) (d : list (K * V)) : bool :=
  bool_decide (is_Some (dict_get k d)).

(** [d[k] = v]: an existing key keeps its position, a new key goes last. *)
Fixpoint dict_set (k : K) (v : V) (d : list (K * V)) : list (K * V) :=
  match d with
  | [] => [(k, v)]
  | (k', v') :: r =>
      if decide (k = k') then (k', v) :: r else (k', v') :: dict_set k v r
  end.

Definition dict_keys (d : list (K * V)) : list K := d.*1.
Definition dict_values (d : list (K * V)) : list V := d.*2.
End Dict.

(** *** Random sources

    The generators behind [random] and [numpy.random] are not part of the
    repository.  What the code relies on is a state, a way to seed it and
    [randbelow g n], which draws a number below [n] and advances the
    state. *)
Record RandomSource : Type := {
  rng : Type;
  seed : Z -> rng;
  randbelow : rng -> nat -> rng * nat;
  randbelow_lt : forall g n, (0 < n)%nat -> (snd (randbelow g n) < n)%nat
}.

(** [x[i], x[j] = x[j], x[i]]; both indices are in range whenever [j]
    comes from [randbelow g (i + 1)] and [i] is below [len(x)]. *)
Definition swap {A} (i j : nat) (x : list A) : list A :=
  match x !! i, x !! j with
  | Some a, Some b => <[j := a]> (<[i := b]> x)
  | _, _ => x
  end.

(** [shuffle(x)]:
    [for i in reversed(range(1, len(x))): j = randbelow(i + 1); swap].
    [shuffle_loop] is entered with [i = len(x) - 1]. *)
Fixpoint shuffle_loop {A} (R : RandomSource) (i : nat) (g : rng R) (x : list A)
  : rng R * list A :=
  match i with
  | O => (g, x)
  | S i' =>
      let '(g', j) := randbelow R g (S i) in
      shuffle_loop R i' g' (swap i j x)
  end.

Definition shuffle {A} (R : RandomSource) (g : rng R) (x : list A)
  : rng R * list A :=
  shuffle_loop R (length x - 1) g x.

(** *** binary64 *)
Definition prec : Z := 53.
Definition emax : Z := 1024.

(** [float(n)] for an [int]: round to nearest even, [OverflowError] when
    out of range. *)
Definition float_of_int (n : Z) : result spec_float :=
  match binary_normalize prec emax n 0 false with
  | S754_infinity _ => raise OverflowError
  | f => ret f
  end.

(** [a / b] on [int]s: the correctly rounded quotient. *)
Definition int_truediv (a b : Z) : result spec_float :=
  if b =? 0 then raise ZeroDivisionError
  else if a =? 0 then ret (S754_zero (b <? 0))
  else
    let '(q, e, l) := SFdiv_core_binary prec emax (Z.abs a) 0 (Z.abs b) 0 in
    match binary_round_aux prec emax (xorb (a <? 0) (b <? 0)) q e l with
    | S754_infinity _ => raise OverflowError
    | f => ret f
    end.

(** [int(f)]: truncation towards zero. *)
Definition int_of_float (f : spec_float) : result Z :=
  match f with
  | S754_zero _ => ret 0
  | S754_finite s m e =>
      let a := if 0 <=? e then Z.shiftl (Z.pos m) e
               else Z.shiftr (Z.pos m) (- e) in
      ret (if s then - a else a)
  | S754_infinity _ => raise OverflowError
  | S754_nan => raise ValueError
  end.

(** [ndarray.astype(int)] on one [float64] element: truncation; a value
    that does not fit [int64] becomes the smallest [int64]. *)
Definition astype_int (f : spec_float) : Z :=
  match int_of_float f with
  | inr z => if (- 2 ^ 63 <=? z) && (z <? 2 ^ 63) then z else - 2 ^ 63
  | inl _ => - 2 ^ 63
  end.

Definition float_one : spec_float := S754_finite false (2 ^ 52) (-52).

(** [round(f)] with one argument: the nearest integer, ties to even. *)
Definition round_float (f : spec_float) : result Z :=
  match f with
  | S754_zero _ => ret 0
  | S754_finite s m e =>
      let a :=
        if 0 <=? e then Z.shiftl (Z.pos m) e
        else
          let q := Z.shiftr (Z.pos m) (- e) in
          let r := Z.land (Z.pos m) (Z.ones (- e)) in
          let half := Z.shiftl 1 (- e - 1) in
          if r <? half then q
          else if half <? r then q + 1
          else if Z.even q then q else q + 1 in
      ret (if s then - a else a)
  | S754_infinity _ => raise OverflowError
  | S754_nan => raise ValueError
  end.

(** [os.path.join(a, b)] on POSIX. *)
Fixpoint ends_with_sep (s : string) : bool :=
  match s with
  | EmptyString => false
  | String c EmptyString => Ascii.eqb c "/"%char
  | String _ r => ends_with_sep r
  end.

Definition path_join (a b : string) : string :=
  match b with
  | String "/"%char _ => b
  | _ =>
      match a with
      | EmptyString => b
      | _ => if ends_with_sep a then a +:+ b else a +:+ "/"%string +:+ b
      end
  end.

(** *** More of [str] *)

(** [s.split(sep)] for a separator of one character; the result is never
    empty.  [cur] is the piece being read. *)
Fixpoint split_on_from (sep : ascii) (cur : string) (s : string)
  : list string :=
  match s with
  | EmptyString => [cur]
  | String c r =>
      if Ascii.eqb c sep then cur :: split_on_from sep EmptyString r
      else split_on_from sep (cur +:+ String c EmptyString) r
  end.

Definition split_on (sep : ascii) (s : string) : list string :=
  split_on_from sep EmptyString s.

(** [s.find(c)] for one character: the first index, or -1. *)
Fixpoint find (c : ascii) (s : string) : Z :=
  match s with
  | EmptyString => -1
  | String c' r =>
      if Ascii.eqb c' c then 0
      else let i := find c r in if i =? -1 then -1 else i + 1
  end.

(** [s.lower()]: the capital letters are A..Z and, in Latin-1, U+00C0 to
    U+00DE without the multiplication sign U+00D7; the small letter is 32
    further. *)
Definition lower_char (c : ascii) : ascii :=
  let n := nat_of_ascii c in
  if (Nat.leb 65 n && Nat.leb n 90)
     || (Nat.leb 192 n && Nat.leb n 222 && negb (Nat.eqb n 215))
  then ascii_of_nat (n + 32) else c.

Fixpoint lower (s : string) : string :=
  match s with
  | EmptyString => EmptyString
  | String c r => String (lower_char c) (lower r)
  end.

(** [str(n)] for an [int], as an f-string interpolates it. *)
Definition str_of_int (n : Z) : string := NilZero.string_of_int (Z.to_int n).

(** The double quote as a string. *)
Definition double_quote : string := String "034"%char EmptyString.

End Py.

(** ** [src/gmmc_grid_search/utils.py] *)

Module Utils.
Import Py.

(** *** [read_file]

    [lines] is what [f.readlines()] returns.  Each iteration evaluates
    [data[0]], then [data[1]], then [int(data[1])]. *)
Definition read_file_line (line : string) : result (string * Z) :=
  let data := split (strip line) in
  match data with
  | [] => raise IndexError
  | [_] => raise IndexError
  | d0 :: d1 :: _ => bind (int_of_str d1) (fun n => ret (d0, n))
  end.

Fixpoint read_file_loop (lines : list string) (container : list (string * Z))
  : result (list (string * Z)) :=
  match lines with
  | [] => ret container
  | line :: rest =>
      bind (read_file_line line)
           (fun p => read_file_loop rest (container ++ [p]))
  end.

Definition read_file (lines : list string) : result (list (string * Z)) :=
  read_file_loop lines [].

(** *** [divide_integer_K]

    [array] is a [float64] array; the result is the [int64] array
    [array.astype(int)], shuffled by NumPy's generator when [shuff].
    [np.zeros(K,)] raises [ValueError] for a negative [K] and for a [K]
    whose eight bytes per element do not fit a signed 64-bit size, that
    is from [2 ^ 60] on.  That the machine may lack the memory for a
    smaller array is not modelled. *)
Fixpoint fill_loop (N K : Z) (n : nat) (i : nat) (array : list spec_float)
  : result (list spec_float) :=
  match n with
  | O => ret array
  | S n' =>
      bind (int_truediv N K) (fun f =>
      bind (int_of_float f) (fun z =>
      bind (float_of_int z) (fun v =>
      fill_loop N K n' (S i) (<[i := v]> array))))
  end.

Fixpoint remainder_loop (n : nat) (i : nat) (array : list spec_float)
  : list spec_float :=
  match n with
  | O => array
  | S n' =>
      remainder_loop n' (S i)
        (alter (fun v => SFadd prec emax v float_one) i array)
  end.

Definition divide_integer_K (R : RandomSource) (g : rng R)
    (N K : Z) (shuff : bool) : result (rng R * list Z) :=
  if (K <? 0) || (2 ^ 60 <=? K) then raise ValueError
  else
    let array := replicate (Z.to_nat K) (S754_zero false) in
    bind (fill_loop N K (Z.to_nat K) 0 array) (fun array =>
    if K =? 0 then raise ZeroDivisionError
    else
      let array := remainder_loop (Z.to_nat (N mod K)) 0 array in
      let array := astype_int <$> array in
      if shuff then ret (shuffle R g array) else ret (g, array)).

(** *** [get_files_and_labels]

    Keys of [label_dict] are the pairs [(dset_idx, raw_label)].  [lines] is
    what [f.readlines()] returns for [dataset_file_name].  The bare
    [except] swallows a failed unpacking or a failed [int()] for one line;
    what it prints is not modelled. *)
Record index_state : Type := {
  files : list string;
  labels : list Z;
  label_dict : list (Z * Z * Z);
  next_label_to_use : Z
}.

Definition initial_label (label_dict : list (Z * Z * Z)) : Z :=
  match dict_values label_dict with
  | [] => 0
  | v :: vs => List.last vs v + 1
  end.

Definition index_line (base_file_path : string) (dset_idx : Z)
    (flag_unknown_label : bool) (st : index_state) (line : string)
  : index_state :=
  let fields := split (strip line) in
  if Nat.ltb 2 (length fields) then st
  else
    match fields with
    | [individual_file; individual_label] =>
        match int_of_str individual_label with
        | inl _ => st
        | inr n =>
            let key := (dset_idx, n) in
            let known := dict_mem key (label_dict st) in
            if negb known && flag_unknown_label then st
            else
              let st1 :=
                if known then st
                else {| files := files st;
                        labels := labels st;
                        label_dict :=
                          dict_set key (next_label_to_use st) (label_dict st);
                        next_label_to_use := next_label_to_use st + 1 |} in
              let files1 :=
                files st1 ++ [path_join base_file_path individual_file] in
              match dict_get key (label_dict st1) with
              | Some l =>
                  {| files := files1;
                     labels := labels st1 ++ [l];
                     label_dict := label_dict st1;
                     next_label_to_use := next_label_to_use st1 |}
              | None =>
                  {| files := files1;
                     labels := labels st1;
                     label_dict := label_dict st1;
                     next_label_to_use := next_label_to_use st1 |}
              end
        end
    | _ => st
    end.

Definition get_files_and_labels (lines : list string) (base_file_path : string)
    (files0 : list string) (labels0 : list Z) (label_dict0 : list (Z * Z * Z))
    (dset_idx : Z) (flag_unknown_label : bool)
  : list string * list Z * list (Z * Z * Z) :=
  let st0 := {| files := files0; labels := labels0; label_dict := label_dict0;
                next_label_to_use := initial_label label_dict0 |} in
  let st := fold_left (index_line base_file_path dset_idx flag_unknown_label)
                      lines st0 in
  (files st, labels st, label_dict st).

End Utils.

(** ** [src/dataset/loader.py] *)

Module Loader.
Import Py.

Definition IMAGES_ROOT_PATH : string :=
  "/lab/tmpig15b/u/name-pending_collection/"%string.
Definition VECTORS_ROOT_PATH : string :=
  "/lab/tmpig15b/u/name-pending_collection_vectors/"%string.
Definition DATABASE_PATH : string :=
  "/lab/tmpig15b/u/name-pending_collection/0_collection/all_images.sqlite"%string.

Definition SET_TYPES : list string :=
  ["train"; "validation"; "test"]%string.
Definition INPUT_TYPES : list string := ["original"; "features"]%string.
Definition VECTOR_TYPES : list string := ["resnet50"; "xception"]%string.

(** A tensor is the list of its [float64] elements. *)
Definition Tensor : Type := list spec_float.

(** An [int] or [math.inf]. *)
Inductive cap : Type :=
| Fin (n : Z)
| Inf.

(** [n > c], [n >= c] and [n == c] for an [int] [n]. *)
Definition gt_cap (n : Z) (c : cap) : bool :=
  match c with Fin m => m <? n | Inf => false end.
Definition ge_cap (n : Z) (c : cap) : bool :=
  match c with Fin m => m <=? n | Inf => false end.
Definition eq_cap (n : Z) (c : cap) : bool :=
  match c with Fin m => n =? m | Inf => false end.

(** One row of the table [images] of the catalog database. *)
Record CatalogRow : Type := {
  row_dataset : string;
  row_relative_path : string;
  row_class_id : Z;
  row_set_id : Z;
  row_problem : Z;
  row_file_hash : string
}.

(** A row as the two [SELECT] statements of [__init__] return it. *)
Record QueryRow : Type := {
  q_file_hash : string;      (* row[0] *)
  q_relative_path : string;  (* row[1] *)
  q_class_id : Z;            (* row[2] *)
  q_set_id : Z;              (* row[3] *)
  q_problem : Z              (* row[4] *)
}.

(** The value stored per class in [self.dict]:
    [(row[0], row[1], row[3], row[4])]. *)
Definition RowData : Type := (string * string * Z * Z)%type.

Definition row_data (row : QueryRow) : RowData :=
  (q_file_hash row, q_relative_path row, q_set_id row, q_problem row).

Record CollectionImage : Type := {
  relative_path : string;
  class_id : Z;
  set_id : Z;
  problem : Z;
  file_hash : string;
  feature_vector : Tensor
}.

(** What lies outside the process: the catalog, the file system, the image
    decoder and the HDF5 stores.  [h5_file name] is the content of the
    store [h5py.File(name)] opens, [None] when it opens none: the file is
    not there, or it is there and is no HDF5 file.  A store that opens is
    a file. *)
Record World : Type := {
  Image : Type;
  catalog : list CatalogRow;
  isdir : string -> bool;
  isfile : string -> bool;
  image_open : string -> option Image;
  convert_rgb : Image -> Image;
  h5_file : string -> option (gmap string Tensor);
  h5_file_is_file :
    forall name file_h, h5_file name = Some file_h -> isfile name = true
}.

(** *** The database engine

    [sqlite3] and the engine behind it are not part of the repository.
    Two queries of the code put a task name between double quotes into
    their text.  They are written for the reading in which the quoted name
    is a text that is compared with the column [dataset]; the functions
    below that stand for these queries follow this reading.  The engine
    has others: it takes a quoted name for a column when the table has a
    column of that name, it ends the quoted part at a double quote inside
    the name, and it may refuse the text.  An engine is therefore given by
    what it answers, for a table and the text of a query, when it does not
    follow the reading the query is written for: an exception, or other
    rows.  [None] stands for the reading the query is written for. *)
Class Sqlite : Type := {
  select_otherwise :
    list CatalogRow -> string -> option (result (list QueryRow));
  count_otherwise :
    list CatalogRow -> string -> option (result (list Z))
}.

(** What [__getitem__] can hand back as the input of a pair. *)
Inductive item_input (W : World) : Type :=
| InTensor (t : Tensor)
| InImage (img : Image W).
Arguments InTensor {W} t.
Arguments InImage {W} img.

(** The attributes of an instance.  [dict] is the grouping as the loop
    over the rows builds it; that [_random_value] later shuffles its lists
    in place is not tracked, nothing reads them afterwards. *)
Record CollectionDataset (W : World) : Type := {
  root_path : string;
  dataset_name : string;
  set_type : string;
  input_type : string;
  vector_type : option string;
  pipeline : option (Image W -> Tensor);
  images : list CollectionImage;
  dict : list (Z * list RowData);
  label_dict : list (Z * Z);
  sample_class_num : cap;
  sample_train_size : cap;
  sample_test_size : cap;
  num_classes : Z;
  initialized_correctly : bool
}.
Arguments root_path {W} _.
Arguments dataset_name {W} _.
Arguments set_type {W} _.
Arguments input_type {W} _.
Arguments vector_type {W} _.
Arguments pipeline {W} _.
Arguments images {W} _.
Arguments dict {W} _.
Arguments label_dict {W} _.
Arguments sample_class_num {W} _.
Arguments sample_train_size {W} _.
Arguments sample_test_size {W} _.
Arguments num_classes {W} _.
Arguments initialized_correctly {W} _.

(** The arguments of [__init__]. *)
Record Config (W : World) : Type := {
  cfg_dataset_name : string;
  cfg_set_type : string;
  cfg_input_type : string;
  cfg_vector_type : option string;
  cfg_pipeline : option (Image W -> Tensor);
  cfg_label_dict : option (list (Z * Z));
  cfg_verify_all_sets_all_types : bool;
  cfg_full_dataset : bool
}.
Arguments cfg_dataset_name {W} _.
Arguments cfg_set_type {W} _.
Arguments cfg_input_type {W} _.
Arguments cfg_vector_type {W} _.
Arguments cfg_pipeline {W} _.
Arguments cfg_label_dict {W} _.
Arguments cfg_verify_all_sets_all_types {W} _.
Arguments cfg_full_dataset {W} _.

(** *** Static helpers *)

(** [s.replace("//", "/")] *)
Fixpoint replace_double_slash (s : string) : string :=
  match s with
  | String "/"%char (String "/"%char r) => String "/"%char (replace_double_slash r)
  | String c r => String c (replace_double_slash r)
  | EmptyString => EmptyString
  end.

Definition sanitize_and_check_root_path (W : World) (root_path : string)
  : result string :=
  let root_path := replace_double_slash (root_path +:+ "/"%string) in
  if isdir W root_path then ret root_path else raise AssertionError.

(** The text of the two queries of [__init__]. *)
Definition select_query (dataset_name : string) (set_type_int : Z)
    (all_sets : bool) : string :=
  ("SELECT file_hash, relative_path, class_id, set_id, problem FROM images "
   +:+ "WHERE dataset=" +:+ double_quote +:+ dataset_name +:+ double_quote
   +:+ (if all_sets then " AND problem=0;"
        else " AND problem=0 AND set_id=" +:+ str_of_int set_type_int
             +:+ ";"))%string.

(** [execute_database_query] on the two queries of [__init__].  Read as
    they are written, they return the rows of the task without problem
    flag, of one split or (when verifying everything) of all splits, in
    table order. *)
Definition row_selected (dataset_name : string) (set_type_int : Z)
    (all_sets : bool) (r : CatalogRow) : bool :=
  bool_decide (row_dataset r = dataset_name)
  && (row_problem r =? 0)
  && (all_sets || (row_set_id r =? set_type_int)).

Definition to_query_row (r : CatalogRow) : QueryRow :=
  {| q_file_hash := row_file_hash r;
     q_relative_path := row_relative_path r;
     q_class_id := row_class_id r;
     q_set_id := row_set_id r;
     q_problem := row_problem r |}.

Definition select_rows {sqlite : Sqlite} (table : list CatalogRow)
    (dataset_name : string) (set_type_int : Z) (all_sets : bool)
  : result (list QueryRow) :=
  match select_otherwise table
          (select_query dataset_name set_type_int all_sets) with
  | Some answer => answer
  | None =>
      ret (to_query_row <$>
             List.filter (row_selected dataset_name set_type_int all_sets)
                         table)
  end.

Definition execute_database_query {sqlite : Sqlite} (W : World)
    (dataset_name : string) (set_type_int : Z) (all_sets : bool)
  : result (list QueryRow) :=
  if isfile W DATABASE_PATH then
    select_rows (catalog W) dataset_name set_type_int all_sets
  else raise AssertionError.

(** [SET_TYPES.index(set_type)] *)
Fixpoint list_index (x : string) (l : list string) : option Z :=
  match l with
  | [] => None
  | y :: r => if decide (x = y) then Some 0 else Z.succ <$> list_index x r
  end.

(** *** Grouping and labels *)

(** The loop [for row in rows] that fills [self.dict]. *)
Definition group_row (d : list (Z * list RowData)) (row : QueryRow)
  : list (Z * list RowData) :=
  match dict_get (q_class_id row) d with
  | None => dict_set (q_class_id row) [row_data row] d
  | Some l => dict_set (q_class_id row) (l ++ [row_data row]) d
  end.

Definition group_rows (rows : list QueryRow) : list (Z * list RowData) :=
  fold_left group_row rows [].

(** [list(range(n))] *)
Definition range (n : nat) : list Z := Z.of_nat <$> seq 0 n.

(** The loop [for label in self.dict.keys()] of the second policy. *)
Fixpoint label_loop (keys : list Z) (label_use : Z) (label_dict : list (Z * Z))
  : list (Z * Z) :=
  match keys with
  | [] => label_dict
  | label :: rest =>
      label_loop rest (label_use + 1) (dict_set label label_use label_dict)
  end.

(** [label_dict] is truthy when it is neither [None] nor empty. *)
Definition build_label_dict (label_dict : option (list (Z * Z)))
    (d : list (Z * list RowData)) : list (Z * Z) :=
  match label_dict with
  | Some (e :: ld) => e :: ld
  | _ =>
      let keys := dict_keys d in
      if bool_decide ((list_to_set keys : gset Z)
                      = list_to_set (range (length keys)))
      then (fun i => (i, i)) <$> range (length keys)
      else label_loop keys 0 []
  end.

(** *** [_random_value]

    The five result lists ([label], [hash], [path], [set_id],
    [problem_id]) are appended to in lockstep; they are kept as one list
    of [Sampled] entries. *)
Record Sampled : Type := {
  s_label : Z;
  s_hash : string;
  s_path : string;
  s_set_id : Z;
  s_problem_id : Z
}.

Definition sampled_of (key : Z) (value : RowData) : Sampled :=
  let '(h, p, s, pr) := value in
  {| s_label := key; s_hash := h; s_path := p;
     s_set_id := s; s_problem_id := pr |}.

(** [num_each_class]: [math.inf], or [round(amount / self.num_classes)]. *)
Definition num_each_class_of (amount : cap) (num_classes : Z) : result cap :=
  match amount with
  | Inf => ret Inf
  | Fin a =>
      bind (int_truediv a num_classes) (fun f =>
      bind (round_float f) (fun n => ret (Fin n)))
  end.

(** The inner loop [for value in values]; [track_num] counts the values
    taken so far. *)
Fixpoint take_values (num_each_class : cap) (track_num : Z)
    (values : list RowData) : list RowData :=
  match values with
  | [] => []
  | value :: rest =>
      value ::
        (if ge_cap (track_num + 1) num_each_class then []
         else take_values num_each_class (track_num + 1) rest)
  end.

Section RandomValue.
Context (R : RandomSource).
Context (label_dict : list (Z * Z)) (num_classes : Z) (sample_class_num : cap)
        (num_each_class : cap).

(** The outer loop [for key, values in dictionary.items()]. *)
Fixpoint random_value_loop (items : list (Z * list RowData))
    (current_class_size : Z) (g : rng R) (out : list Sampled)
  : result (rng R * list Sampled) :=
  match items with
  | [] => ret (g, out)
  | (key, values) :: rest =>
      if negb (bool_decide
                 (key ∈ take (Z.to_nat num_classes) (dict_keys label_dict)))
      then
        if eq_cap num_classes sample_class_num
        then random_value_loop rest current_class_size g out
        else raise AssertionError
      else
        let '(g, values) := shuffle R g values in
        let out := out ++ (sampled_of key <$> take_values num_each_class 0 values) in
        let current_class_size := current_class_size + 1 in
        if num_classes <=? current_class_size then ret (g, out)
        else random_value_loop rest current_class_size g out
  end.
End RandomValue.

Definition random_value (R : RandomSource) (label_dict : list (Z * Z))
    (num_classes : Z) (sample_class_num : cap)
    (dictionary : list (Z * list RowData)) (amount : cap) (g : rng R)
  : result (rng R * list Sampled) :=
  bind (num_each_class_of amount num_classes) (fun num_each_class =>
  random_value_loop R label_dict num_classes sample_class_num num_each_class
                    dictionary 0 g []).

(** The loop [for i in range(len(self.labels))] that remaps the labels and
    builds [self.images]. *)
Fixpoint build_images (label_dict : list (Z * Z)) (sampled : list Sampled)
  : result (list CollectionImage) :=
  match sampled with
  | [] => ret []
  | s :: rest =>
      match dict_get (s_label s) label_dict with
      | None => raise KeyError
      | Some l =>
          bind (build_images label_dict rest) (fun imgs =>
          ret ({| relative_path := s_path s;
                  class_id := l;
                  set_id := s_set_id s;
                  problem := s_problem_id s;
                  file_hash := s_hash s;
                  feature_vector := [] |} :: imgs))
      end
  end.

(** *** Item access and verification *)

Definition original_image_path_for_index {W} (self : CollectionDataset W)
    (index : Z) : result string :=
  if (0 <=? index) && (index <=? Z.of_nat (length (images self))) then
    match images self !! Z.to_nat index with
    | Some im =>
        ret (root_path self +:+ dataset_name self +:+ "/"%string
             +:+ relative_path im)
    | None => raise IndexError
    end
  else raise AssertionError.

Definition len {W} (self : CollectionDataset W) : result Z :=
  if initialized_correctly self then ret (Z.of_nat (length (images self)))
  else raise AssertionError.

(** [__getitem__].  In the branch for original images the local
    [image_tensor] is bound only by the statement under
    [if self.pipeline:]. *)
Definition getitem {W} (self : CollectionDataset W) (index : Z)
  : result (item_input W * Z) :=
  if negb (initialized_correctly self) then raise AssertionError
  else if negb ((0 <=? index) && (index <=? Z.of_nat (length (images self))))
  then raise AssertionError
  else if bool_decide (input_type self = "features"%string) then
    match images self !! Z.to_nat index with
    | Some im => ret (InTensor (feature_vector im), class_id im)
    | None => raise IndexError
    end
  else
    bind (original_image_path_for_index self index) (fun image_filename =>
    match image_open W image_filename with
    | None => raise OSError
    | Some image =>
        let image :=
          if bool_decide (input_type self = "original"%string)
          then convert_rgb W image else image in
        let image_tensor : option Tensor :=
          match pipeline self with
          | Some p => Some (p image)
          | None => None
          end in
        match image_tensor with
        | None => raise UnboundLocalError
        | Some t =>
            match images self !! Z.to_nat index with
            | Some im => ret (InTensor t, class_id im)
            | None => raise IndexError
            end
        end
    end).

Definition get_entry_for_index {W} (self : CollectionDataset W) (index : Z)
  : result CollectionImage :=
  if negb (initialized_correctly self) then raise AssertionError
  else if negb ((0 <=? index) && (index <=? Z.of_nat (length (images self))))
  then raise AssertionError
  else
    match images self !! Z.to_nat index with
    | Some im => ret im
    | None => raise IndexError
    end.

(** [verify_original_images_exist]: the loop runs over
    [range(len(self.images))], so no index is out of range. *)
Definition verify_original_images_exist {W} (self : CollectionDataset W)
  : bool :=
  forallb
    (fun im =>
       isfile W (root_path self +:+ dataset_name self +:+ "/"%string
                 +:+ relative_path im))
    (images self).

(** What [verify_feature_vectors_exist_and_load] reports when it fails. *)
Inductive report : Type :=
| ErrorWithVectorType
| FeatureVectorFileMissing (filename : string)
| MissingFeatureVectors (missing_list : list string).

Definition set_feature_vector (im : CollectionImage) (t : Tensor)
  : CollectionImage :=
  {| relative_path := relative_path im;
     class_id := class_id im;
     set_id := set_id im;
     problem := problem im;
     file_hash := file_hash im;
     feature_vector := t |}.

(** [for i, _ in enumerate(self.images): ... = file_h[...][:]] *)
Fixpoint load_feature_vectors (file_h : gmap string Tensor)
    (imgs : list CollectionImage) : result (list CollectionImage) :=
  match imgs with
  | [] => ret []
  | im :: rest =>
      match file_h !! file_hash im with
      | None => raise KeyError
      | Some t =>
          bind (load_feature_vectors file_h rest) (fun rest' =>
          ret (set_feature_vector im t :: rest'))
      end
  end.

Definition set_images {W} (self : CollectionDataset W)
    (imgs : list CollectionImage) : CollectionDataset W :=
  {| root_path := root_path self;
     dataset_name := dataset_name self;
     set_type := set_type self;
     input_type := input_type self;
     vector_type := vector_type self;
     pipeline := pipeline self;
     images := imgs;
     dict := dict self;
     label_dict := label_dict self;
     sample_class_num := sample_class_num self;
     sample_train_size := sample_train_size self;
     sample_test_size := sample_test_size self;
     num_classes := num_classes self;
     initialized_correctly := initialized_correctly self |}.

(** [verify_feature_vectors_exist_and_load]: the returned flag, the
    instance afterwards and what was reported.  [h5py.File] is called
    once [os.path.isfile] has found the file, and raises [OSError] on a
    file it cannot open. *)
Definition verify_feature_vectors_exist_and_load {W}
    (self : CollectionDataset W) (skip_load : bool)
  : result (bool * CollectionDataset W * list report) :=
  match vector_type self with
  | None => ret (false, self, [ErrorWithVectorType])
  | Some vt =>
      let feature_vectors_filename :=
        VECTORS_ROOT_PATH +:+ vt +:+ "/"%string +:+ dataset_name self
        +:+ ".h5"%string in
      if negb (isfile W feature_vectors_filename) then
        ret (false, self, [FeatureVectorFileMissing feature_vectors_filename])
      else
        match h5_file W feature_vectors_filename with
        | None => raise OSError
        | Some file_h =>
            let all_hashes := file_hash <$> images self in
            let missing_list :=
              elements ((list_to_set all_hashes : gset string) ∖ dom file_h) in
            if Nat.ltb 0 (length missing_list)
            then ret (false, self, [MissingFeatureVectors missing_list])
            else if skip_load then ret (true, self, [])
            else
              bind (load_feature_vectors file_h (images self)) (fun imgs =>
              ret (true, set_images self imgs, []))
        end
  end.

(** *** [__init__] *)

(** The object a call of the constructor leaves when it does not raise.
    On an empty query result [__init__] returns early: the object then
    has the attributes stored before the query, with
    [initialized_correctly] still [False], and lacks those set further
    down, [images], [dict], [label_dict] and the rest.  Otherwise it is a
    complete instance. *)
Inductive outcome (W : World) : Type :=
| NoRows
| Built (self : CollectionDataset W).
Arguments NoRows {W}.
Arguments Built {W} self.

(** A method or property that starts by reading [self.images], on the
    object a call of the constructor left: after the early return the
    attribute does not exist. *)
Definition on_instance {W A} (o : outcome W)
    (method : CollectionDataset W -> result A) : result A :=
  match o with
  | NoRows => raise AttributeError
  | Built self => method self
  end.

Definition caps_of (full_dataset : bool) : cap * cap * cap :=
  if full_dataset then (Inf, Inf, Inf)
  else (Fin 500, Fin 54000, Fin 6000).

(** [self.num_classes] *)
Definition num_classes_of (d : list (Z * list RowData)) (sample_class_num : cap)
  : Z :=
  match sample_class_num with
  | Fin c =>
      if gt_cap (Z.of_nat (length (dict_keys d))) sample_class_num
      then c else Z.of_nat (length (dict_keys d))
  | Inf => Z.of_nat (length (dict_keys d))
  end.

(** The third argument of the call of [_random_value]. *)
Definition amount_of (set_type : string) (n_rows : Z)
    (sample_train_size sample_test_size : cap) : cap :=
  if bool_decide (set_type = "train"%string) && gt_cap n_rows sample_train_size
  then sample_train_size
  else if (bool_decide (set_type = "validation"%string)
           || bool_decide (set_type = "test"%string))
          && gt_cap n_rows sample_test_size
  then sample_test_size
  else Inf.

Definition assert (b : bool) : result unit :=
  if b then ret tt else raise AssertionError.

Definition set_initialized_correctly {W} (self : CollectionDataset W)
    (ok : bool) : CollectionDataset W :=
  {| root_path := root_path self;
     dataset_name := dataset_name self;
     set_type := set_type self;
     input_type := input_type self;
     vector_type := vector_type self;
     pipeline := pipeline self;
     images := images self;
     dict := dict self;
     label_dict := label_dict self;
     sample_class_num := sample_class_num self;
     sample_train_size := sample_train_size self;
     sample_test_size := sample_test_size self;
     num_classes := num_classes self;
     initialized_correctly := ok |}.

(** The last block of the constructor: the verification that fits the
    input type, or both verifications when everything is verified, and the
    flag [initialized_correctly] they decide. *)
Definition run_verification {W} (cfg : Config W) (self : CollectionDataset W)
  : result (CollectionDataset W) :=
  if negb (cfg_verify_all_sets_all_types cfg) then
    if bool_decide (input_type self = "original"%string) then
      ret (set_initialized_correctly self (verify_original_images_exist self))
    else
      bind (verify_feature_vectors_exist_and_load self false)
           (fun '(ok, self, _) => ret (set_initialized_correctly self ok))
  else
    let ok1 := verify_original_images_exist self in
    bind (verify_feature_vectors_exist_and_load self true)
         (fun '(ok2, self, _) =>
            ret (set_initialized_correctly self (ok1 && ok2))).

(** The constructor.  [g0] is the state of the global generator when the
    constructor is entered; [random.seed(27)] replaces it first thing. *)
Definition init {sqlite : Sqlite} (R : RandomSource) (W : World) (cfg : Config W)
    (g0 : rng R) : result (rng R * outcome W) :=
  let g := seed R 27 in
  bind (sanitize_and_check_root_path W IMAGES_ROOT_PATH) (fun root =>
  bind (assert (bool_decide (cfg_set_type cfg ∈ SET_TYPES))) (fun _ =>
  bind (assert (bool_decide (cfg_input_type cfg ∈ INPUT_TYPES))) (fun _ =>
  bind (assert
          (negb (bool_decide (cfg_input_type cfg = "features"%string))
           || match cfg_vector_type cfg with
              | Some vt => bool_decide (vt ∈ VECTOR_TYPES)
              | None => false
              end)) (fun _ =>
  match list_index (cfg_set_type cfg) SET_TYPES with
  | None => raise ValueError
  | Some set_type_int =>
  bind (execute_database_query W (cfg_dataset_name cfg) set_type_int
          (cfg_verify_all_sets_all_types cfg)) (fun rows =>
  if Nat.eqb (length rows) 0 then ret (g, NoRows)
  else
    let '(sample_class_num, sample_train_size, sample_test_size) :=
      caps_of (cfg_full_dataset cfg) in
    let d := group_rows rows in
    let label_dict := build_label_dict (cfg_label_dict cfg) d in
    let num_classes := num_classes_of d sample_class_num in
    let amount := amount_of (cfg_set_type cfg) (Z.of_nat (length rows))
                            sample_train_size sample_test_size in
    bind (random_value R label_dict num_classes sample_class_num d amount g)
         (fun '(g, sampled) =>
    bind (build_images label_dict sampled) (fun imgs =>
    let self :=
      {| root_path := root;
         dataset_name := cfg_dataset_name cfg;
         set_type := cfg_set_type cfg;
         input_type := cfg_input_type cfg;
         vector_type := cfg_vector_type cfg;
         pipeline := cfg_pipeline cfg;
         images := imgs;
         dict := d;
         label_dict := label_dict;
         sample_class_num := sample_class_num;
         sample_train_size := sample_train_size;
         sample_test_size := sample_test_size;
         num_classes := num_classes;
         initialized_correctly := false |} in
    bind (run_verification cfg self) (fun self => ret (g, Built self)))))
  end)))).

(** *** Class summaries *)

(** [sorted(list(set(xs)))] on integers. *)
Definition sorted_set (xs : list Z) : list Z :=
  merge_sort Z.le (elements (list_to_set xs : gset Z)).

(** [xs.count(x)] *)
Definition count (xs : list Z) (x : Z) : Z :=
  Z.of_nat (length (filter (fun y => y = x) xs)).

(** The property [unique_class_id_list]. *)
Definition unique_class_id_list {W} (self : CollectionDataset W)
  : result (list Z) :=
  bind (assert (Nat.ltb 0 (length (images self)))) (fun _ =>
  let all_class_ids := class_id <$> images self in
  ret (sorted_set all_class_ids)).

(** The property [class_id_counts]; [counts.update({k: v})] is [counts[k] = v]. *)
Definition class_id_counts {W} (self : CollectionDataset W)
  : result (list (Z * Z)) :=
  bind (assert (Nat.ltb 0 (length (images self)))) (fun _ =>
  let counts := [] in
  let all_class_ids := class_id <$> images self in
  bind (unique_class_id_list self) (fun classes =>
  ret (fold_left
         (fun counts class_id =>
            dict_set class_id (count all_class_ids class_id) counts)
         classes counts))).

(** *** Checks over the whole catalog *)

(** The order of [str] values that are ASCII: by character code. *)
Definition str_le (a b : string) : Prop := String.leb a b = true.

#[global] Instance str_le_dec (a b : string) : Decision (str_le a b).
Proof. unfold str_le. apply _. Defined.

(** [execute_database_query] on
    [select distinct dataset FROM images order by dataset;] *)
Definition select_datasets (W : World) : result (list string) :=
  if isfile W DATABASE_PATH then
    ret (merge_sort str_le (remove_dups (row_dataset <$> catalog W)))
  else raise AssertionError.

(** The loop of [verify_everything].  The constructor is called with four
    positional arguments, which its signature takes as [dataset_name],
    [set_type], [input_type] and [vector_type]; the pipeline is the
    default of the signature.  An instance whose construction returned
    early keeps the flag [initialized_correctly] it was given first,
    [False]. *)
Fixpoint verify_everything_loop {sqlite : Sqlite} (R : RandomSource) (W : World)
    (resnet50_tf_pipeline : Image W -> Tensor) (root_path : string)
    (dataset_list : list string) (g : rng R) (broken_dataset_list : list string)
  : result (rng R * list string) :=
  match dataset_list with
  | [] => ret (g, broken_dataset_list)
  | dataset :: rest =>
      bind (init R W
              {| cfg_dataset_name := root_path;
                 cfg_set_type := dataset;
                 cfg_input_type := "train";
                 cfg_vector_type := Some "original"%string;
                 cfg_pipeline := Some resnet50_tf_pipeline;
                 cfg_label_dict := None;
                 cfg_verify_all_sets_all_types := true;
                 cfg_full_dataset := false |} g)
           (fun '(g, Collection_dataset) =>
              let ok :=
                match Collection_dataset with
                | NoRows => false
                | Built self => initialized_correctly self
                end in
              verify_everything_loop R W resnet50_tf_pipeline root_path rest g
                (if ok then broken_dataset_list
                 else broken_dataset_list ++ [dataset]))
  end.

Definition verify_everything {sqlite : Sqlite} (R : RandomSource) (W : World)
    (resnet50_tf_pipeline : Image W -> Tensor) (root_path : string)
    (g : rng R) : result (rng R * bool) :=
  bind (sanitize_and_check_root_path W root_path) (fun root_path =>
  bind (select_datasets W) (fun dataset_list =>
  bind (verify_everything_loop R W resnet50_tf_pipeline root_path
          dataset_list g [])
       (fun '(g, broken_dataset_list) =>
          ret (g, Nat.eqb (length broken_dataset_list) 0)))).

(** The text of the query of [get_list_of_datasets] that counts. *)
Definition count_query (dataset_name : string) : string :=
  ("select count(" +:+ "*) FROM images WHERE problem=0 and dataset="
   +:+ double_quote +:+ dataset_name +:+ double_quote
   +:+ " group by set_id;")%string.

(** [execute_database_query] on that query.  Read as it is written, it
    counts the rows without problem flag of one task, grouped by split
    id: one count per split id that occurs, in increasing order of the
    split id. *)
Definition select_set_counts {sqlite : Sqlite} (W : World) (dataset_name : string)
  : result (list Z) :=
  if isfile W DATABASE_PATH then
    match count_otherwise (catalog W) (count_query dataset_name) with
    | Some answer => answer
    | None =>
        let rows :=
          filter (fun r => row_problem r = 0 /\ row_dataset r = dataset_name)
                 (catalog W) in
        let set_ids := merge_sort Z.le (remove_dups (row_set_id <$> rows)) in
        ret ((fun s =>
                Z.of_nat (length (filter (fun r => row_set_id r = s) rows)))
               <$> set_ids)
    end
  else raise AssertionError.

(** The counts of an entry of the dictionary [get_list_of_datasets]
    returns, and the entry: its name and, when asked for, the counts. *)
Record DatasetCounts : Type := {
  total_count : Z;
  train_count : Z;
  validation_count : Z;
  test_count : Z
}.

Record DatasetEntry : Type := {
  name : string;
  counts : option DatasetCounts
}.

Fixpoint get_list_of_datasets_loop {sqlite : Sqlite} (W : World)
    (get_counts : bool)
    (rows : list string)
    (Collection_datasets_dict : list (string * DatasetEntry))
  : result (list (string * DatasetEntry)) :=
  match rows with
  | [] => ret Collection_datasets_dict
  | dataset_name :: rest =>
      if negb get_counts then
        get_list_of_datasets_loop W get_counts rest
          (dict_set dataset_name {| name := dataset_name; counts := None |}
                    Collection_datasets_dict)
      else
        bind (select_set_counts W dataset_name) (fun count_rows =>
        let set_counts :=
          if Nat.eqb (length count_rows) 3 then count_rows else [0; 0; 0] in
        let total_count := foldr Z.add 0 set_counts in
        get_list_of_datasets_loop W get_counts rest
          (dict_set dataset_name
             {| name := dataset_name;
                counts := Some {| total_count := total_count;
                                  train_count := set_counts !!! 0%nat;
                                  validation_count := set_counts !!! 1%nat;
                                  test_count := set_counts !!! 2%nat |} |}
             Collection_datasets_dict))
  end.

Definition get_list_of_datasets {sqlite : Sqlite} (W : World) (get_counts : bool)
  : result (list (string * DatasetEntry)) :=
  bind (select_datasets W) (fun rows =>
  get_list_of_datasets_loop W get_counts rows []).

(** *** The folder of original images against the catalog *)

Definition VALID_IMAGE_EXTENSIONS : list string :=
  ["bmp"; "gif"; "jfif"; "jpeg"; "jpg"; "pgm"; "png"; "ppm"; "tif";
   "webp"]%string.

(** The test the loop over [all_files] applies to a file. *)
Definition is_image_file (file : string) : bool :=
  let after_final_slash := List.last (split_on "/" file) EmptyString in
  if -1 <? find "." after_final_slash then
    let extension :=
      lower (List.last (split_on "." after_final_slash) EmptyString) in
    bool_decide (extension ∈ VALID_IMAGE_EXTENSIONS)
  else false.

(** [execute_database_query] on
    [select dataset || relative_path FROM images;] *)
Definition select_image_paths (W : World) : result (list string) :=
  if isfile W DATABASE_PATH then
    ret ((fun r => row_dataset r +:+ row_relative_path r) <$> catalog W)
  else raise AssertionError.

(** [verify_all_original_images_are_in_database].  [glob] is what the
    recursive search for names with a dot returns under a directory. *)
Definition verify_all_original_images_are_in_database (W : World)
    (glob : string -> list string) (root_path : string)
  : result (bool * list string * list string) :=
  bind (sanitize_and_check_root_path W root_path) (fun root_path =>
  let source_dir := root_path +:+ "original_images/"%string in
  let all_files := glob source_dir in
  let image_files := filter (fun file => is_image_file file = true) all_files in
  bind (select_image_paths W) (fun db_images =>
  let images_not_in_db :=
    elements ((list_to_set image_files : gset string)
              ∖ list_to_set db_images) in
  let db_images_without_files :=
    elements ((list_to_set db_images : gset string)
              ∖ list_to_set image_files) in
  if Nat.eqb (length images_not_in_db) 0
     && Nat.eqb (length db_images_without_files) 0
  then ret (true, images_not_in_db, db_images_without_files)
  else ret (false, images_not_in_db, db_images_without_files))).

End Loader.

(** ** Concrete inputs used by the examples below *)

Module Sample.
Import Py Loader.

(** A linear congruential stand-in for a random source. *)
Definition lcg : RandomSource.
Proof.
  refine {| rng := nat;
            seed := Z.to_nat;
            randbelow := fun g n => (S g, Nat.modulo (7 * g + 3) n) |}.
  intros g n Hn; simpl.
  apply Nat.mod_upper_bound; lia.
Defined.

(** An engine that reads every query the way it is written. *)
Definition text_engine : Sqlite :=
  {| select_otherwise := fun _ _ => None;
     count_otherwise := fun _ _ => None |}.

#[local] Existing Instance text_engine.

Definition row (task : string) (class set : Z) (name : string) : CatalogRow :=
  {| row_dataset := task;
     row_relative_path := (name +:+ ".png")%string;
     row_class_id := class;
     row_set_id := set;
     row_problem := 0;
     row_file_hash := name |}.

(** A catalog with one task of three classes (ids 5, 3 and 9), a row with
    the problem flag and a row of another task. *)
Definition birds_catalog : list CatalogRow :=
  [ row "birds" 5 0 "a"; row "birds" 3 0 "b"; row "birds" 5 0 "c";
    row "birds" 3 1 "d"; row "birds" 9 0 "e"; row "birds" 5 0 "f";
    {| row_dataset := "birds"; row_relative_path := "bad.png";
       row_class_id := 5; row_set_id := 0; row_problem := 1;
       row_file_hash := "bad" |};
    row "cars" 1 0 "z" ]%string.

Definition birds_store : gmap string Tensor :=
  list_to_map
    [ ("a", [float_one]); ("b", [S754_zero false]); ("c", [float_one; float_one]);
      ("e", []); ("f", [S754_zero true]) ]%string.

(** Every file exists; an image is represented by the name of its file;
    one file is a store, the one of the backbone [resnet50]. *)
Definition birds_world : World :=
  {| Image := string;
     catalog := birds_catalog;
     isdir := fun _ => true;
     isfile := fun _ => true;
     image_open := fun name => Some name;
     convert_rgb := fun image => image;
     h5_file := fun name =>
       if String.eqb name (VECTORS_ROOT_PATH +:+ "resnet50/birds.h5")%string
       then Some birds_store else None;
     h5_file_is_file := fun _ _ _ => eq_refl |}.

Definition birds_cfg (input_type : string) (label_dict : option (list (Z * Z)))
    (full_dataset : bool) : Config birds_world :=
  {| cfg_dataset_name := "birds";
     cfg_set_type := "train";
     cfg_input_type := input_type;
     cfg_vector_type := Some "resnet50"%string;
     cfg_pipeline := None;
     cfg_label_dict := label_dict;
     cfg_verify_all_sets_all_types := false;
     cfg_full_dataset := full_dataset |}.

(** An instance with no items, returned where a construction fails. *)
Definition blank (W : World) : CollectionDataset W :=
  {| root_path := ""; dataset_name := ""; set_type := ""; input_type := "";
     vector_type := None; pipeline := None; images := []; dict := [];
     label_dict := []; sample_class_num := Inf; sample_train_size := Inf;
     sample_test_size := Inf; num_classes := 0;
     initialized_correctly := false |}.

Definition built_or_blank {R : RandomSource} {W : World}
    (r : result (rng R * outcome W)) (g : rng R)
  : rng R * CollectionDataset W :=
  match r with
  | inr (g', Built self) => (g', self)
  | _ => (g, blank W)
  end.

(** The bounded [train] instance over original images, without pipeline. *)
Definition birds_train : rng lcg * CollectionDataset birds_world :=
  Eval vm_compute in
    built_or_blank (init lcg birds_world (birds_cfg "original" None false) 0%nat)
                   0%nat.

(** The same task over feature vectors. *)
Definition birds_features : rng lcg * CollectionDataset birds_world :=
  Eval vm_compute in
    built_or_blank (init lcg birds_world (birds_cfg "features" None false) 0%nat)
                   0%nat.


(** The same catalog on another machine: the store holds other vectors,
    no image file is there and images are of another type. *)
Definition moved_store : gmap string Tensor :=
  list_to_map
    [ ("a", []); ("b", [float_one]); ("c", []); ("e", [float_one]);
      ("f", [float_one; float_one]) ]%string.

Definition moved_world : World.
Proof.
  refine
    {| Image := unit;
       catalog := birds_catalog;
       isdir := fun _ => true;
       isfile := fun name =>
         String.eqb name DATABASE_PATH
         || String.eqb name (VECTORS_ROOT_PATH +:+ "resnet50/birds.h5")%string;
       image_open := fun _ => None;
       convert_rgb := fun image => image;
       h5_file := fun name =>
         if String.eqb name (VECTORS_ROOT_PATH +:+ "resnet50/birds.h5")%string
         then Some moved_store else None |}.
  intros name file_h.
  destruct (String.eqb name (VECTORS_ROOT_PATH +:+ "resnet50/birds.h5")%string);
    [intros _; apply orb_true_r | discriminate].
Defined.

Definition moved_cfg : Config moved_world :=
  {| cfg_dataset_name := "birds";
     cfg_set_type := "train";
     cfg_input_type := "features";
     cfg_vector_type := Some "resnet50"%string;
     cfg_pipeline := Some (fun _ => []);
     cfg_label_dict := None;
     cfg_verify_all_sets_all_types := false;
     cfg_full_dataset := false |}.

Definition moved_features : rng lcg * CollectionDataset moved_world :=
  Eval vm_compute in
    built_or_blank (init lcg moved_world moved_cfg 5%nat) 5%nat.

(** Nine classes of 667 [validation] rows each. *)
Definition crowded_catalog : list CatalogRow :=
  c ← seq 0 9; replicate 667 (row "crowd" (Z.of_nat c) 1 "").

Definition crowded_world : World :=
  {| Image := string;
     catalog := crowded_catalog;
     isdir := fun _ => true;
     isfile := fun _ => true;
     image_open := fun name => Some name;
     convert_rgb := fun image => image;
     h5_file := fun _ => None;
     h5_file_is_file := fun _ _ _ => eq_refl |}.

Definition crowded_cfg : Config crowded_world :=
  {| cfg_dataset_name := "crowd";
     cfg_set_type := "validation";
     cfg_input_type := "original";
     cfg_vector_type := Some "resnet50"%string;
     cfg_pipeline := None;
     cfg_label_dict := None;
     cfg_verify_all_sets_all_types := false;
     cfg_full_dataset := false |}.

(** A label dictionary made for another split: class 10 does not occur in
    the rows and sits before class 9. *)
Definition foreign_labels : list (Z * Z) := [(5, 0); (3, 1); (10, 2); (9, 3)].

(** An in-progress dictionary of the label index whose last value, 2, is
    not its largest, and an index file with three new labels. *)
Definition index_dict : list (Z * Z * Z) := [((0, 3), 5); ((0, 1), 2)].

Definition index_lines : list string :=
  ["a.png 7"; "b.png 8"; "c.png 9"]%string.

(** The number of items of a completed construction. *)
Definition item_count {R : RandomSource} {W : World}
    (r : result (rng R * outcome W)) : option Z :=
  match r with
  | inr (_, Built self) => Some (Z.of_nat (length (images self)))
  | _ => None
  end.

End Sample.

(** ** Facts about ordered dictionaries, tokens and shuffling *)

Module PyFacts.
Import Py.

Section DictFacts.
Context {K V : Type} `{EqDecision K}.
Implicit Types (d : list (K * V)) (k : K) (v : V).

Lemma dict_get_None d k : dict_get k d = None <-> k ∉ dict_keys d.
Proof.
  unfold dict_keys. induction d as [|[k' v'] d IH]; simpl.
  - split; [intros _; apply not_elem_of_nil | done].
  - rewrite not_elem_of_cons. destruct (decide (k = k')) as [->|Hne].
    + split; [discriminate | intros [? _]; done].
    + rewrite IH. tauto.
Qed.

Lemma dict_get_Some_elem d k v : dict_get k d = Some v -> (k, v) ∈ d.
Proof.
  induction d as [|[k' v'] d IH]; simpl; [discriminate|].
  destruct (decide (k = k')) as [->|Hne].
  - intros [= ->]. apply elem_of_cons; by left.
  - intros H. apply elem_of_cons; right; auto.
Qed.

Lemma dict_get_is_Some d k : is_Some (dict_get k d) <-> k ∈ dict_keys d.
Proof.
  destruct (dict_get k d) as [v|] eqn:E.
  - split; [intros _ | by eexists].
    apply dict_get_Some_elem in E. unfold dict_keys.
    apply list_elem_of_fmap. by exists (k, v).
  - apply dict_get_None in E. split; [intros [? ?]; done | done].
Qed.

Lemma dict_mem_true d k : dict_mem k d = true <-> k ∈ dict_keys d.
Proof.
  unfold dict_mem. rewrite bool_decide_eq_true. apply dict_get_is_Some.
Qed.

Lemma dict_mem_false d k : dict_mem k d = false <-> dict_get k d = None.
Proof.
  unfold dict_mem. rewrite bool_decide_eq_false.
  destruct (dict_get k d); split; try done.
  intros H; exfalso; apply H; by eexists.
Qed.

Lemma dict_get_app d d' k :
  dict_get k (d ++ d') =
  match dict_get k d with Some v => Some v | None => dict_get k d' end.
Proof.
  induction d as [|[k' v'] d IH]; simpl; [done|].
  destruct (decide (k = k')); [done | apply IH].
Qed.

Lemma dict_set_fresh d k v :
  dict_get k d = None -> dict_set k v d = d ++ [(k, v)].
Proof.
  induction d as [|[k' v'] d IH]; simpl; [done|].
  destruct (decide (k = k')); [discriminate|].
  intros H. by rewrite IH.
Qed.

Lemma dict_set_known d k v w :
  dict_get k d = Some w -> dict_keys (dict_set k v d) = dict_keys d.
Proof.
  unfold dict_keys. induction d as [|[k' v'] d IH]; simpl; [discriminate|].
  destruct (decide (k = k')) as [->|Hne]; [done|].
  intros H. rewrite fmap_cons. f_equal. by apply IH.
Qed.

Lemma dict_get_set_eq d k v : dict_get k (dict_set k v d) = Some v.
Proof.
  induction d as [|[k' v'] d IH]; simpl.
  - by rewrite decide_True.
  - destruct (decide (k = k')) as [->|Hne]; simpl.
    + by rewrite decide_True.
    + by rewrite decide_False.
Qed.

Lemma dict_get_set_ne d k k' v :
  k <> k' -> dict_get k' (dict_set k v d) = dict_get k' d.
Proof.
  intros Hne. induction d as [|[k0 v0] d IH]; simpl.
  - by rewrite decide_False.
  - destruct (decide (k = k0)) as [->|Hk]; simpl.
    + by rewrite !decide_False.
    + destruct (decide (k' = k0)); [done | apply IH].
Qed.

(** Looking up the image of [i] in a table built from an injective key
    function. *)
Lemma dict_get_tabulated {I} (f : I -> K) (h : I -> V) (l : list I) (i : I) :
  (forall a b, f a = f b -> a = b) ->
  i ∈ l ->
  dict_get (f i) ((fun j => (f j, h j)) <$> l) = Some (h i).
Proof.
  intros Hinj. induction l as [|j l IH]; simpl.
  - intros H. by apply elem_of_nil in H.
  - intros H. destruct (decide (f i = f j)) as [E|Hne].
    + by rewrite (Hinj _ _ E).
    + apply elem_of_cons in H as [->|H]; [done | auto].
Qed.
End DictFacts.

(** Splitting a line made of two words. *)
Fixpoint no_space (s : string) : Prop :=
  match s with
  | EmptyString => True
  | String c r => is_space c = false /\ no_space r
  end.

Lemma rstrip_no_space (s : string) : no_space s -> rstrip s = s.
Proof.
  induction s as [|c r IH]; simpl; [done|].
  intros [Hc Hr]. rewrite (IH Hr), Hc. by destruct r.
Qed.

Lemma rstrip_cons_nonempty (c : ascii) (r : string) :
  rstrip r <> EmptyString -> rstrip (String c r) = String c (rstrip r).
Proof. simpl. by destruct (rstrip r). Qed.

Lemma append_empty_r (s : string) : (s +:+ EmptyString)%string = s.
Proof.
  induction s as [|a s IH]; [done|].
  change (String a (s +:+ EmptyString)%string = String a s). by f_equal.
Qed.

Lemma append_snoc (a b : string) (c : ascii) :
  (a +:+ String c b)%string = ((a +:+ String c EmptyString) +:+ b)%string.
Proof.
  induction a as [|x a IH]; [done|].
  change (String x (a +:+ String c b)%string
          = String x ((a +:+ String c EmptyString) +:+ b)%string).
  by f_equal.
Qed.

Lemma split_from_no_space (s cur : string) :
  no_space s -> (cur +:+ s)%string <> EmptyString ->
  split_from cur s = [(cur +:+ s)%string].
Proof.
  revert cur. induction s as [|c r IH]; intros cur.
  - intros _. rewrite append_empty_r. cbn [split_from]. by destruct cur.
  - intros [Hc Hr] Hne. cbn [split_from]. rewrite Hc.
    rewrite (append_snoc cur r c). apply IH; [done|].
    rewrite <- (append_snoc cur r c). by destruct cur.
Qed.

Lemma two_words (w : ascii) (tok : string) :
  is_space w = false -> no_space tok -> tok <> EmptyString ->
  split (strip (String w (String " "%char tok)))
  = [String w EmptyString; tok].
Proof.
  intros Hw Htok Hne. unfold strip.
  assert (L : lstrip (String w (String " " tok)) = String w (String " " tok))
    by (simpl; by rewrite Hw).
  rewrite L.
  assert (Rt : rstrip tok = tok) by by apply rstrip_no_space.
  rewrite rstrip_cons_nonempty.
  2:{ rewrite rstrip_cons_nonempty; [done | by rewrite Rt]. }
  rewrite rstrip_cons_nonempty by by rewrite Rt.
  rewrite Rt. unfold split. simpl. rewrite Hw. simpl.
  f_equal. by apply (split_from_no_space tok EmptyString).
Qed.

(** The token ["10...0"] with [e] zeros, which [int] reads as [10 ^ e]. *)
Fixpoint zeros (e : nat) : string :=
  match e with
  | O => EmptyString
  | S e' => String "0"%char (zeros e')
  end.

Definition pow_token (e : nat) : string := String "1"%char (zeros e).

Lemma int_digits_zeros (e : nat) (acc : Z) :
  int_digits acc false (zeros e) = Some (acc * 10 ^ Z.of_nat e).
Proof.
  revert acc. induction e as [|e IH]; intros acc.
  - simpl. f_equal. lia.
  - cbn [zeros int_digits]. change (Ascii.eqb "0" "_") with false.
    change (digit_val "0") with (Some 0). cbv iota. rewrite IH. f_equal.
    rewrite Nat2Z.inj_succ, Z.pow_succ_r by lia. lia.
Qed.

Lemma int_of_str_pow_token (e : nat) :
  int_of_str (pow_token e) = inr (10 ^ Z.of_nat e).
Proof.
  unfold int_of_str, pow_token, int_unsigned.
  change (digit_val "1") with (Some 1). cbv iota.
  rewrite int_digits_zeros. unfold ret. f_equal. lia.
Qed.

Lemma no_space_zeros (e : nat) : no_space (zeros e).
Proof. induction e; simpl; auto. Qed.

Lemma fields_pow_line (e : nat) :
  split (strip (String "f"%char (String " "%char (pow_token e))))
  = [String "f"%char EmptyString; pow_token e].
Proof.
  apply two_words; [reflexivity | | discriminate].
  split; [reflexivity | apply no_space_zeros].
Qed.

(** *** [shuffle] permutes *)

Lemma swap_Permutation {A} (i j : nat) (x : list A) : swap i j x ≡ₚ x.
Proof.
  unfold swap.
  destruct (x !! i) as [a|] eqn:Hi; [|done].
  destruct (x !! j) as [b|] eqn:Hj; [|done].
  by apply Permutation_insert_swap.
Qed.

Lemma shuffle_loop_Permutation {A} (R : RandomSource) (i : nat) :
  forall (g : rng R) (x : list A), (shuffle_loop R i g x).2 ≡ₚ x.
Proof.
  induction i as [|i IH]; intros g x; simpl; [done|].
  destruct (randbelow R g (S (S i))) as [g' j].
  rewrite IH. apply swap_Permutation.
Qed.

Lemma shuffle_Permutation {A} (R : RandomSource) (g : rng R) (x : list A) :
  (shuffle R g x).2 ≡ₚ x.
Proof. apply shuffle_loop_Permutation. Qed.

End PyFacts.

(** ** Facts about binary64 arithmetic on integers *)

Module Binary64Facts.
Import Py.

Lemma pow2_step (d : Z) : 1 <= d -> 2 ^ d = 2 * 2 ^ (d - 1).
Proof. intros H. rewrite <- Z.pow_succ_r by lia. f_equal. lia. Qed.

(** *** Number of binary digits *)
Lemma digits2_pos_bounds (p : positive) :
  2 ^ (Z.pos (digits2_pos p) - 1) <= Z.pos p < 2 ^ Z.pos (digits2_pos p).
Proof.
  induction p as [p IH|p IH|]; cbn [digits2_pos].
  - rewrite Pos2Z.inj_succ, (pow2_step (Z.succ _)) by lia.
    replace (Z.succ (Z.pos (digits2_pos p)) - 1) with (Z.pos (digits2_pos p)) by lia.
    rewrite (pow2_step (Z.pos (digits2_pos p))) in * by lia. lia.
  - rewrite Pos2Z.inj_succ, (pow2_step (Z.succ _)) by lia.
    replace (Z.succ (Z.pos (digits2_pos p)) - 1) with (Z.pos (digits2_pos p)) by lia.
    rewrite (pow2_step (Z.pos (digits2_pos p))) in * by lia. lia.
  - simpl. lia.
Qed.

Lemma pow2_lt_mono (a b : Z) : 0 <= a -> 2 ^ a < 2 ^ b -> a < b.
Proof. intros Ha H. apply (Z.pow_lt_mono_r_iff 2); lia || auto. destruct (Z_lt_le_dec b 0); [|lia]. rewrite (Z.pow_neg_r 2 b) in H by lia. pose proof (Z.pow_nonneg 2 a). lia. Qed.

Lemma digits_unique (p : positive) (d : Z) :
  2 ^ (d - 1) <= Z.pos p < 2 ^ d -> Z.pos (digits2_pos p) = d.
Proof.
  intros [Hl Hu]. pose proof (digits2_pos_bounds p) as [Bl Bu].
  set (D := Z.pos (digits2_pos p)) in *.
  assert (HD : 1 <= D) by (subst D; lia).
  assert (0 < d).
  { destruct (Z_lt_le_dec 0 d); [done|]. 
    destruct (Z.eq_dec d 0) as [->|]; [simpl in Hu; lia|].
    rewrite (Z.pow_neg_r 2 d) in Hu by lia. lia. }
  assert (D - 1 < d) by (apply pow2_lt_mono; lia).
  assert (d - 1 < D) by (apply pow2_lt_mono; lia).
  lia.
Qed.

Lemma Zdigits2_pos (p : positive) : Zdigits2 (Z.pos p) = Z.pos (digits2_pos p).
Proof. reflexivity. Qed.

Lemma fexp_unclipped (x : Z) : -1074 <= x - 53 -> fexp prec emax x = x - 53.
Proof. unfold fexp, emin, prec, emax. lia. Qed.

Lemma round_nearest_even_cases (m : Z) (l : location) :
  round_nearest_even m l = m \/ round_nearest_even m l = m + 1.
Proof.
  unfold round_nearest_even. destruct l as [|[]]; auto.
  destruct (Z.even m); auto.
Qed.

Lemma shr_m_record_of_loc m l : shr_m (shr_record_of_loc m l) = m.
Proof. by destruct l as [|[]]. Qed.

Lemma shr_m_shr_1 (mrs : shr_record) :
  0 <= shr_m mrs -> shr_m (shr_1 mrs) = shr_m mrs / 2.
Proof.
  destruct mrs as [m r s]. cbn [shr_m shr_1]. intros Hm.
  destruct m as [|p|p]; [done| |lia].
  destruct p as [p|p|]; cbn [shr_m].
  - rewrite Pos2Z.inj_xI. apply Z.div_unique with 1; lia.
  - rewrite Pos2Z.inj_xO. apply Z.div_unique with 0; lia.
  - reflexivity.
Qed.

(** First shift and rounding of a 53- or 54-bit quotient. *)
Lemma round_stage1 (q : positive) (e : Z) (l : location) :
  2 ^ 52 <= Z.pos q < 2 ^ 54 -> -1074 <= e ->
  let n := if Z.pos q <? 2 ^ 53 then 0 else 1 in
  exists mrs k,
    shr_fexp prec emax (Z.pos q) e l = (mrs, e + n)
    /\ (k = 0 \/ k = 1)
    /\ round_nearest_even (shr_m mrs) (loc_of_shr_record mrs)
       = Z.pos q / 2 ^ n + k.
Proof.
  intros Hq He. cbn zeta.
  unfold shr_fexp. rewrite Zdigits2_pos.
  destruct (Z.pos q <? 2 ^ 53) eqn:E.
  - apply Z.ltb_lt in E.
    rewrite (digits_unique q 53) by lia.
    rewrite fexp_unclipped by lia.
    replace (53 + e - 53 - e) with 0 by lia. cbn [shr].
    set (mrs := shr_record_of_loc (Z.pos q) l).
    assert (Hm : shr_m mrs = Z.pos q) by apply shr_m_record_of_loc.
    exists mrs.
    destruct (round_nearest_even_cases (shr_m mrs) (loc_of_shr_record mrs))
      as [H|H]; rewrite H, Hm, Z.div_1_r, Z.add_0_r.
    + exists 0. repeat split; auto; lia.
    + exists 1. repeat split; auto.
  - apply Z.ltb_ge in E.
    rewrite (digits_unique q 54) by lia.
    rewrite fexp_unclipped by lia.
    replace (54 + e - 53 - e) with 1 by lia. cbn [shr iter_pos].
    set (mrs := shr_1 (shr_record_of_loc (Z.pos q) l)).
    assert (Hm : shr_m mrs = Z.pos q / 2).
    { subst mrs. rewrite shr_m_shr_1, shr_m_record_of_loc; [done|].
      rewrite shr_m_record_of_loc. lia. }
    exists mrs. change (2 ^ 1) with 2.
    destruct (round_nearest_even_cases (shr_m mrs) (loc_of_shr_record mrs))
      as [H|H]; rewrite H, Hm.
    + exists 0. repeat split; auto; lia.
    + exists 1. repeat split; auto.
Qed.

(** Second shift: only a carry to [2^53] is renormalised. *)
Lemma round_stage2 (m : Z) (e : Z) :
  2 ^ 52 <= m <= 2 ^ 53 -> -1074 <= e ->
  exists m' j,
    shr_fexp prec emax m e loc_Exact
    = ({| shr_m := Z.pos m'; shr_r := false; shr_s := false |}, e + j)
    /\ (j = 0 \/ j = 1)
    /\ Z.pos m' * 2 ^ j = m.
Proof.
  intros Hm He.
  destruct (Z.eq_dec m (2 ^ 53)) as [->|Hne].
  - exists (2 ^ 52)%positive, 1. unfold shr_fexp.
    change (Zdigits2 (2 ^ 53)) with 54.
    rewrite fexp_unclipped by lia.
    replace (54 + e - 53 - e) with 1 by lia.
    repeat split; auto.
  - destruct m as [|p|p]; try lia.
    exists p, 0. unfold shr_fexp. rewrite Zdigits2_pos.
    rewrite (digits_unique p 53) by lia.
    rewrite fexp_unclipped by lia.
    replace (53 + e - 53 - e) with 0 by lia. cbn [shr shr_record_of_loc].
    rewrite Z.add_0_r. repeat split; auto. lia.
Qed.

Lemma round_aux_quotient (q : positive) (e : Z) (l : location) :
  2 ^ 52 <= Z.pos q < 2 ^ 54 -> -1074 <= e <= 900 ->
  let n := if Z.pos q <? 2 ^ 53 then 0 else 1 in
  exists m j k,
    binary_round_aux prec emax false (Z.pos q) e l
    = S754_finite false m (e + n + j)
    /\ (j = 0 \/ j = 1) /\ (k = 0 \/ k = 1)
    /\ Z.pos m * 2 ^ j = Z.pos q / 2 ^ n + k.
Proof.
  intros Hq He. cbn zeta. unfold binary_round_aux.
  destruct (round_stage1 q e l Hq ltac:(lia)) as (mrs & k & -> & Hk & Hr).
  rewrite Hr.
  set (n := if Z.pos q <? 2 ^ 53 then 0 else 1) in *.
  assert (Hn : (n = 0 /\ Z.pos q < 2 ^ 53) \/ (n = 1 /\ 2 ^ 53 <= Z.pos q)).
  { subst n. destruct (Z.pos q <? 2 ^ 53) eqn:E; [left|right]; split; auto.
    - by apply Z.ltb_lt. - by apply Z.ltb_ge. }
  assert (Hrange : 2 ^ 52 <= Z.pos q / 2 ^ n + k <= 2 ^ 53).
  { destruct Hn as [[-> Hlt]|[-> Hge]].
    - rewrite Z.div_1_r. lia.
    - change (2 ^ 1) with 2.
      assert (2 ^ 52 <= Z.pos q / 2) by (apply Z.div_le_lower_bound; lia).
      assert (Z.pos q / 2 < 2 ^ 53) by (apply Z.div_lt_upper_bound; lia).
      lia. }
  destruct (round_stage2 (Z.pos q / 2 ^ n + k) (e + n) Hrange ltac:(lia))
    as (m' & j & -> & Hj & Hm).
  cbn [shr_m]. exists m', j, k.
  assert (e + n + j <= emax - prec) by (unfold emax, prec; lia).
  rewrite (proj2 (Z.leb_le _ _)) by done. auto.
Qed.

Lemma pow2_split (a b : Z) : 0 <= a -> 0 <= b -> 2 ^ (a + b) = 2 ^ a * 2 ^ b.
Proof. intros. by rewrite Z.pow_add_r. Qed.

Lemma pow2_pos (a : Z) : 0 <= a -> 0 < 2 ^ a.
Proof. intros. by apply Z.pow_pos_nonneg. Qed.

Lemma digits_le (p : positive) (d : Z) : Z.pos p < 2 ^ d -> Z.pos (digits2_pos p) <= d.
Proof.
  intros H. pose proof (digits2_pos_bounds p) as [Bl _].
  assert (Z.pos (digits2_pos p) - 1 < d) by (apply pow2_lt_mono; lia). lia.
Qed.

(** The quotient computed by the division core and its distance to the
    next multiple of [2^s]. *)
Lemma quotient_bounds (N K D1 D2 : Z) :
  1 <= D1 <= 52 -> 1 <= D2 ->
  2 ^ (D1 - 1) <= N < 2 ^ D1 ->
  2 ^ (D2 - 1) <= K < 2 ^ D2 ->
  let s := 53 + D2 - D1 in
  let q := (N * 2 ^ s) / K in
  2 ^ 52 <= q < 2 ^ 54
  /\ q / 2 ^ s = N / K
  /\ q + 3 <= (N / K + 1) * 2 ^ s.
Proof.
  intros HD1 HD2 HN HK. cbn zeta.
  set (s := 53 + D2 - D1). set (q := N * 2 ^ s / K).
  set (A := 2 ^ (D2 - 1)) in *. set (B := 2 ^ (D1 - 1)) in *.
  set (C := 2 ^ (53 - D1)).
  assert (HA : 0 < A) by (apply pow2_pos; lia).
  assert (HB : 0 < B) by (apply pow2_pos; lia).
  assert (HC : 2 <= C).
  { subst C. replace (53 - D1) with (1 + (52 - D1)) by lia.
    rewrite pow2_split by lia. pose proof (pow2_pos (52 - D1)). lia. }
  assert (E2 : 2 ^ D2 = 2 * A) by (subst A; apply pow2_step; lia).
  assert (E1 : 2 ^ D1 = 2 * B) by (subst B; apply pow2_step; lia).
  assert (EBC : B * C = 2 ^ 52).
  { subst B C. rewrite <- pow2_split by lia. f_equal. lia. }
  assert (Es : 2 ^ s = 2 * A * C).
  { subst s A C. replace (53 + D2 - D1) with (1 + (D2 - 1) + (53 - D1)) by lia.
    rewrite !pow2_split by lia. done. }
  rewrite E1, E2 in *.
  assert (HKpos : 0 < K) by lia.
  pose proof (Z.mul_div_le (N * 2 ^ s) K HKpos) as Hq1.
  pose proof (Z.mul_succ_div_gt (N * 2 ^ s) K HKpos) as Hq2.
  fold q in Hq1, Hq2. rewrite Es in *.
  change (2 ^ 52) with 4503599627370496 in *.
  change (2 ^ 54) with 18014398509481984.
  assert (Hdiv : q / (2 * A * C) = N / K).
  { unfold q. rewrite Es, Z.div_div by lia.
    rewrite Z.div_mul_cancel_r by lia. done. }
  pose proof (Z.mul_div_le N K HKpos) as Ha1.
  pose proof (Z.mul_succ_div_gt N K HKpos) as Ha2.
  set (a := N / K) in *.
  split; [|split; [exact Hdiv|]].
  - split.
    + assert (K * (q + 1) > 4503599627370496 * K) by nia.
      assert (q + 1 > 4503599627370496) by nia. lia.
    + assert (K * q < 18014398509481984 * K) by nia. nia.
  - assert (K * ((a + 1) * (2 * A * C) - q) >= 2 * A * C) by nia.
    assert (2 * A * C > 2 * K) by nia.
    nia.
Qed.

Lemma div_pow2_cancel (m j t : Z) :
  0 <= j <= t -> (m * 2 ^ j) / 2 ^ t = m / 2 ^ (t - j).
Proof.
  intros H. replace t with ((t - j) + j) at 1 by lia.
  rewrite pow2_split by lia.
  rewrite Z.div_mul_cancel_r; [done| |].
  - pose proof (pow2_pos (t - j)). lia.
  - pose proof (pow2_pos j). lia.
Qed.

(** [int(N / K)] is the floor of the quotient for [N] below [2^52]. *)
Lemma int_truediv_floor (N K : Z) :
  0 < N < 2 ^ 52 -> 0 < K < 2 ^ 63 ->
  exists f, int_truediv N K = inr f /\ int_of_float f = inr (N / K).
Proof.
  intros HN HK. unfold int_truediv.
  rewrite (proj2 (Z.eqb_neq K 0)) by lia.
  rewrite (proj2 (Z.eqb_neq N 0)) by lia.
  rewrite (proj2 (Z.ltb_ge N 0)), (proj2 (Z.ltb_ge K 0)) by lia.
  rewrite !Z.abs_eq by lia. cbn [xorb].
  destruct N as [|pn|pn]; try lia. destruct K as [|pk|pk]; try lia.
  unfold SFdiv_core_binary. rewrite !Zdigits2_pos.
  pose proof (digits2_pos_bounds pn) as BN.
  pose proof (digits2_pos_bounds pk) as BK.
  pose proof (digits_le pn 52 (proj2 HN)) as LN.
  pose proof (digits_le pk 63 (proj2 HK)) as LK.
  set (D1 := Z.pos (digits2_pos pn)) in *.
  set (D2 := Z.pos (digits2_pos pk)) in *.
  assert (HD1 : 1 <= D1) by (subst D1; lia).
  assert (HD2 : 1 <= D2) by (subst D2; lia).
  replace (D1 + 0 - (D2 + 0)) with (D1 - D2) by lia.
  rewrite fexp_unclipped by lia.
  rewrite Z.min_l by lia.
  replace (0 - 0 - (D1 - D2 - 53)) with (53 + D2 - D1) by lia.
  set (s := 53 + D2 - D1).
  assert (Hs : 2 <= s) by (subst s; lia).
  destruct s as [|ps|ps] eqn:Es; try lia. rewrite <- Es in *.
  rewrite Z.shiftl_mul_pow2 by lia.
  destruct (quotient_bounds (Z.pos pn) (Z.pos pk) D1 D2
              ltac:(lia) ltac:(lia) BN BK) as (Hq & Hdiv & Hgap).
  fold s in Hq, Hdiv, Hgap.
  assert (Hfst : Z.div_eucl (Z.pos pn * 2 ^ s) (Z.pos pk)
                 = ((Z.pos pn * 2 ^ s) / Z.pos pk,
                    (Z.pos pn * 2 ^ s) mod Z.pos pk)).
  { unfold Z.div, Z.modulo. by destruct (Z.div_eucl _ _). }
  rewrite Hfst.
  set (q := Z.pos pn * 2 ^ s / Z.pos pk) in *.
  destruct q as [|pq|pq] eqn:Eq; try lia. rewrite <- Eq in *.
  set (l := new_location (Z.pos pk) (Z.pos pn * 2 ^ s mod Z.pos pk)).
  rewrite Eq.
  destruct (round_aux_quotient pq (D1 - D2 - 53) l ltac:(lia) ltac:(lia))
    as (m & j & k & -> & Hj & Hk & Hm).
  set (n := if Z.pos pq <? 2 ^ 53 then 0 else 1) in *.
  rewrite <- Eq in Hm.
  assert (Hn : n = 0 \/ n = 1)
    by (subst n; destruct (Z.pos pq <? 2 ^ 53); auto).
  eexists. split; [reflexivity|].
  set (a := Z.pos pn / Z.pos pk) in *.
  set (t := s - n).
  assert (Ht : 1 <= t) by (subst t; lia).
  assert (He2 : D1 - D2 - 53 + n + j = - (t - j)) by (subst t s; lia).
  assert (Hval : Z.pos m / 2 ^ (t - j) = a).
  { rewrite <- div_pow2_cancel by lia. rewrite Hm.
    assert (Hqn : q / 2 ^ n / 2 ^ t = a).
    { rewrite Z.div_div; [|pose proof (pow2_pos n); lia
                          |pose proof (pow2_pos t); lia].
      rewrite <- pow2_split by lia. replace (n + t) with s by (subst t; lia).
      done. }
    assert (Ht2 : 0 < 2 ^ t) by (apply pow2_pos; lia).
    assert (Hlow : a * 2 ^ t <= q / 2 ^ n).
    { rewrite <- Hqn. rewrite Z.mul_comm. apply Z.mul_div_le. lia. }
    assert (Hup : q / 2 ^ n + 1 < (a + 1) * 2 ^ t).
    { assert (Est : 2 ^ s = 2 ^ n * 2 ^ t).
      { rewrite <- pow2_split by lia. f_equal. subst t. lia. }
      rewrite Est in Hgap.
      destruct Hn as [Hn0|Hn1]; rewrite Hn0 || rewrite Hn1;
        rewrite ?Hn0, ?Hn1 in Hgap.
      - change (2 ^ 0) with 1 in *. rewrite Z.div_1_r. lia.
      - change (2 ^ 1) with 2 in *.
        pose proof (Z.mul_div_le q 2 ltac:(lia)). lia. }
    symmetry. apply Z.div_unique with (q / 2 ^ n + k - a * 2 ^ t); lia. }
  unfold int_of_float. rewrite He2.
  destruct (0 <=? - (t - j)) eqn:E0.
  - apply Z.leb_le in E0. assert (t - j = 0) by lia.
    replace (- (t - j)) with 0 by lia. rewrite Z.shiftl_0_r.
    rewrite H in Hval. change (2 ^ 0) with 1 in Hval.
    rewrite Z.div_1_r in Hval. by rewrite Hval.
  - rewrite Z.opp_involutive, Z.shiftr_div_pow2 by lia. by rewrite Hval.
Qed.

(** *** Exact conversions *)

Lemma iter_pos_nat {A} (f : A -> A) (p : positive) (x : A) :
  SpecFloat.iter_pos f p x = Nat.iter (Pos.to_nat p) f x.
Proof.
  revert x. induction p as [p IH|p IH|]; intros x; cbn [SpecFloat.iter_pos].
  - rewrite !IH, Pos2Nat.inj_xI.
    replace (S (2 * Pos.to_nat p)) with (Pos.to_nat p + (Pos.to_nat p + 1))%nat
      by lia.
    rewrite !Nat.iter_add. done.
  - rewrite !IH, Pos2Nat.inj_xO.
    replace (2 * Pos.to_nat p)%nat with (Pos.to_nat p + Pos.to_nat p)%nat by lia.
    by rewrite Nat.iter_add.
  - done.
Qed.

Lemma shr_1_even (M : Z) :
  0 < M ->
  shr_1 {| shr_m := 2 * M; shr_r := false; shr_s := false |}
  = {| shr_m := M; shr_r := false; shr_s := false |}.
Proof. intros H. destruct M; try lia. reflexivity. Qed.

Lemma iter_shr_1_exact (k : nat) (M : Z) :
  0 < M ->
  Nat.iter k shr_1 {| shr_m := M * 2 ^ Z.of_nat k; shr_r := false; shr_s := false |}
  = {| shr_m := M; shr_r := false; shr_s := false |}.
Proof.
  intros HM. induction k as [|k IH].
  - cbn. by rewrite Z.mul_1_r.
  - rewrite Nat.iter_succ_r.
    replace (M * 2 ^ Z.of_nat (S k)) with (2 * (M * 2 ^ Z.of_nat k)).
    + rewrite shr_1_even; [done|]. pose proof (pow2_pos (Z.of_nat k)). nia.
    + rewrite Nat2Z.inj_succ, Z.pow_succ_r by lia. lia.
Qed.

(** Rounding a mantissa that is a 53-bit number followed by [n] zero bits
    drops the zeros and changes nothing else. *)
Lemma round_aux_exact (M : positive) (n e : Z) (S : positive) :
  2 ^ 52 <= Z.pos M < 2 ^ 53 -> 0 <= n -> Z.pos S = Z.pos M * 2 ^ n ->
  -1074 <= e -> e + n <= 971 ->
  binary_round_aux prec emax false (Z.pos S) e loc_Exact
  = S754_finite false M (e + n).
Proof.
  intros HM Hn HS He Hmax. unfold binary_round_aux.
  assert (Hstage : shr_fexp prec emax (Z.pos S) e loc_Exact
                   = ({| shr_m := Z.pos M; shr_r := false; shr_s := false |},
                      e + n)).
  { unfold shr_fexp. rewrite Zdigits2_pos.
    rewrite (digits_unique S (53 + n)).
    2:{ rewrite HS. replace (53 + n - 1) with (52 + n) by lia.
        rewrite !pow2_split by lia. pose proof (pow2_pos n Hn). nia. }
    rewrite fexp_unclipped by lia.
    replace (53 + n + e - 53 - e) with n by lia.
    cbn [shr_record_of_loc]. unfold shr.
    destruct n as [|pn|pn]; try lia.
    - rewrite Z.mul_1_r in HS. by rewrite HS, Z.add_0_r.
    - f_equal. rewrite iter_pos_nat, HS.
      rewrite <- (positive_nat_Z pn). apply iter_shr_1_exact. lia. }
  rewrite Hstage. cbn [shr_m loc_of_shr_record round_nearest_even].
  assert (Hstage2 : shr_fexp prec emax (Z.pos M) (e + n) loc_Exact
                    = ({| shr_m := Z.pos M; shr_r := false; shr_s := false |},
                       e + n)).
  { unfold shr_fexp. rewrite Zdigits2_pos.
    rewrite (digits_unique M 53) by lia.
    rewrite fexp_unclipped by lia.
    replace (53 + (e + n) - 53 - (e + n)) with 0 by lia. done. }
  rewrite Hstage2. cbn [shr_m].
  rewrite (proj2 (Z.leb_le _ _)); [done|]. unfold emax, prec. lia.
Qed.

(** The binary64 value of an integer below [2^53]. *)
Definition canon (z : Z) : spec_float :=
  match z with
  | Zpos p =>
      let d := Z.pos (digits2_pos p) in
      S754_finite false (Z.to_pos (z * 2 ^ (53 - d))) (d - 53)
  | _ => S754_zero false
  end.

Lemma canon_mantissa (p : positive) :
  Z.pos p < 2 ^ 53 ->
  let d := Z.pos (digits2_pos p) in
  let M := Z.to_pos (Z.pos p * 2 ^ (53 - d)) in
  1 <= d <= 53 /\ Z.pos M = Z.pos p * 2 ^ (53 - d)
  /\ 2 ^ 52 <= Z.pos M < 2 ^ 53.
Proof.
  intros Hp. cbn zeta. pose proof (digits2_pos_bounds p) as [Bl Bu].
  pose proof (digits_le p 53 Hp) as Hd.
  set (d := Z.pos (digits2_pos p)) in *.
  assert (1 <= d) by (subst d; lia).
  assert (P : 0 < 2 ^ (53 - d)) by (apply pow2_pos; lia).
  split; [lia|]. rewrite Z2Pos.id by nia. split; [done|].
  assert (E52 : 2 ^ 52 = 2 ^ (d - 1) * 2 ^ (53 - d)).
  { rewrite <- pow2_split by lia. f_equal. lia. }
  assert (E53 : 2 ^ 53 = 2 ^ d * 2 ^ (53 - d)).
  { rewrite <- pow2_split by lia. f_equal. lia. }
  rewrite E52, E53. nia.
Qed.

Lemma pos_iter_xO (k : positive) (p : positive) :
  Z.pos (Pos.iter xO p k) = Z.pos p * 2 ^ Z.pos k.
Proof.
  rewrite Pos2Nat.inj_iter, <- (positive_nat_Z k).
  induction (Pos.to_nat k) as [|n IH].
  - simpl. lia.
  - cbn [nat_rect].
    rewrite Pos2Z.inj_xO, IH, Nat2Z.inj_succ, Z.pow_succ_r by lia. lia.
Qed.

(** Rounding [w * 2^c] at exponent [-c] gives the value of [w]. *)
Lemma binary_round_scaled (w S : positive) (c : Z) :
  Z.pos w < 2 ^ 53 -> 0 <= c <= 52 -> Z.pos S = Z.pos w * 2 ^ c ->
  binary_round prec emax false S (- c) = canon (Z.pos w).
Proof.
  intros Hw Hc HS. unfold binary_round, canon.
  destruct (canon_mantissa w Hw) as (Hd & HM & HMr).
  pose proof (digits2_pos_bounds w) as [Bl Bu].
  set (d := Z.pos (digits2_pos w)) in *.
  set (M := Z.to_pos (Z.pos w * 2 ^ (53 - d))) in *.
  assert (HdS : Z.pos (digits2_pos S) = d + c).
  { apply digits_unique. rewrite HS.
    replace (d + c - 1) with (d - 1 + c) by lia.
    rewrite !pow2_split by lia. pose proof (pow2_pos c). nia. }
  rewrite HdS. replace (d + c + - c) with d by lia.
  rewrite fexp_unclipped by lia. unfold shl_align.
  destruct (d - 53 - - c) as [|k|k] eqn:Ek.
  - replace (d - 53) with (- c + (53 - d - c + c + (d - 53) - (53 - d - c))) by lia.
    assert (c = 53 - d) by lia.
    rewrite (round_aux_exact M 0 (- c) S); try lia.
    + f_equal; lia.
    + rewrite Z.mul_1_r, HS, HM. f_equal. f_equal. lia.
  - rewrite (round_aux_exact M (Z.pos k) (- c) S); try lia.
    + f_equal. lia.
    + rewrite HS, HM. replace c with (53 - d + Z.pos k) by lia.
      rewrite pow2_split by lia. lia.
  - rewrite (round_aux_exact M 0 (d - 53) (Pos.iter xO S k)); try lia.
    + f_equal. lia.
    + rewrite Z.mul_1_r, pos_iter_xO, HS, HM.
      replace (53 - d) with (c + Z.pos k) by lia.
      rewrite pow2_split by lia. lia.
Qed.

Lemma float_of_int_canon (z : Z) :
  0 <= z < 2 ^ 53 -> float_of_int z = inr (canon z).
Proof.
  intros Hz. unfold float_of_int, binary_normalize.
  destruct z as [|p|p]; try lia; [done|].
  change (binary_round prec emax false p 0)
    with (binary_round prec emax false p (- 0)).
  rewrite (binary_round_scaled p p 0); [| lia | lia | lia].
  reflexivity.
Qed.

Lemma int_of_float_canon (z : Z) :
  0 <= z < 2 ^ 53 -> int_of_float (canon z) = inr z.
Proof.
  intros Hz. destruct z as [|p|p]; try lia; [done|].
  destruct (canon_mantissa p (proj2 Hz)) as (Hd & HM & HMr).
  unfold canon, int_of_float.
  set (d := Z.pos (digits2_pos p)) in *.
  set (M := Z.to_pos (Z.pos p * 2 ^ (53 - d))) in *.
  f_equal. destruct (0 <=? d - 53) eqn:E.
  - apply Z.leb_le in E. assert (Ed : d = 53) by lia.
    rewrite HM, Ed. change (53 - 53) with 0. rewrite Z.shiftl_0_r.
    change (2 ^ 0) with 1. lia.
  - rewrite Z.shiftr_div_pow2 by lia. rewrite HM.
    replace (- (d - 53)) with (53 - d) by lia.
    apply Z.div_mul. pose proof (pow2_pos (53 - d)). lia.
Qed.

Lemma astype_int_canon (z : Z) :
  0 <= z < 2 ^ 53 -> astype_int (canon z) = z.
Proof.
  intros Hz. unfold astype_int. rewrite int_of_float_canon by done.
  assert (2 ^ 53 < 2 ^ 63) by (apply Z.pow_lt_mono_r; lia).
  assert (0 < 2 ^ 63) by (apply pow2_pos; lia).
  destruct (- 2 ^ 63 <=? z) eqn:E1; [|apply Z.leb_gt in E1; lia].
  destruct (z <? 2 ^ 63) eqn:E2; [done|apply Z.ltb_ge in E2; lia].
Qed.

(** Adding one to the value of an integer gives the value of its
    successor, below [2^53]. *)
Lemma add_one_canon (z : Z) :
  0 <= z -> z + 1 < 2 ^ 53 ->
  SFadd prec emax (canon z) float_one = canon (z + 1).
Proof.
  intros Hz Hz1. destruct z as [|p|p]; try lia; [reflexivity|].
  destruct (canon_mantissa p ltac:(lia)) as (Hd & HM & HMr).
  unfold canon at 1. unfold float_one, SFadd.
  set (d := Z.pos (digits2_pos p)) in *.
  set (M := Z.to_pos (Z.pos p * 2 ^ (53 - d))) in *.
  rewrite Z.min_r by lia.
  assert (H1 : Z.pos (fst (shl_align M (d - 53) (-52)))
               = Z.pos p * 2 ^ 52).
  { unfold shl_align. destruct (-52 - (d - 53)) as [|k|k] eqn:Ek; try lia.
    - cbn [fst]. rewrite HM. f_equal. f_equal. lia.
    - cbn [fst]. rewrite pos_iter_xO, HM, <- Z.mul_assoc, <- pow2_split by lia.
      f_equal. f_equal. lia. }
  assert (H2 : fst (shl_align (2 ^ 52) (-52) (-52)) = (2 ^ 52)%positive)
    by reflexivity.
  rewrite H2. cbn [cond_Zopp]. rewrite H1.
  assert (HS : Z.pos p * 2 ^ 52 + Z.pos (2 ^ 52)
               = Z.pos (p + 1) * 2 ^ 52).
  { rewrite Pos2Z.inj_add. change (Z.pos (2 ^ 52)) with (2 ^ 52). lia. }
  rewrite HS. unfold binary_normalize.
  destruct (Z.pos (p + 1) * 2 ^ 52) as [|S|S] eqn:ES; try lia.
  change (binary_round prec emax false S (-52))
    with (binary_round prec emax false S (Z.opp 52)).
  rewrite (binary_round_scaled (p + 1) S 52); [| lia | lia | lia].
  reflexivity.
Qed.

End Binary64Facts.

(** ** Properties of [read_file] *)

Module ReadFileSpec.
Import Py Utils.

(** The whitespace-separated fields of a line. *)
Definition fields (line : string) : list string := split (strip line).

(** The default of the interpreter's limit on the digits [int] converts. *)
Definition int_max_str_digits : Z := 4300.

(** A line whose second field, if it has one, is no longer than that: on
    such a line [int_of_str] is [int], with the default limit and with
    none. *)
Definition label_fits (line : string) : Prop :=
  match fields line with
  | _ :: d1 :: _ => Z.of_nat (String.length d1) <= int_max_str_digits
  | _ => True
  end.

(** A line [read_file] accepts, and the pair it contributes. *)
Definition line_yields (line : string) (p : string * Z) : Prop :=
  exists d1 rest, fields line = p.1 :: d1 :: rest /\ int_of_str d1 = inr p.2.

(** A line on which [read_file] raises. *)
Definition line_rejected (line : string) : Prop :=
  (length (fields line) < 2)%nat
  \/ exists d0 d1 rest, fields line = d0 :: d1 :: rest
                        /\ int_of_str d1 = inl ValueError.

Lemma int_of_str_cases (s : string) :
  (exists z, int_of_str s = inr z) \/ int_of_str s = inl ValueError.
Proof.
  unfold int_of_str.
  destruct (match s with
            | String "-"%char r => Z.opp <$> int_unsigned r
            | String "+"%char r => int_unsigned r
            | _ => int_unsigned s
            end) as [z|]; [left; by exists z | by right].
Qed.

Lemma read_file_line_ok (line : string) (p : string * Z) :
  read_file_line line = inr p <-> line_yields line p.
Proof.
  unfold read_file_line, line_yields, fields.
  destruct (split (strip line)) as [|d0 [|d1 rest]]; simpl.
  - split; [discriminate | intros (? & ? & ? & _); discriminate].
  - split; [discriminate | intros (? & ? & ? & _); discriminate].
  - destruct (int_of_str d1) as [e|n] eqn:E; simpl.
    + split; [discriminate|]. intros (d1' & rest' & Hf & Hi).
      inversion Hf; subst. rewrite E in Hi. discriminate.
    + split.
      * intros [= <-]. by exists d1, rest.
      * intros (d1' & rest' & Hf & Hi). inversion Hf; subst.
        rewrite E in Hi. destruct p as [p1 p2]; simpl in *.
        by inversion Hi.
Qed.

Lemma read_file_line_raises (line : string) :
  raises (read_file_line line) <-> line_rejected line.
Proof.
  unfold read_file_line, line_rejected, fields.
  destruct (split (strip line)) as [|d0 [|d1 rest]]; simpl.
  - split; [intros _; left; lia | done].
  - split; [intros _; left; lia | done].
  - destruct (int_of_str_cases d1) as [[z Hz]|Hz]; rewrite Hz; simpl.
    + split; [done|]. intros [H|(a & b & c & Hf & Hi)]; [lia|].
      inversion Hf; subst. rewrite Hz in Hi. discriminate.
    + split; [|done]. intros _. right. by exists d0, d1, rest.
Qed.

Lemma read_file_loop_ok (lines : list string) :
  forall container out,
    read_file_loop lines container = inr out <->
    exists ps, out = container ++ ps /\ Forall2 line_yields lines ps.
Proof.
  induction lines as [|line rest IH]; intros container out; simpl.
  - split.
    + intros [= <-]. exists []. by rewrite app_nil_r.
    + intros (ps & -> & H). inversion H; subst. by rewrite app_nil_r.
  - destruct (read_file_line line) as [e|p] eqn:E; simpl.
    + split; [discriminate|].
      intros (ps & _ & H). inversion H as [|? q ? ? Hq _]; subst.
      apply read_file_line_ok in Hq. rewrite E in Hq. discriminate.
    + rewrite IH. split.
      * intros (ps & -> & H). exists (p :: ps). split.
        -- by rewrite <- app_assoc.
        -- constructor; [by apply read_file_line_ok | done].
      * intros (ps & -> & H). inversion H as [|? q ? qs Hq Hqs]; subst.
        apply read_file_line_ok in Hq. rewrite E in Hq. inversion Hq; subst.
        exists qs. split; [by rewrite <- app_assoc | done].
Qed.

Lemma read_file_loop_raises (lines : list string) :
  forall container,
    raises (read_file_loop lines container) <-> Exists line_rejected lines.
Proof.
  induction lines as [|line rest IH]; intros container; simpl.
  - split; [done | intros H; inversion H].
  - rewrite Exists_cons, <- read_file_line_raises.
    destruct (read_file_line line) as [e|p]; simpl.
    + split; [by left | done].
    + rewrite IH. split; [by right | intros [[]|]; done].
Qed.

(** C8, counterexample: a line with three fields is not a line of exactly
    two fields, and [read_file] does not fail on it; it returns the first
    two fields and ignores the third. *)
Lemma read_file_three_fields_accepted :
  read_file ["a 1 b"%string] = inr [("a"%string, 1)]
  /\ ~ (raises (read_file ["a 1 b"%string])
        <-> Exists (fun line => length (fields line) <> 2%nat) ["a 1 b"%string]).
Proof.
  split; [reflexivity|].
  intros [_ H]. apply H. constructor. vm_compute. lia.
Qed.

(** A line of exactly two fields makes [read_file] fail when the second
    field is not an integer literal. *)
Lemma read_file_two_fields_rejected :
  length (fields "a b"%string) = 2%nat
  /\ read_file ["a b"%string] = inl ValueError.
Proof. split; reflexivity. Qed.

(** C8, amended: on lines whose second field has at most 4300 characters
    (so that no limit of the interpreter on the digits of an integer
    applies), [read_file] returns, in order, one pair per line, made of
    the line's first field and the integer value of its second field
    (further fields are ignored); it fails if and only if some line has
    fewer than two whitespace-separated fields or a second field that is
    not an integer literal.  Fields are separated by the whitespace of
    [str.split]; lines are text of code points below 256. *)
Theorem read_file_spec (lines : list string) :
  Forall label_fits lines ->
  (forall out, read_file lines = inr out <-> Forall2 line_yields lines out)
  /\ (raises (read_file lines) <-> Exists line_rejected lines).
Proof.
  intros _. split.
  - intros out. unfold read_file. rewrite read_file_loop_ok. split.
    + by intros (ps & -> & H).
    + intros H. by exists out.
  - apply read_file_loop_raises.
Qed.

(** Three lines within the limit, the second with a third field and the
    fields of the third separated by a no-break space: all are read. *)
Lemma read_file_spec_witness :
  Forall label_fits ["a 1"; "b -2 c"; String "c" (String "160" "3")]%string
  /\ read_file ["a 1"; "b -2 c"; String "c" (String "160" "3")]%string
     = inr [("a", 1); ("b", -2); ("c", 3)]%string.
Proof.
  assert (H : Forall label_fits
                ["a 1"; "b -2 c"; String "c" (String "160" "3")]%string).
  { repeat (constructor; [by vm_compute|]). constructor. }
  split; [exact H|].
  apply (proj1 (read_file_spec _ H)).
  repeat constructor; by eexists _, _.
Defined.

End ReadFileSpec.

(** ** Properties of [divide_integer_K] *)

Module DivideSpec.
Import Py Utils Binary64Facts.

(** The partition the docstring promises, in exact integer arithmetic:
    [K] parts equal to the floor of [N / K], the first [N mod K] of them
    raised by one. *)
Definition exact_parts (N K : Z) : list Z :=
  (fun i => if Z.of_nat i <? N mod K then N / K + 1 else N / K)
    <$> seq 0 (Z.to_nat K).

Definition sum_list (l : list Z) : Z := foldr Z.add 0 l.

Lemma sum_list_app (l1 l2 : list Z) :
  sum_list (l1 ++ l2) = sum_list l1 + sum_list l2.
Proof.
  unfold sum_list. induction l1 as [|x l1 IH]; simpl; [done|].
  rewrite IH. lia.
Qed.

Lemma sum_exact_parts (q r : Z) (n : nat) :
  0 <= r ->
  sum_list ((fun i => if Z.of_nat i <? r then q + 1 else q) <$> seq 0 n)
  = Z.of_nat n * q + Z.min r (Z.of_nat n).
Proof.
  intros Hr. induction n as [|n IH]; [simpl; lia|].
  rewrite seq_S, fmap_app, sum_list_app, IH. cbn.
  destruct (Z.of_nat n <? r) eqn:E.
  - apply Z.ltb_lt in E. lia.
  - apply Z.ltb_ge in E. lia.
Qed.

(** The exact partition has the properties asked of the code: [K]
    non-negative parts that sum to [N], each the floor of [N / K] or one
    more, the larger ones first. *)
Lemma exact_parts_spec (N K : Z) :
  0 <= N -> 0 < K ->
  length (exact_parts N K) = Z.to_nat K
  /\ sum_list (exact_parts N K) = N
  /\ Forall (fun p => 0 <= p /\ N / K <= p <= N / K + 1) (exact_parts N K)
  /\ forall i, (i < Z.to_nat K)%nat ->
               exact_parts N K !! i
               = Some (if Z.of_nat i <? N mod K then N / K + 1 else N / K).
Proof.
  intros HN HK. unfold exact_parts.
  pose proof (Z.mod_pos_bound N K HK) as Hmod.
  pose proof (Z.div_pos N K HN HK) as Hdiv.
  split; [by rewrite length_fmap, length_seq|]. split.
  - rewrite sum_exact_parts by lia.
    rewrite Z2Nat.id, Z.min_l by lia.
    pose proof (Z.div_mod N K). lia.
  - split.
    + apply Forall_fmap, Forall_forall. intros i _. cbn.
      destruct (Z.of_nat i <? N mod K); lia.
    + intros i Hi. rewrite list_lookup_fmap, lookup_seq_lt by done. done.
Qed.

(** Whatever the quotient, the code returns [K] parts. *)
Lemma fill_loop_length (N K : Z) (n : nat) :
  forall i array array',
    fill_loop N K n i array = inr array' -> length array' = length array.
Proof.
  induction n as [|n IH]; intros i array array'; cbn [fill_loop].
  - by intros [= <-].
  - destruct (int_truediv N K) as [e|f]; [discriminate|]. cbn [bind].
    destruct (int_of_float f) as [e|z]; [discriminate|]. cbn [bind].
    destruct (float_of_int z) as [e|v]; [discriminate|]. cbn [bind].
    intros H. apply IH in H. by rewrite length_insert in H.
Qed.

Lemma remainder_loop_length (n : nat) :
  forall i array, length (remainder_loop n i array) = length array.
Proof.
  induction n as [|n IH]; intros i array; cbn [remainder_loop]; [done|].
  by rewrite IH, length_alter.
Qed.

Lemma divide_integer_K_length (R : RandomSource) (g g' : rng R) (N K : Z)
    (shuff : bool) (parts : list Z) :
  divide_integer_K R g N K shuff = inr (g', parts) ->
  0 < K /\ length parts = Z.to_nat K.
Proof.
  unfold divide_integer_K.
  destruct ((K <? 0) || (2 ^ 60 <=? K)) eqn:E1; [discriminate|].
  apply orb_false_iff in E1 as [E1 _]. apply Z.ltb_ge in E1.
  destruct (fill_loop N K _ 0 _) as [e|array] eqn:F; [discriminate|].
  cbn [bind]. destruct (K =? 0) eqn:E2; [discriminate|].
  apply Z.eqb_neq in E2. apply fill_loop_length in F.
  rewrite length_replicate in F.
  assert (L : length (astype_int
                        <$> remainder_loop (Z.to_nat (N mod K)) 0 array)
              = Z.to_nat K)
    by by rewrite length_fmap, remainder_loop_length.
  destruct shuff.
  - intros [= Hs]. split; [lia|].
    pose proof (PyFacts.shuffle_Permutation R g
                  (astype_int <$> remainder_loop (Z.to_nat (N mod K)) 0 array))
      as P.
    rewrite <- L, <- (Permutation_length P).
    destruct (shuffle R g _) as [g1 x]. cbn in *. congruence.
  - intros [= _ <-]. split; [lia | done].
Qed.

(** Shuffling rearranges the parts of the unshuffled result. *)
Lemma divide_integer_K_shuffled (R : RandomSource) (g g' : rng R) (N K : Z)
    (parts : list Z) :
  divide_integer_K R g N K true = inr (g', parts) ->
  exists parts0, divide_integer_K R g N K false = inr (g, parts0)
                 /\ parts ≡ₚ parts0.
Proof.
  unfold divide_integer_K.
  destruct ((K <? 0) || (2 ^ 60 <=? K)); [discriminate|].
  destruct (fill_loop N K _ 0 _) as [e|array]; [discriminate|].
  cbn [bind]. destruct (K =? 0); [discriminate|].
  intros [= Hs]. eexists. split; [done|].
  pose proof (PyFacts.shuffle_Permutation R g
                (astype_int <$> remainder_loop (Z.to_nat (N mod K)) 0 array))
    as P.
  destruct (shuffle R g _) as [g1 x]. cbn in *. congruence.
Qed.

(** *** The loops on exact values *)

Lemma fill_value (N K : Z) :
  0 <= N < 2 ^ 52 -> 0 < K < 2 ^ 63 ->
  bind (int_truediv N K) (fun f =>
  bind (int_of_float f) (fun z => float_of_int z))
  = inr (canon (N / K)).
Proof.
  intros HN HK.
  assert (Ha : 0 <= N / K < 2 ^ 53).
  { split; [apply Z.div_pos; lia|].
    assert (N / K <= N) by (apply Z.div_le_upper_bound; nia).
    assert (2 ^ 52 < 2 ^ 53) by (apply Z.pow_lt_mono_r; lia). lia. }
  destruct (Z.eq_dec N 0) as [->|Hne].
  - unfold int_truediv.
    rewrite (proj2 (Z.eqb_neq K 0)) by lia.
    rewrite (proj2 (Z.ltb_ge K 0)) by lia. cbn.
    by rewrite Z.div_0_l by lia.
  - destruct (int_truediv_floor N K ltac:(lia) HK) as (f & -> & Hf).
    cbn [bind]. rewrite Hf. cbn [bind]. by apply float_of_int_canon.
Qed.

Lemma fill_loop_lookup (N K : Z) (v : spec_float) :
  bind (int_truediv N K) (fun f =>
  bind (int_of_float f) (fun z => float_of_int z)) = inr v ->
  forall n i array,
    exists array',
      fill_loop N K n i array = inr array'
      /\ length array' = length array
      /\ forall j,
          array' !! j
          = if decide (i <= j < i + n /\ j < length array)%nat
            then Some v else array !! j.
Proof.
  intros Hv.
  assert (Hstep : forall n i array,
            fill_loop N K (S n) i array = fill_loop N K n (S i) (<[i:=v]> array)).
  { intros n i array. cbn [fill_loop].
    destruct (int_truediv N K) as [e|f]; [discriminate|]. cbn [bind] in *.
    destruct (int_of_float f) as [e|z]; [discriminate|]. cbn [bind] in *.
    by rewrite Hv. }
  induction n as [|n IH]; intros i array.
  - exists array. repeat split. intros j.
    rewrite decide_False by lia. done.
  - rewrite Hstep. destruct (IH (S i) (<[i:=v]> array)) as (array' & -> & Hl & Hj).
    exists array'. rewrite length_insert in Hl. repeat split; [done|].
    intros j. rewrite Hj, length_insert.
    destruct (decide (S i <= j < S i + n /\ j < length array)%nat) as [H1|H1].
    + rewrite decide_True by lia. done.
    + destruct (decide (j = i)) as [->|Hne].
      * destruct (decide (i < length array)%nat).
        -- rewrite list_lookup_insert_eq by done.
           rewrite decide_True by lia. done.
        -- rewrite list_insert_ge by lia. rewrite decide_False by lia. done.
      * rewrite list_lookup_insert_ne by done.
        rewrite decide_False by lia. done.
Qed.

Lemma remainder_loop_lookup (n : nat) :
  forall i array j,
    remainder_loop n i array !! j
    = if decide (i <= j < i + n)%nat
      then (fun v => SFadd prec emax v float_one) <$> array !! j
      else array !! j.
Proof.
  induction n as [|n IH]; intros i array j; cbn [remainder_loop].
  - rewrite decide_False by lia. done.
  - rewrite IH.
    destruct (decide (S i <= j < S i + n)%nat) as [H1|H1].
    + rewrite decide_True by lia.
      rewrite list_lookup_alter_ne by lia. done.
    + destruct (decide (j = i)) as [->|Hne].
      * rewrite decide_True by lia. by rewrite list_lookup_alter_eq.
      * rewrite decide_False by lia.
        rewrite list_lookup_alter_ne by done. done.
Qed.

(** For [N] below [2^52] the binary64 quotient is harmless: the code
    returns the exact partition. *)
Lemma divide_integer_K_exact_below_2_52 (R : RandomSource) (g : rng R)
    (N K : Z) :
  0 <= N < 2 ^ 52 -> 0 < K < 2 ^ 60 ->
  divide_integer_K R g N K false = inr (g, exact_parts N K).
Proof.
  intros HN HK60. unfold divide_integer_K.
  rewrite (proj2 (Z.ltb_ge K 0)), (proj2 (Z.leb_gt (2 ^ 60) K)) by lia.
  cbn [orb].
  assert (HK : 0 < K < 2 ^ 63).
  { assert (2 ^ 60 < 2 ^ 63) by reflexivity. lia. }
  set (a := N / K). set (r := N mod K).
  destruct (fill_loop_lookup N K (canon a) (fill_value N K HN HK)
              (Z.to_nat K) 0%nat (replicate (Z.to_nat K) (S754_zero false)))
    as (filled & -> & Hl & Hj).
  cbn [bind]. rewrite (proj2 (Z.eqb_neq K 0)) by lia.
  unfold ret. do 2 f_equal.
  rewrite length_replicate in Hl, Hj.
  pose proof (Z.mod_pos_bound N K ltac:(lia)) as Hr. fold r in Hr.
  assert (Ha : 0 <= a /\ a + 1 < 2 ^ 53).
  { subst a. split; [apply Z.div_pos; lia|].
    assert (N / K <= N) by (apply Z.div_le_upper_bound; nia).
    assert (2 * 2 ^ 52 = 2 ^ 53) by (symmetry; apply (pow2_step 53); lia).
    lia. }
  apply list_eq. intros j. unfold exact_parts. fold a r.
  rewrite !list_lookup_fmap, remainder_loop_lookup.
  destruct (decide (j < Z.to_nat K)%nat) as [Hlt|Hge].
  - assert (Hf : filled !! j = Some (canon a))
      by (rewrite Hj, decide_True by lia; done).
    rewrite Hf, lookup_seq_lt by done. cbn.
    destruct (Z.of_nat j <? r) eqn:E.
    + apply Z.ltb_lt in E. rewrite decide_True by lia. cbn.
      rewrite add_one_canon by lia. rewrite astype_int_canon by lia. done.
    + apply Z.ltb_ge in E. rewrite decide_False by lia. cbn.
      rewrite astype_int_canon by lia. done.
  - assert (Hf : filled !! j = None).
    { rewrite Hj, decide_False by lia. apply lookup_replicate_None. lia. }
    rewrite Hf, lookup_seq_ge by lia.
    by destruct (decide (0 <= j < 0 + Z.to_nat r)%nat).
Qed.

(** C3: [int(N / K)] goes through a binary64 quotient.  For
    [N = 2^53 + 1] and [K = 1] the quotient is rounded to [2^53], so the
    single part returned is [N - 1]: the parts do not sum to [N]. *)
Theorem divide_integer_K_inexact (R : RandomSource) (g : rng R) :
  let N := 9007199254740993 in
  divide_integer_K R g N 1 false = inr (g, [9007199254740992])
  /\ exact_parts N 1 = [N]
  /\ forall parts, divide_integer_K R g N 1 false = inr (g, parts) ->
                   sum_list parts <> N.
Proof.
  intros N.
  assert (E : divide_integer_K R g N 1 false = inr (g, [9007199254740992]))
    by (vm_compute; reflexivity).
  split; [exact E|]. split; [vm_compute; reflexivity|].
  intros parts H. rewrite E in H. inversion H; subst. vm_compute. discriminate.
Qed.

(** With three parts the rounded quotient exceeds the floor and the sum
    overshoots. *)
Example divide_integer_K_overshoot (R : RandomSource) (g : rng R) :
  divide_integer_K R g 13510798882111490 3 false
  = inr (g, [4503599627370498; 4503599627370498; 4503599627370497])
  /\ 13510798882111490 / 3 = 4503599627370496.
Proof. split; vm_compute; reflexivity. Qed.

End DivideSpec.

(** ** Properties of [get_files_and_labels] *)

Module LabelIndexSpec.
Import Py Utils PyFacts.

(** Distinct keys carry distinct dense labels. *)
Definition dict_injective (d : list (Z * Z * Z)) : Prop :=
  forall k1 k2 v, dict_get k1 d = Some v -> dict_get k2 d = Some v -> k1 = k2.

(** The labels [n], [n + 1], ... handed out to [len] new keys. *)
Definition labels_from (n : Z) (len : nat) : list Z :=
  (fun i => n + Z.of_nat i) <$> seq 0 len.

Section Lines.
Context (base_file_path : string) (dset_idx : Z) (flag_unknown_label : bool).

Local Abbreviation step := (index_line base_file_path dset_idx flag_unknown_label).

(** One line leaves the dictionary alone or appends one key that
    receives [next_label_to_use]. *)
Lemma index_line_dict (st : index_state) (line : string) :
  (label_dict (step st line) = label_dict st
   /\ next_label_to_use (step st line) = next_label_to_use st)
  \/ (exists key,
        dict_get key (label_dict st) = None
        /\ label_dict (step st line)
           = label_dict st ++ [(key, next_label_to_use st)]
        /\ next_label_to_use (step st line) = next_label_to_use st + 1).
Proof.
  unfold index_line.
  destruct (Nat.ltb 2 (length (split (strip line)))); [by left|].
  destruct (split (strip line)) as [|f [|l [|? ?]]]; try by left.
  destruct (int_of_str l) as [e|n]; [by left|].
  destruct (dict_mem (dset_idx, n) (label_dict st)) eqn:M; simpl.
  - left. by destruct (dict_get (dset_idx, n) (label_dict st)).
  - destruct flag_unknown_label; simpl; [by left|].
    right. exists (dset_idx, n). apply dict_mem_false in M.
    rewrite dict_get_set_eq. simpl. by rewrite dict_set_fresh.
Qed.

Lemma fold_index_line_dict (lines : list string) :
  forall st,
    let st' := fold_left step lines st in
    exists new,
      label_dict st' = label_dict st ++ new
      /\ new.*2 = labels_from (next_label_to_use st) (length new)
      /\ next_label_to_use st'
         = next_label_to_use st + Z.of_nat (length new)
      /\ NoDup new.*1
      /\ forall k, k ∈ new.*1 -> dict_get k (label_dict st) = None.
Proof.
  induction lines as [|line rest IH]; intros st; simpl.
  - exists []. rewrite app_nil_r. repeat split; simpl; try lia.
    + constructor.
    + intros k Hk. by apply elem_of_nil in Hk.
  - destruct (IH (step st line)) as (new & Hd & Hv & Hn & Hnd & Hfresh).
    destruct (index_line_dict st line) as [[Ed En]|(key & Hkey & Ed & En)].
    + exists new. rewrite Hd, Hn, Ed, En. rewrite Hv, En.
      repeat split; try done. intros k Hk. rewrite <- Ed. by apply Hfresh.
    + exists ((key, next_label_to_use st) :: new).
      rewrite Hd, Hn, Ed, En, <- app_assoc.
      assert (Hold : forall k, k ∈ new.*1 ->
                dict_get k (label_dict st) = None /\ k <> key).
      { intros k Hk. specialize (Hfresh k Hk).
        rewrite Ed, dict_get_app in Hfresh.
        destruct (dict_get k (label_dict st)); [done|]. split; [done|].
        intros ->. cbn in Hfresh. by rewrite decide_True in Hfresh. }
      repeat split.
      * rewrite fmap_cons, Hv, En. unfold labels_from. simpl.
        f_equal; [lia|]. rewrite <- fmap_S_seq, <- list_fmap_compose.
        apply list_fmap_ext. intros _ i _. simpl. lia.
      * simpl. lia.
      * rewrite fmap_cons. constructor; [|done].
        intros Hk. by destruct (Hold key Hk).
      * intros k Hk. rewrite fmap_cons in Hk.
        apply elem_of_cons in Hk as [->|Hk]; [done|]. by apply Hold.
Qed.
End Lines.

(** A line whose label is [10 ^ e]. *)
Definition pow_line (e : nat) : string :=
  String "f"%char (String " "%char (pow_token e)).

(** An exponent from which on no power of ten is a raw label of the
    dictionary. *)
Definition fresh_from (d : list (Z * Z * Z)) : nat :=
  foldr (fun kv acc => Nat.max (S (Z.to_nat (snd (fst kv)))) acc) O d.

Lemma fresh_from_spec (d : list (Z * Z * Z)) (a : Z) (e : nat) :
  (fresh_from d <= e)%nat -> dict_get (a, 10 ^ Z.of_nat e) d = None.
Proof.
  intros He. apply dict_get_None. unfold dict_keys.
  induction d as [|[[x b] v] d IH]; simpl in *.
  - apply not_elem_of_nil.
  - apply not_elem_of_cons. split.
    + intros [= -> Hb].
      assert (Z.of_nat e < 10 ^ Z.of_nat e) by (apply Z.pow_gt_lin_r; lia).
      lia.
    + apply IH. lia.
Qed.

Lemma pow_key_inj (a : Z) (i j : nat) :
  (a, 10 ^ Z.of_nat i) = (a, 10 ^ Z.of_nat j) -> i = j.
Proof.
  intros [= H]. apply Z.pow_inj_r in H; lia.
Qed.

(** Reading [m] lines with fresh labels appends [m] keys. *)
Lemma fold_pow_lines (base_file_path : string) (dset_idx : Z) (m : nat) :
  forall (a : nat) (st : index_state),
    (forall e, (a <= e)%nat ->
               dict_get (dset_idx, 10 ^ Z.of_nat e) (label_dict st) = None) ->
    label_dict (fold_left (index_line base_file_path dset_idx false)
                          (pow_line <$> seq a m) st)
    = label_dict st
      ++ ((fun i => ((dset_idx, 10 ^ Z.of_nat (a + i)),
                     next_label_to_use st + Z.of_nat i)) <$> seq 0 m).
Proof.
  induction m as [|m IH]; intros a st Hfresh.
  - simpl. by rewrite app_nil_r.
  - cbn [seq fmap list_fmap fold_left].
    set (st1 := index_line base_file_path dset_idx false st (pow_line a)).
    assert (E1 : label_dict st1
                 = label_dict st
                   ++ [((dset_idx, 10 ^ Z.of_nat a), next_label_to_use st)]
                 /\ next_label_to_use st1 = next_label_to_use st + 1).
    { subst st1. unfold index_line, pow_line.
      rewrite fields_pow_line. cbn [length Nat.ltb Nat.leb].
      rewrite int_of_str_pow_token.
      pose proof (Hfresh a (le_n a)) as Ha.
      apply dict_mem_false in Ha as Hm. rewrite Hm. cbn [negb andb].
      cbn [label_dict next_label_to_use]. rewrite dict_get_set_eq.
      cbn [label_dict next_label_to_use].
      by rewrite (dict_set_fresh _ _ _ Ha). }
    destruct E1 as [Ed En].
    rewrite (IH (S a) st1).
    + rewrite Ed, En, <- app_assoc. f_equal. cbn [app]. f_equal.
      * rewrite Nat.add_0_r. f_equal. cbn. lia.
      * rewrite <- fmap_S_seq, <- list_fmap_compose.
        apply list_fmap_ext. intros _ i _. cbn.
        replace (S (a + i)) with (a + S i)%nat by lia. f_equal. lia.
    + intros e He. rewrite Ed, dict_get_app, (Hfresh e) by lia.
      cbn. rewrite decide_False; [done|].
      intros H. apply pow_key_inj in H. lia.
Qed.

Lemma labels_from_lookup (n : Z) (len i : nat) (v : Z) :
  labels_from n len !! i = Some v -> v = n + Z.of_nat i.
Proof.
  unfold labels_from. rewrite list_lookup_fmap.
  destruct (seq 0 len !! i) as [j|] eqn:E; [|discriminate].
  apply lookup_seq in E as [-> _]. cbn. by intros [= <-].
Qed.

(** Appending fresh keys with labels above every old label keeps an
    injective dictionary injective. *)
Lemma appended_injective (d new : list (Z * Z * Z)) (v_last : Z) :
  dict_injective d ->
  (forall k v, dict_get k d = Some v -> v <= v_last) ->
  new.*2 = labels_from (v_last + 1) (length new) ->
  dict_injective (d ++ new).
Proof.
  intros Hinj Hmax Hvals.
  assert (Hnew : forall k v, dict_get k new = Some v ->
            exists i, new !! i = Some (k, v) /\ v = v_last + 1 + Z.of_nat i).
  { intros k v Hk. apply dict_get_Some_elem, list_elem_of_lookup in Hk as [i Hi].
    exists i. split; [done|]. apply (labels_from_lookup _ (length new)).
    by rewrite <- Hvals, list_lookup_fmap, Hi. }
  intros k1 k2 v. rewrite !dict_get_app.
  destruct (dict_get k1 d) as [v1|] eqn:E1;
    destruct (dict_get k2 d) as [v2|] eqn:E2.
  - intros [= ->] [= ->]. by apply (Hinj k1 k2 v).
  - intros [= ->] H2. apply Hnew in H2 as (i & _ & Hv).
    specialize (Hmax _ _ E1). lia.
  - intros H1 [= ->]. apply Hnew in H1 as (i & _ & Hv).
    specialize (Hmax _ _ E2). lia.
  - intros H1 H2. apply Hnew in H1 as (i & Hi & Hvi).
    apply Hnew in H2 as (j & Hj & Hvj).
    assert (i = j) by lia. subst j. congruence.
Qed.

Lemma last_default (vs : list Z) (v : Z) :
  List.last vs v = default v (last vs).
Proof.
  induction vs as [|w vs IH]; [done|].
  destruct vs as [|u vs]; [done|].
  rewrite last_cons_cons, <- IH. done.
Qed.

(** C10, amended: with a non-empty dictionary whose most recently inserted
    value is [v_last], the keys added by a call are appended after the old
    entries and receive [v_last + 1], [v_last + 2], ... in order (so the
    first new label is [v_last + 1], whatever the maximum or the size of
    the dictionary); the updated dictionary maps distinct keys to distinct
    labels for every index file only if no value of the input dictionary
    exceeds [v_last]; and conversely, when no value exceeds [v_last], an
    injective dictionary stays injective whatever the index file. *)
Theorem next_label_from_last_value
    (label_dict0 : list (Z * Z * Z)) (v_last : Z)
    (base_file_path : string) (files0 : list string) (labels0 : list Z)
    (dset_idx : Z) :
  last (dict_values label_dict0) = Some v_last ->
  (forall lines flag_unknown_label,
      exists new,
        (get_files_and_labels lines base_file_path files0 labels0
                              label_dict0 dset_idx flag_unknown_label).2
        = label_dict0 ++ new
        /\ new.*2 = labels_from (v_last + 1) (length new))
  /\ ((forall lines,
          dict_injective
            (get_files_and_labels lines base_file_path files0 labels0
                                  label_dict0 dset_idx false).2) ->
      forall k v, dict_get k label_dict0 = Some v -> v <= v_last)
  /\ (dict_injective label_dict0 ->
      (forall k v, dict_get k label_dict0 = Some v -> v <= v_last) ->
      forall lines flag_unknown_label,
        dict_injective
          (get_files_and_labels lines base_file_path files0 labels0
                                label_dict0 dset_idx flag_unknown_label).2).
Proof.
  intros Hlast.
  assert (Hinit : initial_label label_dict0 = v_last + 1).
  { unfold initial_label. destruct (dict_values label_dict0) as [|v vs].
    - discriminate.
    - f_equal. rewrite last_default.
      destruct vs as [|w vs]; [simpl in *; congruence|].
      rewrite last_cons_cons in Hlast. by rewrite Hlast. }
  assert (Happ : forall lines flag,
            exists new,
              (get_files_and_labels lines base_file_path files0 labels0
                                    label_dict0 dset_idx flag).2
              = label_dict0 ++ new
              /\ new.*2 = labels_from (v_last + 1) (length new)).
  { intros lines flag. unfold get_files_and_labels. cbn [snd].
    destruct (fold_index_line_dict base_file_path dset_idx flag lines
                {| files := files0; labels := labels0;
                   label_dict := label_dict0;
                   next_label_to_use := initial_label label_dict0 |})
      as (new & Hd & Hv & _).
    cbn in Hd, Hv. exists new. by rewrite <- Hinit. }
  split; [exact Happ|]. split.
  2:{ intros Hinj Hmax lines flag.
      destruct (Happ lines flag) as (new & -> & Hvals).
      by apply appended_injective with v_last. }
  - intros Hinj k v Hk.
    destruct (Z_le_gt_dec v v_last) as [|Hgt]; [done|exfalso].
    set (m := Z.to_nat (v - v_last)).
    set (a := fresh_from label_dict0).
    specialize (Hinj (pow_line <$> seq a m)).
    unfold get_files_and_labels in Hinj. cbn [snd] in Hinj.
    rewrite fold_pow_lines in Hinj
      by (intros e He; cbn; by apply fresh_from_spec).
    cbn [label_dict next_label_to_use] in Hinj. rewrite Hinit in Hinj.
    set (f := fun i : nat => (dset_idx, 10 ^ Z.of_nat (a + i))) in *.
    set (h := fun i : nat => v_last + 1 + Z.of_nat i) in *.
    assert (Hnew : dict_get (f (m - 1)%nat)
                     (label_dict0 ++ ((fun i => (f i, h i)) <$> seq 0 m))
                   = Some v).
    { rewrite dict_get_app.
      replace (dict_get (f (m - 1)%nat) label_dict0) with (@None Z)
        by (symmetry; apply fresh_from_spec; subst a; lia).
      rewrite (dict_get_tabulated f h).
      - f_equal. subst h m. cbn. lia.
      - intros x y H. apply pow_key_inj in H. lia.
      - apply elem_of_seq. subst m. lia. }
    assert (Hold : dict_get k
                     (label_dict0 ++ ((fun i => (f i, h i)) <$> seq 0 m))
                   = Some v)
      by (by rewrite dict_get_app, Hk).
    pose proof (Hinj _ _ _ Hold Hnew) as ->.
    assert (dict_get (f (m - 1)%nat) label_dict0 = None)
      by (apply fresh_from_spec; subst a; lia).
    congruence.
Qed.

(** The theorem at the dictionary [{(0,3): 5, (0,1): 2}]: new keys are
    labelled from 3. *)
Lemma next_label_from_last_value_witness :
  last (dict_values Sample.index_dict) = Some 2
  /\ exists new,
      (get_files_and_labels Sample.index_lines "base"%string [] []
                            Sample.index_dict 0 false).2
      = Sample.index_dict ++ new
      /\ new.*2 = labels_from 3 (length new).
Proof.
  split; [reflexivity|].
  exact (proj1 (next_label_from_last_value Sample.index_dict 2 "base"%string
                  [] [] 0 eq_refl) Sample.index_lines false).
Defined.

(** C10, counterexample: the most recently inserted value, 2, is not the
    largest value, 5, of the input dictionary; a call that adds the single
    key [(0, 7)] labels it 3 and the updated dictionary still maps
    distinct keys to distinct labels. *)
Lemma injective_without_maximal_last :
  last (dict_values Sample.index_dict) = Some 2
  /\ dict_get (0, 3) Sample.index_dict = Some 5
  /\ (get_files_and_labels ["a.png 7"%string] "base"%string [] []
                           Sample.index_dict 0 false).2
     = [((0, 3), 5); ((0, 1), 2); ((0, 7), 3)]
  /\ dict_injective
       (get_files_and_labels ["a.png 7"%string] "base"%string [] []
                             Sample.index_dict 0 false).2.
Proof.
  do 3 (split; [reflexivity|]).
  change (dict_injective [((0, 3), 5); ((0, 1), 2); ((0, 7), 3)]).
  intros k1 k2 v. cbn [dict_get].
  repeat case_decide; intros Hk1 Hk2; simplify_eq; done.
Qed.

(** With three new keys the third receives 5, the label of the key
    [(0, 3)]. *)
Example get_files_and_labels_collision :
  get_files_and_labels Sample.index_lines "base"%string [] []
                       Sample.index_dict 0 false
  = (["base/a.png"; "base/b.png"; "base/c.png"]%string,
     [3; 4; 5],
     [((0, 3), 5); ((0, 1), 2); ((0, 7), 3); ((0, 8), 4); ((0, 9), 5)]).
Proof. reflexivity. Qed.

End LabelIndexSpec.

(** ** Item access *)

Module ItemAccessSpec.
Import Py Loader.

Section Instance.
Context {W : World} (self : CollectionDataset W).

Definition index_in_bound (index : Z) : Prop :=
  0 <= index <= Z.of_nat (length (images self)).

Lemma bound_check (index : Z) :
  (0 <=? index) && (index <=? Z.of_nat (length (images self))) = true
  <-> index_in_bound index.
Proof. unfold index_in_bound. rewrite andb_true_iff. lia. Qed.

Lemma lookup_past_end :
  images self !! Z.to_nat (Z.of_nat (length (images self))) = None.
Proof. rewrite Nat2Z.id. by apply lookup_ge_None. Qed.

Lemma path_assertion (index : Z) :
  original_image_path_for_index self index = inl AssertionError
  <-> ~ index_in_bound index.
Proof.
  unfold original_image_path_for_index.
  destruct ((0 <=? index) && (index <=? Z.of_nat (length (images self))))
    eqn:B.
  - apply bound_check in B.
    destruct (images self !! Z.to_nat index); split; (done || discriminate).
  - split; [|done]. intros _ H. apply bound_check in H. congruence.
Qed.

Lemma getitem_assertion (index : Z) :
  initialized_correctly self = true ->
  (getitem self index = inl AssertionError <-> ~ index_in_bound index).
Proof.
  intros Hinit. unfold getitem. rewrite Hinit. cbn [negb].
  destruct ((0 <=? index) && (index <=? Z.of_nat (length (images self))))
    eqn:B; cbn [negb].
  - apply bound_check in B as B'. split; [|done]. intros H. exfalso.
    destruct (bool_decide (input_type self = "features"%string)).
    + destruct (images self !! Z.to_nat index); discriminate.
    + unfold original_image_path_for_index in H. rewrite B in H.
      destruct (images self !! Z.to_nat index); [|discriminate].
      cbn in H. destruct (image_open W _); [|discriminate].
      destruct (pipeline self); [|discriminate].
      destruct (images self !! Z.to_nat index); discriminate.
  - split; [|done]. intros _ H. apply bound_check in H. congruence.
Qed.
End Instance.

(** C6: on a properly initialized instance, item access and path
    resolution fail their assertion exactly on the indices outside
    [0 <= index <= len(self.images)]; the index one past the last item
    passes the check and the access [self.images[index]] behind it then
    raises [IndexError]. *)
Theorem index_bound_is_inclusive {W : World} (self : CollectionDataset W)
    (index : Z) :
  initialized_correctly self = true ->
  (getitem self index = inl AssertionError
   <-> ~ (0 <= index <= Z.of_nat (length (images self))))
  /\ (original_image_path_for_index self index = inl AssertionError
      <-> ~ (0 <= index <= Z.of_nat (length (images self))))
  /\ getitem self (Z.of_nat (length (images self))) = inl IndexError
  /\ original_image_path_for_index self (Z.of_nat (length (images self)))
     = inl IndexError.
Proof.
  intros Hinit. split; [by apply getitem_assertion|].
  split; [apply path_assertion|].
  assert (B : (0 <=? Z.of_nat (length (images self)))
              && (Z.of_nat (length (images self))
                  <=? Z.of_nat (length (images self))) = true)
    by (apply bound_check; unfold index_in_bound; lia).
  assert (P : original_image_path_for_index self
                (Z.of_nat (length (images self))) = inl IndexError).
  { unfold original_image_path_for_index.
    by rewrite B, lookup_past_end. }
  split; [|exact P].
  unfold getitem. rewrite Hinit, B. cbn [negb].
  destruct (bool_decide (input_type self = "features"%string)).
  - by rewrite lookup_past_end.
  - by rewrite P.
Qed.

(** C5: in [original] mode without a pipeline the local [image_tensor] is
    never bound, so item access returns nothing: at every index it raises,
    and at an index whose image file opens it raises [UnboundLocalError]
    where the raw converted image was to be returned. *)
Theorem getitem_without_pipeline {W : World} (self : CollectionDataset W)
    (index : Z) :
  initialized_correctly self = true ->
  input_type self = "original"%string ->
  pipeline self = None ->
  raises (getitem self index)
  /\ (forall im image,
        0 <= index ->
        images self !! Z.to_nat index = Some im ->
        image_open W (root_path self +:+ dataset_name self +:+ "/"%string
                      +:+ relative_path im) = Some image ->
        getitem self index = inl UnboundLocalError).
Proof.
  intros Hinit Hmode Hpipe. unfold getitem.
  rewrite Hinit, Hmode, Hpipe. cbn [negb].
  rewrite bool_decide_eq_false_2 by discriminate.
  split.
  - destruct ((0 <=? index) && (index <=? Z.of_nat (length (images self))));
      cbn [negb]; [|done].
    destruct (original_image_path_for_index self index) as [e|p]; [done|].
    cbn. by destruct (image_open W p).
  - intros im image Hpos Him Hopen.
    assert (B : (0 <=? index) && (index <=? Z.of_nat (length (images self)))
                = true).
    { apply bound_check. unfold index_in_bound.
      apply lookup_lt_Some in Him. lia. }
    unfold original_image_path_for_index.
    rewrite B, Him. cbn. by rewrite Hopen.
Qed.

(** On the sample instance of five items: index 5 passes the check and
    raises [IndexError], index 6 fails the assertion. *)
Lemma index_bound_is_inclusive_witness :
  initialized_correctly Sample.birds_train.2 = true
  /\ getitem Sample.birds_train.2 5 = inl IndexError
  /\ getitem Sample.birds_train.2 6 = inl AssertionError
  /\ original_image_path_for_index Sample.birds_train.2 6
     = inl AssertionError.
Proof.
  split; [reflexivity|].
  pose proof (index_bound_is_inclusive Sample.birds_train.2 6 eq_refl)
    as (H1 & H2 & H3 & _).
  split; [exact H3|].
  split; [apply H1 | apply H2]; cbn; lia.
Defined.

(** The sample instance serves original images without a pipeline: item 0
    exists, its file opens, and access raises [UnboundLocalError]. *)
Lemma getitem_without_pipeline_witness :
  initialized_correctly Sample.birds_train.2 = true
  /\ input_type Sample.birds_train.2 = "original"%string
  /\ pipeline Sample.birds_train.2 = None
  /\ getitem Sample.birds_train.2 0 = inl UnboundLocalError.
Proof.
  do 3 (split; [reflexivity|]).
  refine (proj2 (getitem_without_pipeline Sample.birds_train.2 0
                   eq_refl eq_refl eq_refl) _ _ _ eq_refl eq_refl).
  lia.
Defined.

End ItemAccessSpec.

(** ** Verification and loading of feature vectors *)

Module FeatureVectorSpec.
Import Py Loader.

(** The store of a (backbone, task) pair: what opens from
    [<vectors root>/<backbone>/<task>.h5], if there is a backbone and the
    path opens as a store. *)
Definition store_of {W : World} (self : CollectionDataset W)
  : option (gmap string Tensor) :=
  vt ← vector_type self;
  h5_file W (VECTORS_ROOT_PATH +:+ vt +:+ "/"%string +:+ dataset_name self
             +:+ ".h5"%string).

(** The hashes the items need. *)
Definition required_hashes {W : World} (self : CollectionDataset W)
  : gset string :=
  list_to_set (file_hash <$> images self).

(** [im'] is [im] with the stored array of its hash as feature vector. *)
Definition loaded_from (file_h : gmap string Tensor)
    (im im' : CollectionImage) : Prop :=
  exists t, file_h !! file_hash im = Some t /\ im' = set_feature_vector im t.

Lemma load_feature_vectors_ok (file_h : gmap string Tensor)
    (imgs : list CollectionImage) :
  (forall im, im ∈ imgs -> file_hash im ∈ dom file_h) ->
  exists imgs', load_feature_vectors file_h imgs = inr imgs'
                /\ Forall2 (loaded_from file_h) imgs imgs'.
Proof.
  induction imgs as [|im rest IH]; intros Hall; simpl.
  - exists []. split; [done | constructor].
  - assert (Him : file_hash im ∈ dom file_h)
      by (apply Hall, elem_of_cons; by left).
    apply elem_of_dom in Him as [t Ht]. rewrite Ht.
    destruct IH as (rest' & -> & Hrest).
    { intros x Hx. apply Hall, elem_of_cons. by right. }
    exists (set_feature_vector im t :: rest'). split; [done|].
    constructor; [by exists t | done].
Qed.

Lemma missing_list_empty (X : gset string) :
  Nat.ltb 0 (length (elements X)) = false <-> X = ∅.
Proof.
  rewrite Nat.ltb_ge. split.
  - intros H. apply leibniz_equiv, elements_empty_inv.
    destruct (elements X); [done | simpl in H; lia].
  - intros ->. rewrite elements_empty. simpl. lia.
Qed.

(** [b] is [a] with other items. *)
Definition same_attributes {W : World} (a b : CollectionDataset W) : Prop :=
  root_path a = root_path b
  /\ dataset_name a = dataset_name b
  /\ set_type a = set_type b
  /\ input_type a = input_type b
  /\ vector_type a = vector_type b
  /\ pipeline a = pipeline b
  /\ dict a = dict b
  /\ label_dict a = label_dict b
  /\ sample_class_num a = sample_class_num b
  /\ sample_train_size a = sample_train_size b
  /\ sample_test_size a = sample_test_size b
  /\ num_classes a = num_classes b
  /\ initialized_correctly a = initialized_correctly b.

(** [im'] is [im] with the feature vector [t]. *)
Definition item_with_vector (im : CollectionImage) (t : Tensor)
    (im' : CollectionImage) : Prop :=
  relative_path im' = relative_path im
  /\ class_id im' = class_id im
  /\ set_id im' = set_id im
  /\ problem im' = problem im
  /\ file_hash im' = file_hash im
  /\ feature_vector im' = t.

(** The file of the store of the instance, when it has a backbone. *)
Definition store_file {W : World} (self : CollectionDataset W)
  : option string :=
  vt ← vector_type self;
  Some (VECTORS_ROOT_PATH +:+ vt +:+ "/"%string +:+ dataset_name self
        +:+ ".h5"%string).

Lemma store_of_file {W : World} (self : CollectionDataset W)
    (file_h : gmap string Tensor) :
  store_of self = Some file_h ->
  exists f, store_file self = Some f
            /\ isfile W f = true /\ h5_file W f = Some file_h.
Proof.
  unfold store_of, store_file.
  destruct (vector_type self) as [vt|]; cbn [mbind option_bind]; [|done].
  intros H. eexists. split; [done|]. split; [|done].
  by apply (h5_file_is_file W _ file_h).
Qed.

(** C7: if the store is absent (no backbone, or no file for the pair of
    backbone and task), verification returns failure and leaves the
    instance as it is; if the file is there and no store opens from it,
    [OSError] is raised; if the store opens and lacks a required hash,
    verification returns failure, leaves the instance as it is and
    reports a duplicate-free list holding exactly the required hashes
    that are not keys of the store; if the store has every required hash,
    verification returns success, and unless loading is skipped the
    instance afterwards has as many items as before, the item at each
    position being the former one with the array stored under its hash
    as feature vector, and every other attribute as before. *)
Theorem feature_vector_verification {W : World} (self : CollectionDataset W)
    (skip_load : bool) :
  ((forall f, store_file self = Some f -> isfile W f = false) ->
   exists log, verify_feature_vectors_exist_and_load self skip_load
               = inr (false, self, log))
  /\ (forall f,
        store_file self = Some f -> isfile W f = true ->
        h5_file W f = None ->
        verify_feature_vectors_exist_and_load self skip_load = inl OSError)
  /\ (forall file_h,
        store_of self = Some file_h ->
        required_hashes self ⊈ dom file_h ->
        exists missing_list,
          verify_feature_vectors_exist_and_load self skip_load
          = inr (false, self, [MissingFeatureVectors missing_list])
          /\ NoDup missing_list
          /\ forall h, h ∈ missing_list
                       <-> h ∈ required_hashes self /\ h ∉ dom file_h)
  /\ (forall file_h,
        store_of self = Some file_h ->
        required_hashes self ⊆ dom file_h ->
        if skip_load
        then verify_feature_vectors_exist_and_load self true
             = inr (true, self, [])
        else exists self',
            verify_feature_vectors_exist_and_load self false
            = inr (true, self', [])
            /\ same_attributes self' self
            /\ length (images self') = length (images self)
            /\ forall i im,
                 images self !! i = Some im ->
                 exists t im',
                   file_h !! file_hash im = Some t
                   /\ images self' !! i = Some im'
                   /\ item_with_vector im t im').
Proof.
  split; [|split; [|split]].
  - unfold store_file, verify_feature_vectors_exist_and_load.
    destruct (vector_type self) as [vt|]; cbn [mbind option_bind];
      [|intros _; by eexists].
    intros H. rewrite (H _ eq_refl). cbn [negb]. by eexists.
  - unfold store_file, verify_feature_vectors_exist_and_load.
    destruct (vector_type self) as [vt|]; cbn [mbind option_bind]; [|done].
    intros f [= <-] Hf Hh. by rewrite Hf, Hh.
  - intros file_h Hst Hsub.
    destruct (store_of_file self file_h Hst) as (f & Hf & Hfile & Hh).
    unfold store_file, verify_feature_vectors_exist_and_load,
      required_hashes in *.
    destruct (vector_type self) as [vt|]; cbn [mbind option_bind] in *;
      [|done].
    injection Hf as <-. rewrite Hfile, Hh. cbn [negb].
    set (X := (list_to_set (file_hash <$> images self) : gset string)
              ∖ dom file_h).
    destruct (Nat.ltb 0 (length (elements X))) eqn:E.
    + exists (elements X). split; [done|]. split; [apply NoDup_elements|].
      intros h. rewrite elem_of_elements. subst X.
      by rewrite elem_of_difference.
    + exfalso. apply missing_list_empty in E. apply Hsub.
      intros h Hh'. destruct (decide (h ∈ dom file_h)) as [|Hn]; [done|].
      assert (HX : h ∈ X) by (subst X; by apply elem_of_difference).
      rewrite E in HX. by apply not_elem_of_empty in HX.
  - intros file_h Hst Hsub.
    destruct (store_of_file self file_h Hst) as (f & Hf & Hfile & Hh).
    unfold store_file, verify_feature_vectors_exist_and_load,
      required_hashes in *.
    destruct (vector_type self) as [vt|]; cbn [mbind option_bind] in *;
      [|done].
    injection Hf as <-. rewrite Hfile, Hh. cbn [negb].
    set (X := (list_to_set (file_hash <$> images self) : gset string)
              ∖ dom file_h).
    assert (E : Nat.ltb 0 (length (elements X)) = false).
    { apply missing_list_empty, set_eq. intros h. subst X.
      rewrite elem_of_difference. split.
      - intros [Hin Hout]. destruct Hout. by apply Hsub.
      - intros Hh'. by apply not_elem_of_empty in Hh'. }
    rewrite E. destruct skip_load; [done|].
    destruct (load_feature_vectors_ok file_h (images self))
      as (imgs & -> & Hall).
    { intros im Him. apply Hsub, elem_of_list_to_set, list_elem_of_fmap.
      by exists im. }
    cbn [bind ret]. eexists. split; [done|].
    split; [by repeat split|]. cbn [images set_images].
    split; [symmetry; by eapply Forall2_length|].
    intros i im Him.
    destruct (Forall2_lookup_l _ _ _ _ _ Hall Him) as (im' & Him' & t & Ht & ->).
    exists t, (set_feature_vector im t). by repeat split.
Qed.

(** The sample task: every hash its five items need is in the store, and
    after loading the first item carries the array stored under its
    hash. *)
Lemma feature_vector_verification_witness :
  exists file_h self',
    store_of Sample.birds_train.2 = Some file_h
    /\ required_hashes Sample.birds_train.2 ⊆ dom file_h
    /\ verify_feature_vectors_exist_and_load Sample.birds_train.2 false
       = inr (true, self', [])
    /\ feature_vector <$> images self'
       = (fun im => default [] (file_h !! file_hash im))
           <$> images Sample.birds_train.2.
Proof.
  assert (Hst : store_of Sample.birds_train.2 = Some Sample.birds_store)
    by reflexivity.
  assert (Hsub : required_hashes Sample.birds_train.2
                 ⊆ dom Sample.birds_store).
  { apply (bool_decide_eq_true_1 _). by vm_compute. }
  destruct (proj2 (proj2 (proj2
              (feature_vector_verification Sample.birds_train.2 false)))
              Sample.birds_store Hst Hsub)
    as (self' & Hv & _ & Hlen & Hitems).
  exists Sample.birds_store, self'.
  split; [exact Hst|]. split; [exact Hsub|]. split; [exact Hv|].
  apply list_eq. intros i. rewrite !list_lookup_fmap.
  destruct (images Sample.birds_train.2 !! i) as [im|] eqn:Him.
  - destruct (Hitems i im Him) as (t & im' & Ht & Him' & Hw).
    rewrite Him'. destruct Hw as (_ & _ & _ & _ & _ & Hfv).
    cbn [fmap option_fmap option_map]. rewrite Hfv. f_equal.
    symmetry. exact (f_equal (default []) Ht).
  - apply lookup_ge_None in Him. rewrite <- Hlen in Him.
    apply lookup_ge_None in Him. by rewrite Him.
Defined.

End FeatureVectorSpec.

(** ** Facts about grouping, shuffling and sampling *)

Module LoaderFacts.
Import Py Loader PyFacts.

(** The classes of a list of rows in order of first appearance. *)
Definition first_seen (classes : list Z) : list Z :=
  reverse (remove_dups (reverse classes)).

(** Everything a grouped dictionary holds, class by class. *)
Definition entries (d : list (Z * list RowData)) : list Sampled :=
  d ≫= (fun kv => sampled_of kv.1 <$> kv.2).

Definition sampled_of_row (row : QueryRow) : Sampled :=
  sampled_of (q_class_id row) (row_data row).

(** *** [take_values] *)

Lemma take_values_Inf (t : Z) (values : list RowData) :
  take_values Inf t values = values.
Proof.
  revert t. induction values as [|v vs IH]; intros t; simpl; [done|].
  by rewrite IH.
Qed.

Lemma take_values_length (q : cap) (t : Z) (values : list RowData) :
  (length (take_values q t values) <= length values)%nat.
Proof.
  revert t. induction values as [|v vs IH]; intros t; simpl; [lia|].
  destruct (ge_cap (t + 1) q); simpl; [lia|].
  specialize (IH (t + 1)). lia.
Qed.

Lemma take_values_quota (n t : Z) (values : list RowData) :
  t < n ->
  Z.of_nat (length (take_values (Fin n) t values)) <= n - t.
Proof.
  revert t. induction values as [|v vs IH]; intros t Ht; simpl; [lia|].
  destruct (n <=? t + 1) eqn:E; simpl.
  - lia.
  - apply Z.leb_gt in E. specialize (IH (t + 1) E). lia.
Qed.

(** *** [group_rows] *)

Lemma group_row_keys (d : list (Z * list RowData)) (row : QueryRow) :
  dict_keys (group_row d row)
  = if decide (q_class_id row ∈ dict_keys d) then dict_keys d
    else dict_keys d ++ [q_class_id row].
Proof.
  unfold group_row.
  destruct (dict_get (q_class_id row) d) as [l|] eqn:E.
  - rewrite decide_True by (apply dict_get_is_Some; by eexists).
    by apply dict_set_known with l.
  - rewrite decide_False by by apply dict_get_None.
    rewrite dict_set_fresh by done. unfold dict_keys. by rewrite fmap_app.
Qed.

Lemma first_seen_snoc (classes : list Z) (c : Z) :
  first_seen (classes ++ [c])
  = if decide (c ∈ first_seen classes) then first_seen classes
    else first_seen classes ++ [c].
Proof.
  unfold first_seen. rewrite reverse_snoc. cbn [remove_dups].
  destruct (decide_rel elem_of c (reverse classes)) as [Hin|Hout].
  - rewrite decide_True; [done|].
    by rewrite elem_of_reverse, elem_of_remove_dups.
  - rewrite decide_False.
    + by rewrite reverse_cons.
    + by rewrite elem_of_reverse, elem_of_remove_dups.
Qed.

Lemma group_rows_keys_from (rows : list QueryRow) :
  forall (d : list (Z * list RowData)) (seen : list QueryRow),
    dict_keys d = first_seen (q_class_id <$> seen) ->
    dict_keys (fold_left group_row rows d)
    = first_seen (q_class_id <$> (seen ++ rows)).
Proof.
  induction rows as [|row rows IH]; intros d seen Hd; simpl.
  - by rewrite app_nil_r.
  - rewrite (IH (group_row d row) (seen ++ [row])).
    + by rewrite <- app_assoc.
    + rewrite group_row_keys, fmap_app.
      change (q_class_id <$> [row]) with [q_class_id row].
      by rewrite first_seen_snoc, Hd.
Qed.

Lemma group_rows_keys (rows : list QueryRow) :
  dict_keys (group_rows rows) = first_seen (q_class_id <$> rows).
Proof. by apply (group_rows_keys_from rows [] []). Qed.

Lemma first_seen_NoDup (classes : list Z) : NoDup (first_seen classes).
Proof.
  unfold first_seen. rewrite reverse_Permutation. apply NoDup_remove_dups.
Qed.

Lemma elem_of_first_seen (classes : list Z) (c : Z) :
  c ∈ first_seen classes <-> c ∈ classes.
Proof.
  unfold first_seen.
  by rewrite elem_of_reverse, elem_of_remove_dups, elem_of_reverse.
Qed.

Lemma entries_set_fresh (d : list (Z * list RowData)) (k : Z)
    (vs : list RowData) :
  entries (d ++ [(k, vs)]) = entries d ++ (sampled_of k <$> vs).
Proof.
  unfold entries. rewrite bind_app. cbn. by rewrite app_nil_r.
Qed.

Lemma entries_set_known (d : list (Z * list RowData)) (k : Z)
    (l : list RowData) (v : RowData) :
  dict_get k d = Some l ->
  entries (dict_set k (l ++ [v]) d) ≡ₚ entries d ++ [sampled_of k v].
Proof.
  unfold entries. induction d as [|[k' l'] d IH]; simpl; [discriminate|].
  destruct (decide (k = k')) as [->|Hne].
  - intros [= ->]. cbn. rewrite fmap_app. cbn.
    rewrite <- !app_assoc. apply Permutation_app_head, Permutation_app_comm.
  - intros H. cbn. rewrite (IH H). by rewrite app_assoc.
Qed.

Lemma group_row_entries (d : list (Z * list RowData)) (row : QueryRow) :
  entries (group_row d row) ≡ₚ entries d ++ [sampled_of_row row].
Proof.
  unfold group_row, sampled_of_row.
  destruct (dict_get (q_class_id row) d) as [l|] eqn:E.
  - by apply entries_set_known.
  - rewrite dict_set_fresh by done. by rewrite entries_set_fresh.
Qed.

Lemma group_rows_entries_from (rows : list QueryRow) :
  forall d : list (Z * list RowData),
    entries (fold_left group_row rows d)
    ≡ₚ entries d ++ (sampled_of_row <$> rows).
Proof.
  induction rows as [|row rows IH]; intros d; simpl.
  - by rewrite app_nil_r.
  - rewrite IH, group_row_entries, <- app_assoc. done.
Qed.

Lemma group_rows_entries (rows : list QueryRow) :
  entries (group_rows rows) ≡ₚ sampled_of_row <$> rows.
Proof. apply (group_rows_entries_from rows []). Qed.

End LoaderFacts.

(** ** Facts about labels, the sampling loop and the constructor *)

Module ConstructionFacts.
Import Py Loader PyFacts LoaderFacts.

(** *** The two label policies *)

Lemma elem_of_range (n : nat) (z : Z) :
  z ∈ range n <-> 0 <= z < Z.of_nat n.
Proof.
  unfold range. rewrite list_elem_of_fmap. split.
  - intros (i & -> & Hi). apply elem_of_seq in Hi. lia.
  - intros Hz. exists (Z.to_nat z). split; [lia|]. apply elem_of_seq. lia.
Qed.

Lemma range_length (n : nat) : length (range n) = n.
Proof. unfold range. by rewrite length_fmap, length_seq. Qed.

Lemma same_set_as_range (keys : list Z) (n : nat) :
  (list_to_set keys : gset Z) = list_to_set (range n)
  <-> (forall z, z ∈ keys <-> 0 <= z < Z.of_nat n).
Proof.
  rewrite set_eq. split; intros H z; specialize (H z).
  - by rewrite !elem_of_list_to_set, elem_of_range in H.
  - by rewrite !elem_of_list_to_set, elem_of_range.
Qed.

Lemma label_loop_spec (keys : list Z) :
  forall (label_use : Z) (acc : list (Z * Z)),
    NoDup keys ->
    (forall k, k ∈ keys -> k ∉ dict_keys acc) ->
    label_loop keys label_use acc
    = acc ++ zip keys ((fun i => label_use + Z.of_nat i)
                         <$> seq 0 (length keys)).
Proof.
  induction keys as [|k keys IH]; intros label_use acc Hnd Hfresh; simpl.
  - by rewrite app_nil_r.
  - inversion Hnd as [|? ? Hk Hnd']; subst.
    assert (Hget : dict_get k acc = None).
    { apply dict_get_None, Hfresh, elem_of_cons. by left. }
    rewrite (dict_set_fresh _ _ _ Hget), IH; [|done|].
    + rewrite <- app_assoc. cbn. f_equal. f_equal; [f_equal; lia|].
      f_equal. rewrite <- fmap_S_seq, <- list_fmap_compose.
      apply list_fmap_ext. intros _ i _. cbn. lia.
    + intros k' Hk'. unfold dict_keys. rewrite fmap_app.
      rewrite elem_of_app. intros [Hin|Hin].
      * apply (Hfresh k'); [apply elem_of_cons; by right | done].
      * cbn in Hin. apply list_elem_of_singleton in Hin. by subst.
Qed.

Lemma sequential_labels (keys : list Z) :
  NoDup keys -> label_loop keys 0 [] = zip keys (range (length keys)).
Proof.
  intros Hnd. rewrite label_loop_spec; [|done|].
  - cbn. unfold range. f_equal; apply list_fmap_ext; intros; lia.
  - intros k _. apply not_elem_of_nil.
Qed.

(** The keys of the label dictionary built from the grouping are the
    classes of the grouping, as a set, and as many. *)
Lemma built_label_dict_keys (d : list (Z * list RowData)) :
  NoDup (dict_keys d) ->
  let ld := build_label_dict None d in
  length (dict_keys ld) = length (dict_keys d)
  /\ forall k, k ∈ dict_keys ld <-> k ∈ dict_keys d.
Proof.
  intros Hnd. unfold build_label_dict.
  destruct (bool_decide _) eqn:E.
  - apply bool_decide_eq_true in E.
    assert (K : dict_keys ((fun i : Z => (i, i))
                             <$> range (length (dict_keys d)))
                = range (length (dict_keys d))).
    { unfold dict_keys. rewrite <- list_fmap_compose.
      rewrite <- (list_fmap_id (range _)) at 2. by apply list_fmap_ext. }
    cbn zeta. rewrite K. split; [apply range_length|].
    intros k. rewrite <- !(elem_of_list_to_set (C := gset Z)). by rewrite E.
  - rewrite sequential_labels by done. cbn zeta.
    assert (K : dict_keys (zip (dict_keys d) (range (length (dict_keys d))))
                = dict_keys d).
    { unfold dict_keys at 1. apply fst_zip. rewrite range_length. lia. }
    by rewrite K.
Qed.

(** *** The sampling loop *)

Section Loop.
Context (R : RandomSource) (ld : list (Z * Z)) (nc : Z) (scn : cap).

Lemma entries_cons (k : Z) (vs : list RowData)
    (rest : list (Z * list RowData)) :
  entries ((k, vs) :: rest) = (sampled_of k <$> vs) ++ entries rest.
Proof. done. Qed.

(** What the loop adds is bounded by what the dictionary holds, by
    the per-class quota times the classes still allowed, and it draws on
    at most that many classes. *)
Lemma random_value_loop_bounds (q : cap) (items : list (Z * list RowData)) :
  forall ccs g out g' out',
    ccs < nc ->
    random_value_loop R ld nc scn q items ccs g out = inr (g', out') ->
    exists added used,
      out' = out ++ added
      /\ (length added <= length (entries items))%nat
      /\ (forall n, q = Fin n -> 1 <= n ->
                    Z.of_nat (length added) <= (nc - ccs) * n)
      /\ Z.of_nat (length used) <= nc - ccs
      /\ Forall (fun s => s_label s ∈ used) added.
Proof.
  induction items as [|[key values] rest IH];
    intros ccs g out g' out' Hccs Hrun; cbn [random_value_loop] in Hrun.
  - inversion Hrun; subst. exists [], []. rewrite app_nil_r.
    repeat split; simpl; try lia; [|constructor]. intros; nia.
  - destruct (negb (bool_decide (key ∈ take (Z.to_nat nc) (dict_keys ld)))).
    + destruct (eq_cap nc scn); [|discriminate].
      destruct (IH _ _ _ _ _ Hccs Hrun) as (added & used & -> & Hl & Hq & Hu & Hall).
      exists added, used. repeat split; try done.
      rewrite entries_cons, length_app. lia.
    + destruct (shuffle R g values) as [g1 values'] eqn:Hs.
      pose proof (shuffle_Permutation R g values) as Hperm.
      rewrite Hs in Hperm. cbn [snd] in Hperm.
      set (this := sampled_of key <$> take_values q 0 values') in *.
      assert (Hthis : (length this <= length values)%nat).
      { subst this. rewrite length_fmap, <- (Permutation_length Hperm).
        apply take_values_length. }
      assert (Hquota : forall n, q = Fin n -> 1 <= n ->
                                 Z.of_nat (length this) <= n).
      { intros n -> Hn. subst this. rewrite length_fmap.
        pose proof (take_values_quota n 0 values'). lia. }
      assert (Hlab : Forall (fun s => s_label s ∈ key :: @nil Z) this).
      { subst this. apply Forall_fmap, Forall_forall.
        intros [[[h p] s] pr] _. cbn. apply elem_of_cons. by left. }
      destruct (nc <=? ccs + 1) eqn:Hstop.
      * inversion Hrun; subst. exists this, [key].
        rewrite entries_cons, length_app, length_fmap.
        repeat split; [lia | | simpl; lia | done].
        intros n Hq Hn. specialize (Hquota n Hq Hn). nia.
      * apply Z.leb_gt in Hstop.
        destruct (IH _ _ _ _ _ Hstop Hrun)
          as (added & used & -> & Hl & Hq & Hu & Hall).
        exists (this ++ added), (key :: used).
        rewrite entries_cons, !length_app, length_fmap.
        repeat split.
        -- by rewrite app_assoc.
        -- lia.
        -- intros n Hqn Hn. specialize (Hquota n Hqn Hn).
           specialize (Hq n Hqn Hn). nia.
        -- simpl. lia.
        -- apply Forall_app. split.
           ++ eapply Forall_impl; [exact Hlab|]. cbn. intros s Hs'.
              apply elem_of_cons. left.
              by apply list_elem_of_singleton in Hs'.
           ++ eapply Forall_impl; [exact Hall|]. cbn. intros s Hs'.
              apply elem_of_cons. by right.
Qed.

(** Without quota, and when the label dictionary lists every class
    among its first [nc] keys, the loop returns the whole dictionary,
    each class shuffled. *)
Lemma random_value_loop_full (items : list (Z * list RowData)) :
  forall ccs g out,
    (forall kv, kv ∈ items ->
                kv.1 ∈ take (Z.to_nat nc) (dict_keys ld)) ->
    nc - ccs = Z.of_nat (length items) ->
    exists g' added,
      random_value_loop R ld nc scn Inf items ccs g out
      = inr (g', out ++ added)
      /\ added ≡ₚ entries items.
Proof.
  induction items as [|[key values] rest IH]; intros ccs g out Hin Hlen;
    cbn [random_value_loop].
  - exists g, []. by rewrite app_nil_r.
  - rewrite bool_decide_eq_true_2
      by (apply (Hin (key, values)), elem_of_cons; by left).
    cbn [negb].
    destruct (shuffle R g values) as [g1 values'] eqn:Hs.
    pose proof (shuffle_Permutation R g values) as Hperm.
    rewrite Hs in Hperm. cbn [snd] in Hperm.
    rewrite take_values_Inf.
    destruct (nc <=? ccs + 1) eqn:Hstop.
    + apply Z.leb_le in Hstop. cbn [length] in Hlen.
      destruct rest; [|cbn [length] in Hlen; lia].
      exists g1, (sampled_of key <$> values'). split; [done|].
      rewrite entries_cons. unfold entries at 1. cbn.
      by rewrite app_nil_r, Hperm.
    + apply Z.leb_gt in Hstop.
      destruct (IH (ccs + 1) g1 (out ++ (sampled_of key <$> values')))
        as (g' & added & -> & Hadd).
      * intros kv Hkv. apply Hin, elem_of_cons. by right.
      * cbn [length] in Hlen. lia.
      * exists g', ((sampled_of key <$> values') ++ added).
        split; [by rewrite app_assoc|].
        by rewrite entries_cons, Hperm, Hadd.
Qed.
(** A class missing from the first [nc] keys of the label dictionary
    stops the loop with a failed assertion unless [nc] is the class cap. *)
Lemma random_value_loop_uncovered (q : cap) (items : list (Z * list RowData)) :
  forall ccs g out,
    eq_cap nc scn = false ->
    (exists kv, kv ∈ items
                /\ kv.1 ∉ take (Z.to_nat nc) (dict_keys ld)) ->
    Z.of_nat (length items) <= nc - ccs ->
    random_value_loop R ld nc scn q items ccs g out = inl AssertionError.
Proof.
  induction items as [|[key values] rest IH]; intros ccs g out Hcap Hex Hlen;
    cbn [random_value_loop].
  - destruct Hex as (kv & Hkv & _). by apply elem_of_nil in Hkv.
  - destruct (decide (key ∈ take (Z.to_nat nc) (dict_keys ld))) as [Hin|Hout].
    + rewrite bool_decide_eq_true_2 by done. cbn [negb].
      destruct (shuffle R g values) as [g1 values'].
      assert (Hrest : exists kv, kv ∈ rest
                        /\ kv.1 ∉ take (Z.to_nat nc) (dict_keys ld)).
      { destruct Hex as (kv & Hkv & Hn). exists kv. split; [|done].
        apply elem_of_cons in Hkv as [->|Hkv]; [done | done]. }
      cbn [length] in Hlen.
      assert (Hpos : (1 <= length rest)%nat).
      { destruct Hrest as (kv & Hkv & _).
        destruct rest; [by apply elem_of_nil in Hkv | simpl; lia]. }
      destruct (nc <=? ccs + 1) eqn:Hstop.
      * apply Z.leb_le in Hstop. lia.
      * apply IH; [done | done | lia].
    + rewrite bool_decide_eq_false_2 by done. cbn [negb].
      by rewrite Hcap.
Qed.
End Loop.

End ConstructionFacts.

(** ** Facts about the constructor *)

Module InitFacts.
Import Py Loader PyFacts LoaderFacts ConstructionFacts.

Section InitEngine.
Context {sqlite : Sqlite}.

(** The rows the constructor's query returns: what the engine answers to
    its text over the catalog (no row when the engine raises). *)
Definition query_rows (W : World) (cfg : Config W) : list QueryRow :=
  match list_index (cfg_set_type cfg) SET_TYPES with
  | Some set_type_int =>
      match select_rows (catalog W) (cfg_dataset_name cfg) set_type_int
                        (cfg_verify_all_sets_all_types cfg) with
      | inr rows => rows
      | inl _ => []
      end
  | None => []
  end.



(** An item without its feature vector. *)
Definition forget_vector (im : CollectionImage) : CollectionImage :=
  set_feature_vector im [].

(** The item made from a sampled entry and its dense label. *)
Definition image_of (s : Sampled) (l : Z) : CollectionImage :=
  {| relative_path := s_path s;
     class_id := l;
     set_id := s_set_id s;
     problem := s_problem_id s;
     file_hash := s_hash s;
     feature_vector := [] |}.

(** Two instances that differ at most in the feature vectors of their
    items and in the flag [initialized_correctly]. *)
Definition same_items {W} (a b : CollectionDataset W) : Prop :=
  forget_vector <$> images a = forget_vector <$> images b
  /\ label_dict a = label_dict b
  /\ dict a = dict b
  /\ num_classes a = num_classes b
  /\ set_type a = set_type b
  /\ input_type a = input_type b
  /\ pipeline a = pipeline b.

Lemma same_items_refl {W} (a : CollectionDataset W) : same_items a a.
Proof. by repeat split. Qed.

Lemma load_feature_vectors_forget (file_h : gmap string Tensor)
    (imgs imgs' : list CollectionImage) :
  load_feature_vectors file_h imgs = inr imgs' ->
  forget_vector <$> imgs' = forget_vector <$> imgs.
Proof.
  revert imgs'. induction imgs as [|im rest IH]; intros imgs'; simpl.
  - by intros [= <-].
  - destruct (file_h !! file_hash im) as [t|]; [|discriminate].
    destruct (load_feature_vectors file_h rest) as [e|rest']; [discriminate|].
    intros [= <-]. cbn. f_equal. by apply IH.
Qed.

Lemma load_feature_vectors_total (file_h : gmap string Tensor)
    (imgs : list CollectionImage) :
  (forall im, im ∈ imgs -> file_hash im ∈ dom file_h) ->
  exists imgs', load_feature_vectors file_h imgs = inr imgs'.
Proof.
  intros Hall.
  destruct (FeatureVectorSpec.load_feature_vectors_ok file_h imgs Hall)
    as (imgs' & H & _).
  by exists imgs'.
Qed.

Lemma verify_feature_vectors_same {W} (self self' : CollectionDataset W)
    (skip_load ok : bool) (log : list report) :
  verify_feature_vectors_exist_and_load self skip_load = inr (ok, self', log) ->
  same_items self' self.
Proof.
  unfold verify_feature_vectors_exist_and_load.
  destruct (vector_type self) as [vt|]; [|intros [= _ <- _]; apply same_items_refl].
  destruct (negb (isfile W _)); [intros [= _ <- _]; apply same_items_refl|].
  destruct (h5_file W _) as [file_h|]; [|discriminate].
  destruct (Nat.ltb 0 _); [intros [= _ <- _]; apply same_items_refl|].
  destruct skip_load; [intros [= _ <- _]; apply same_items_refl|].
  destruct (load_feature_vectors file_h (images self)) as [e|imgs] eqn:E;
    [discriminate|].
  intros [= _ <- _]. apply load_feature_vectors_forget in E.
  by repeat split.
Qed.

(** The file of the store of the instance, if there is one, opens. *)
Definition store_opens {W} (self : CollectionDataset W) : Prop :=
  forall f, FeatureVectorSpec.store_file self = Some f ->
            isfile W f = true -> is_Some (h5_file W f).

Lemma verify_feature_vectors_total {W} (self : CollectionDataset W)
    (skip_load : bool) :
  store_opens self ->
  exists r, verify_feature_vectors_exist_and_load self skip_load = inr r.
Proof.
  unfold store_opens, FeatureVectorSpec.store_file,
    verify_feature_vectors_exist_and_load.
  destruct (vector_type self) as [vt|]; cbn [mbind option_bind];
    [|by eexists].
  intros Hopen. destruct (isfile W _) eqn:Hf; cbn [negb]; [|by eexists].
  destruct (Hopen _ eq_refl Hf) as [file_h ->].
  destruct (Nat.ltb 0 _) eqn:E; [by eexists|].
  destruct skip_load; [by eexists|].
  apply FeatureVectorSpec.missing_list_empty in E.
  destruct (load_feature_vectors_total file_h (images self)) as [imgs ->].
  - intros im Him. destruct (decide (file_hash im ∈ dom file_h)) as [|Hn];
      [done|exfalso].
    assert (HX : file_hash im
                 ∈ (list_to_set (file_hash <$> images self) : gset string)
                   ∖ dom file_h).
    { apply elem_of_difference. split; [|done].
      apply elem_of_list_to_set, list_elem_of_fmap. by exists im. }
    rewrite E in HX. by apply not_elem_of_empty in HX.
  - by eexists.
Qed.

Lemma run_verification_same {W} (cfg : Config W)
    (self self' : CollectionDataset W) :
  run_verification cfg self = inr self' -> same_items self' self.
Proof.
  unfold run_verification.
  destruct (negb (cfg_verify_all_sets_all_types cfg)).
  - destruct (bool_decide (input_type self = "original"%string)).
    + intros [= <-]. by repeat split.
    + destruct (verify_feature_vectors_exist_and_load self false)
        as [e|[[ok s] log]] eqn:E; [discriminate|].
      intros [= <-]. apply verify_feature_vectors_same in E.
      destruct E as (? & ? & ? & ? & ? & ? & ?). by repeat split.
  - destruct (verify_feature_vectors_exist_and_load self true)
      as [e|[[ok s] log]] eqn:E; [discriminate|].
    intros [= <-]. apply verify_feature_vectors_same in E.
    destruct E as (? & ? & ? & ? & ? & ? & ?). by repeat split.
Qed.

Lemma run_verification_total {W} (cfg : Config W) (self : CollectionDataset W) :
  (cfg_verify_all_sets_all_types cfg = true
   \/ input_type self <> "original"%string -> store_opens self) ->
  exists self', run_verification cfg self = inr self'.
Proof.
  intros Hopen. unfold run_verification.
  destruct (cfg_verify_all_sets_all_types cfg); cbn [negb].
  - destruct (verify_feature_vectors_total self true (Hopen (or_introl eq_refl)))
      as [[[ok s] log] ->].
    by eexists.
  - destruct (bool_decide (input_type self = "original"%string)) eqn:B;
      [by eexists|].
    apply bool_decide_eq_false in B.
    destruct (verify_feature_vectors_total self false (Hopen (or_intror B)))
      as [[[ok s] log] ->].
    by eexists.
Qed.

(** The only exception of the verification is that of a store that does
    not open. *)
Lemma run_verification_raises {W} (cfg : Config W)
    (self : CollectionDataset W) (e : exn) :
  run_verification cfg self = inl e ->
  e = OSError
  /\ (cfg_verify_all_sets_all_types cfg = true
      \/ input_type self <> "original"%string)
  /\ exists f, FeatureVectorSpec.store_file self = Some f
               /\ isfile W f = true /\ h5_file W f = None.
Proof.
  assert (V : forall skip,
            verify_feature_vectors_exist_and_load self skip = inl e ->
            e = OSError
            /\ exists f, FeatureVectorSpec.store_file self = Some f
                         /\ isfile W f = true /\ h5_file W f = None).
  { intros skip.
    unfold verify_feature_vectors_exist_and_load, FeatureVectorSpec.store_file.
    destruct (vector_type self) as [vt|]; cbn [mbind option_bind];
      [|discriminate].
    destruct (isfile W _) eqn:Hf; cbn [negb]; [|discriminate].
    destruct (h5_file W _) as [file_h|] eqn:Hh.
    - destruct (Nat.ltb 0 _) eqn:E0; [discriminate|].
      destruct skip; [discriminate|].
      apply FeatureVectorSpec.missing_list_empty in E0.
      destruct (load_feature_vectors_total file_h (images self)) as [imgs ->];
        [|discriminate].
      intros im Him. destruct (decide (file_hash im ∈ dom file_h)) as [|Hn];
        [done|exfalso].
      assert (HX : file_hash im
                   ∈ (list_to_set (file_hash <$> images self) : gset string)
                     ∖ dom file_h).
      { apply elem_of_difference. split; [|done].
        apply elem_of_list_to_set, list_elem_of_fmap. by exists im. }
      rewrite E0 in HX. by apply not_elem_of_empty in HX.
    - intros [= <-]. split; [done|]. by eexists. }
  unfold run_verification.
  destruct (cfg_verify_all_sets_all_types cfg); cbn [negb].
  - destruct (verify_feature_vectors_exist_and_load self true)
      as [e'|[[ok s] log]] eqn:Hv; [|discriminate].
    intros [= ->]. destruct (V true Hv) as [-> Hf]. auto.
  - destruct (bool_decide (input_type self = "original"%string)) eqn:B;
      [discriminate|].
    apply bool_decide_eq_false in B.
    destruct (verify_feature_vectors_exist_and_load self false)
      as [e'|[[ok s] log]] eqn:Hv; [|discriminate].
    intros [= ->]. destruct (V false Hv) as [-> Hf]. auto.
Qed.

Lemma build_images_spec (ld : list (Z * Z)) (sampled : list Sampled)
    (imgs : list CollectionImage) :
  build_images ld sampled = inr imgs ->
  Forall2 (fun s im => exists l, dict_get (s_label s) ld = Some l
                                 /\ im = image_of s l) sampled imgs.
Proof.
  revert imgs. induction sampled as [|s rest IH]; intros imgs; simpl.
  - intros [= <-]. constructor.
  - destruct (dict_get (s_label s) ld) as [l|] eqn:E; [|discriminate].
    destruct (build_images ld rest) as [e|imgs'] eqn:E'; [discriminate|].
    intros [= <-]. constructor; [by exists l | by apply IH].
Qed.

Lemma build_images_total (ld : list (Z * Z)) (sampled : list Sampled) :
  Forall (fun s => s_label s ∈ dict_keys ld) sampled ->
  exists imgs, build_images ld sampled = inr imgs.
Proof.
  induction 1 as [|s rest Hs _ IH]; simpl; [by eexists|].
  apply dict_get_is_Some in Hs as [l ->].
  destruct IH as [imgs ->]. by eexists.
Qed.

Lemma build_images_forget (ld : list (Z * Z)) (sampled : list Sampled)
    (imgs : list CollectionImage) :
  build_images ld sampled = inr imgs -> forget_vector <$> imgs = imgs.
Proof.
  intros H. apply build_images_spec in H.
  induction H as [|s im ? ? (l & _ & ->) _ IH]; [done|].
  cbn. by rewrite IH.
Qed.

(** What a completed construction went through. *)
Lemma init_Built_inv (R : RandomSource) (W : World) (cfg : Config W)
    (g0 g : rng R) (self : CollectionDataset W) :
  init R W cfg g0 = inr (g, Built self) ->
  let rows := query_rows W cfg in
  let d := group_rows rows in
  let ld := build_label_dict (cfg_label_dict cfg) d in
  let caps := caps_of (cfg_full_dataset cfg) in
  let nc := num_classes_of d caps.1.1 in
  rows <> []
  /\ cfg_set_type cfg ∈ SET_TYPES
  /\ exists sampled imgs,
      random_value R ld nc caps.1.1 d
        (amount_of (cfg_set_type cfg) (Z.of_nat (length rows))
                   caps.1.2 caps.2)
        (seed R 27) = inr (g, sampled)
      /\ build_images ld sampled = inr imgs
      /\ forget_vector <$> images self = imgs
      /\ label_dict self = ld
      /\ dict self = d
      /\ num_classes self = nc
      /\ set_type self = cfg_set_type cfg
      /\ input_type self = cfg_input_type cfg
      /\ pipeline self = cfg_pipeline cfg.
Proof.
  unfold init, query_rows.
  destruct (sanitize_and_check_root_path W IMAGES_ROOT_PATH) as [e|root];
    [discriminate|]. cbn [bind].
  destruct (bool_decide (cfg_set_type cfg ∈ SET_TYPES)) eqn:Hst;
    [|discriminate]. cbn [assert bind ret].
  destruct (bool_decide (cfg_input_type cfg ∈ INPUT_TYPES));
    [|discriminate]. cbn [assert bind ret].
  destruct (negb _ || _); [|discriminate]. cbn [assert bind ret].
  destruct (list_index (cfg_set_type cfg) SET_TYPES) as [i|]; [|discriminate].
  unfold execute_database_query.
  destruct (isfile W DATABASE_PATH); [|discriminate]. cbn [bind ret].
  destruct (select_rows _ _ _ _) as [e|rows]; [discriminate|]. cbn [bind].
  destruct (Nat.eqb (length rows) 0) eqn:Hrows; [discriminate|].
  destruct (cfg_full_dataset cfg); cbn [caps_of fst snd].
  all: destruct (random_value R _ _ _ _ _ _) as [e|[g1 sampled]] eqn:Hrv;
    [discriminate|]; cbn [bind].
  all: destruct (build_images _ sampled) as [e|imgs] eqn:Hbi;
    [discriminate|]; cbn [bind].
  all: destruct (run_verification cfg _) as [e|self1] eqn:Hv;
    [discriminate|]; cbn [bind ret].
  all: intros [= <- <-].
  all: apply run_verification_same in Hv;
    destruct Hv as (Hi & Hl & Hd & Hn & Hs & Hit & Hp); cbn in *.
  all: split; [by destruct rows|].
  all: split; [by apply bool_decide_eq_true in Hst|].
  all: exists sampled, imgs; repeat split; try done.
  all: by rewrite Hi, (build_images_forget _ _ _ Hbi).
Qed.

End InitEngine.

End InitFacts.

(** ** The constructor: labels, caps, completeness, determinism *)

Module ConstructionSpec.
Import Py Loader PyFacts LoaderFacts ConstructionFacts InitFacts.

Section ConstructionEngine.
Context {sqlite : Sqlite}.

(** The cap on the items of a split in bounded mode, and the largest
    total the per-class quota lets through. *)
Definition split_cap (set_type : string) : Z :=
  if bool_decide (set_type = "train"%string) then 54000 else 6000.

Definition worst_total (set_type : string) : Z :=
  if bool_decide (set_type = "train"%string) then 54230 else 6227.

(** [round(a / k)] is at least one and [k] quotas stay within [bound]. *)
Definition quota_ok (a bound k : Z) : bool :=
  match num_each_class_of (Fin a) k with
  | inr (Fin q) => (1 <=? q) && (k * q <=? bound)
  | _ => false
  end.

Lemma quota_table_train : forallb (quota_ok 54000 54230) (seqZ 1 500) = true.
Proof. vm_compute. reflexivity. Qed.

Lemma quota_table_test : forallb (quota_ok 6000 6227) (seqZ 1 500) = true.
Proof. vm_compute. reflexivity. Qed.

Lemma quota_bound (set_type : string) (k : Z) :
  1 <= k <= 500 ->
  exists q, num_each_class_of (Fin (split_cap set_type)) k = inr (Fin q)
            /\ 1 <= q /\ k * q <= worst_total set_type.
Proof.
  intros Hk. unfold split_cap, worst_total.
  assert (Hin : In k (seqZ 1 500))
    by (apply list_elem_of_In, elem_of_seqZ; lia).
  destruct (bool_decide (set_type = "train"%string)).
  - pose proof (proj1 (forallb_forall _ _) quota_table_train k Hin) as H.
    unfold quota_ok in H.
    destruct (num_each_class_of (Fin 54000) k) as [e|[q|]]; try discriminate.
    apply andb_true_iff in H as [H1 H2]. exists q. split; [done|]. lia.
  - pose proof (proj1 (forallb_forall _ _) quota_table_test k Hin) as H.
    unfold quota_ok in H.
    destruct (num_each_class_of (Fin 6000) k) as [e|[q|]]; try discriminate.
    apply andb_true_iff in H as [H1 H2]. exists q. split; [done|]. lia.
Qed.

Lemma amount_bounded (set_type : string) (n : Z) :
  set_type ∈ SET_TYPES ->
  amount_of set_type n (Fin 54000) (Fin 6000)
  = if split_cap set_type <? n then Fin (split_cap set_type) else Inf.
Proof.
  intros Hst. unfold amount_of, split_cap, gt_cap.
  destruct (bool_decide (set_type = "train"%string)) eqn:T; cbn [andb].
  - apply bool_decide_eq_true in T as ->.
    rewrite !bool_decide_eq_false_2 by discriminate.
    by destruct (54000 <? n).
  - assert (V : bool_decide (set_type = "validation"%string)
                || bool_decide (set_type = "test"%string) = true).
    { apply bool_decide_eq_false in T. unfold SET_TYPES in Hst.
      apply elem_of_cons in Hst as [->|Hst]; [done|].
      apply elem_of_cons in Hst as [->|Hst]; [done|].
      apply list_elem_of_singleton in Hst as ->. done. }
    rewrite V. cbn [andb]. by destruct (6000 <? n).
Qed.

Lemma size_list_to_set_le (l : list Z) :
  (size (list_to_set l : gset Z) <= length l)%nat.
Proof.
  induction l as [|x l IH].
  - rewrite list_to_set_nil, size_empty. done.
  - rewrite list_to_set_cons, size_union_alt, size_singleton. cbn [length].
    assert (size (list_to_set l ∖ {[x]} : gset Z)
            <= size (list_to_set l : gset Z))%nat
      by (apply subseteq_size; intros y Hy;
          by apply elem_of_difference in Hy as [? _]).
    lia.
Qed.

Lemma grouped_classes_nonempty (rows : list QueryRow) :
  rows <> [] -> (1 <= length (dict_keys (group_rows rows)))%nat.
Proof.
  intros Hrows. rewrite group_rows_keys.
  destruct rows as [|r rows]; [done|].
  assert (H : q_class_id r ∈ first_seen (q_class_id <$> r :: rows)).
  { apply elem_of_first_seen. cbn. apply elem_of_cons. by left. }
  destruct (first_seen _); [by apply elem_of_nil in H | simpl; lia].
Qed.

Lemma num_classes_bounded (d : list (Z * list RowData)) :
  (1 <= length (dict_keys d))%nat ->
  1 <= num_classes_of d (Fin 500) <= 500.
Proof.
  intros H. unfold num_classes_of, gt_cap.
  destruct (500 <? Z.of_nat (length (dict_keys d))) eqn:E; [lia|].
  apply Z.ltb_ge in E. lia.
Qed.

(** The item a row becomes under a label dictionary. *)
Definition item_of_row (ld : list (Z * Z)) (row : QueryRow) : CollectionImage :=
  {| relative_path := q_relative_path row;
     class_id := default 0 (dict_get (q_class_id row) ld);
     set_id := q_set_id row;
     problem := q_problem row;
     file_hash := q_file_hash row;
     feature_vector := [] |}.

(** The checks of the constructor that do not depend on the rows. *)
Definition environment_ok (W : World) (cfg : Config W) : bool :=
  isdir W (replace_double_slash (IMAGES_ROOT_PATH +:+ "/"%string))
  && bool_decide (cfg_set_type cfg ∈ SET_TYPES)
  && bool_decide (cfg_input_type cfg ∈ INPUT_TYPES)
  && (negb (bool_decide (cfg_input_type cfg = "features"%string))
      || match cfg_vector_type cfg with
         | Some vt => bool_decide (vt ∈ VECTOR_TYPES)
         | None => false
         end)
  && isfile W DATABASE_PATH.

(** The store of feature vectors opens, if the construction consults it
    (for [features] input and when everything is verified) and its file
    is there. *)
Definition store_readable (W : World) (cfg : Config W) : Prop :=
  cfg_verify_all_sets_all_types cfg = true
  \/ cfg_input_type cfg <> "original"%string ->
  forall vt,
    cfg_vector_type cfg = Some vt ->
    isfile W (VECTORS_ROOT_PATH +:+ vt +:+ "/"%string +:+ cfg_dataset_name cfg
              +:+ ".h5"%string) = true ->
    is_Some (h5_file W (VECTORS_ROOT_PATH +:+ vt +:+ "/"%string
                        +:+ cfg_dataset_name cfg +:+ ".h5"%string)).

(** C4: without an external label dictionary, the classes grouped from the
    rows are the class ids of the rows in order of first appearance, and
    the label dictionary of the instance is the identity on
    [{0, ..., n-1}] when these classes are exactly that set, and otherwise
    pairs the classes, in that order, with 0, 1, 2, ... *)
Theorem label_dict_policy (R : RandomSource) (W : World) (cfg : Config W)
    (g0 g : rng R) (self : CollectionDataset W) :
  cfg_label_dict cfg = None ->
  init R W cfg g0 = inr (g, Built self) ->
  let keys := first_seen (q_class_id <$> query_rows W cfg) in
  let n := length keys in
  dict_keys (dict self) = keys
  /\ (((forall z, z ∈ keys <-> 0 <= z < Z.of_nat n)
       /\ label_dict self = (fun i => (i, i)) <$> range n)
      \/ (~ (forall z, z ∈ keys <-> 0 <= z < Z.of_nat n)
          /\ label_dict self = zip keys (range n))).
Proof.
  intros Hnone Hinit.
  destruct (init_Built_inv R W cfg g0 g self Hinit)
    as (_ & _ & sampled & imgs & _ & _ & _ & Hld & Hd & _).
  cbn zeta. rewrite Hd, Hld, Hnone, group_rows_keys.
  split; [done|]. unfold build_label_dict. rewrite group_rows_keys.
  set (keys := first_seen (q_class_id <$> query_rows W cfg)).
  destruct (bool_decide _) eqn:E.
  - left. apply bool_decide_eq_true in E.
    split; [by apply same_set_as_range | done].
  - right. apply bool_decide_eq_false in E. split.
    + intros H. by apply E, same_set_as_range.
    + apply sequential_labels, first_seen_NoDup.
Qed.

(** Two configurations that agree on everything but the pipeline, which
    the constructor only stores. *)
Definition same_config {W1 W2 : World} (c1 : Config W1) (c2 : Config W2)
  : Prop :=
  cfg_dataset_name c1 = cfg_dataset_name c2
  /\ cfg_set_type c1 = cfg_set_type c2
  /\ cfg_input_type c1 = cfg_input_type c2
  /\ cfg_vector_type c1 = cfg_vector_type c2
  /\ cfg_label_dict c1 = cfg_label_dict c2
  /\ cfg_verify_all_sets_all_types c1 = cfg_verify_all_sets_all_types c2
  /\ cfg_full_dataset c1 = cfg_full_dataset c2.

Lemma query_rows_same (W1 W2 : World) (cfg1 : Config W1) (cfg2 : Config W2) :
  catalog W1 = catalog W2 -> same_config cfg1 cfg2 ->
  query_rows W1 cfg1 = query_rows W2 cfg2.
Proof.
  intros Hcat (Hn & Hs & _ & _ & _ & Ha & _).
  unfold query_rows. by rewrite Hcat, Hn, Hs, Ha.
Qed.

(** C9: two completed constructions over the same catalog rows and the
    same configuration have the same label dictionary and the same items
    in the same order, and leave the generator in the same state, whatever
    the states of the generator at entry and whatever else differs around
    them (files, stored feature vectors, the pipeline); only the feature
    vectors loaded from the store can differ.  With nothing else changed,
    a construction from any generator state ends exactly the same way. *)
Theorem construction_is_deterministic (R : RandomSource) (W1 W2 : World)
    (cfg1 : Config W1) (cfg2 : Config W2) (g1 g2 ga gb : rng R)
    (self1 : CollectionDataset W1) (self2 : CollectionDataset W2) :
  catalog W1 = catalog W2 ->
  same_config cfg1 cfg2 ->
  init R W1 cfg1 g1 = inr (ga, Built self1) ->
  init R W2 cfg2 g2 = inr (gb, Built self2) ->
  label_dict self1 = label_dict self2
  /\ forget_vector <$> images self1 = forget_vector <$> images self2
  /\ ga = gb
  /\ forall g, init R W1 cfg1 g = inr (ga, Built self1).
Proof.
  intros Hcat Hcfg H1 H2.
  pose proof (query_rows_same W1 W2 cfg1 cfg2 Hcat Hcfg) as Hrows.
  destruct Hcfg as (_ & Hs & _ & _ & Hl & _ & Hf).
  pose proof (init_Built_inv R W1 cfg1 g1 ga self1 H1)
    as (_ & _ & s1 & i1 & Hr1 & Hb1 & Hi1 & Hl1 & _).
  pose proof (init_Built_inv R W2 cfg2 g2 gb self2 H2)
    as (_ & _ & s2 & i2 & Hr2 & Hb2 & Hi2 & Hl2 & _).
  cbn zeta in *.
  rewrite Hrows, Hs, Hl, Hf in Hr1. rewrite Hr1 in Hr2.
  injection Hr2 as -> ->.
  rewrite Hrows, Hl in Hb1. rewrite Hb1 in Hb2. injection Hb2 as ->.
  rewrite Hrows, Hl in Hl1.
  repeat split.
  - by rewrite Hl1, Hl2.
  - by rewrite Hi1, Hi2.
  - intros g. exact H1.
Qed.

Lemma forget_vector_length (imgs : list CollectionImage) :
  length (forget_vector <$> imgs) = length imgs.
Proof. apply length_fmap. Qed.

Lemma class_id_forget (imgs : list CollectionImage) :
  class_id <$> (forget_vector <$> imgs) = class_id <$> imgs.
Proof. rewrite <- list_fmap_compose. by apply list_fmap_ext. Qed.

(** The dense labels of built items are labels of the classes drawn on. *)
Lemma built_class_ids (ld : list (Z * Z)) (sampled : list Sampled)
    (imgs : list CollectionImage) (used : list Z) :
  build_images ld sampled = inr imgs ->
  Forall (fun s => s_label s ∈ used) sampled ->
  forall c, c ∈ class_id <$> imgs ->
            c ∈ (fun k => default 0 (dict_get k ld)) <$> used.
Proof.
  intros Hb Hused c Hc. apply build_images_spec in Hb.
  apply list_elem_of_fmap in Hc as (im & -> & Him).
  apply list_elem_of_lookup in Him as [i Hi].
  destruct (Forall2_lookup_r _ _ _ _ _ Hb Hi) as (s & Hs & l & Hl & ->).
  apply list_elem_of_fmap. exists (s_label s). split.
  - cbn. by rewrite Hl.
  - eapply Forall_lookup_1 in Hused; [exact Hused | exact Hs].
Qed.

(** C1, amended: in bounded mode the instance keeps between one and 500
    classes and its items carry at most that many distinct class ids.
    When the query returns at most [cap] rows (54,000 for [train], 6,000
    for [validation] and [test]) there are at most as many items as rows.
    When it returns more, there are at most
    [num_classes * round(cap / num_classes)] items.  In all cases the
    items number at most 54,230 for [train] and 6,227 for [validation]
    and [test]. *)
Theorem bounded_sampling_caps (R : RandomSource) (W : World) (cfg : Config W)
    (g0 g : rng R) (self : CollectionDataset W) :
  cfg_full_dataset cfg = false ->
  init R W cfg g0 = inr (g, Built self) ->
  let n_rows := Z.of_nat (length (query_rows W cfg)) in
  let n_items := Z.of_nat (length (images self)) in
  let cap := split_cap (set_type self) in
  1 <= num_classes self <= 500
  /\ Z.of_nat (size (list_to_set (class_id <$> images self) : gset Z))
     <= num_classes self
  /\ (n_rows <= cap -> n_items <= n_rows)
  /\ (cap < n_rows ->
      exists q, num_each_class_of (Fin cap) (num_classes self) = inr (Fin q)
                /\ n_items <= num_classes self * q)
  /\ n_items <= worst_total (set_type self).
Proof.
  intros Hfull Hinit.
  destruct (init_Built_inv R W cfg g0 g self Hinit)
    as (Hrows & Hst & sampled & imgs & Hrv & Hbi & Himgs & Hld & _ & Hnc
        & Hset & _).
  rewrite Hfull in Hrv, Hnc. cbn [caps_of fst snd] in Hrv, Hnc.
  rewrite Hset. cbn zeta.
  set (rows := query_rows W cfg) in *.
  set (d := group_rows rows) in *.
  set (st := cfg_set_type cfg) in *.
  assert (Hk : 1 <= num_classes self <= 500).
  { rewrite Hnc. by apply num_classes_bounded, grouped_classes_nonempty. }
  rewrite <- Hnc in Hrv. rewrite <- Hld in Hrv, Hbi.
  rewrite (amount_bounded st _ Hst) in Hrv.
  unfold random_value in Hrv.
  destruct (quota_bound st (num_classes self) Hk) as (q & Hq & Hq1 & Hqb).
  assert (Hlen : length (images self) = length sampled).
  { rewrite <- (forget_vector_length (images self)), Himgs.
    apply build_images_spec in Hbi. symmetry. by eapply Forall2_length. }
  assert (Hent : length (entries d) = length rows).
  { subst d. rewrite (Permutation_length (group_rows_entries rows)).
    apply length_fmap. }
  assert (Hloop : exists qc used,
             (Z.of_nat (length sampled) <= Z.of_nat (length rows))
             /\ (forall n, qc = Fin n -> 1 <= n ->
                           Z.of_nat (length sampled) <= num_classes self * n)
             /\ Z.of_nat (length used) <= num_classes self
             /\ Forall (fun s => s_label s ∈ used) sampled
             /\ qc = (if split_cap st <? Z.of_nat (length rows)
                      then Fin q else Inf)).
  { assert (Hpos : 0 < num_classes self) by lia.
    destruct (split_cap st <? Z.of_nat (length rows)) eqn:E.
    - rewrite Hq in Hrv. cbn [bind ret] in Hrv.
      destruct (random_value_loop_bounds R _ _ _ _ _ 0 _ _ _ _ Hpos Hrv)
        as (added & used & Ha & Hl & Hb & Hu & Hall).
      cbn in Ha. subst added. exists (Fin q), used.
      repeat split; try done; try lia.
      intros n Hn Hn1. specialize (Hb n Hn Hn1). lia.
    - cbn [num_each_class_of bind ret] in Hrv.
      destruct (random_value_loop_bounds R _ _ _ _ _ 0 _ _ _ _ Hpos Hrv)
        as (added & used & Ha & Hl & Hb & Hu & Hall).
      cbn in Ha. subst added. exists Inf, used.
      repeat split; try done; try lia. }
  destruct Hloop as (qc & used & Hl & Hb & Hu & Hall & Hqc).
  split; [done|]. split.
  { rewrite <- class_id_forget, Himgs.
    set (f := fun k => default 0 (dict_get k (label_dict self))).
    assert (Hsub : (list_to_set (class_id <$> imgs) : gset Z)
                   ⊆ list_to_set (f <$> used)).
    { intros c Hc. apply elem_of_list_to_set in Hc.
      apply elem_of_list_to_set.
      by apply (built_class_ids _ _ _ _ Hbi Hall). }
    apply subseteq_size in Hsub.
    pose proof (size_list_to_set_le (f <$> used)) as Hs.
    rewrite length_fmap in Hs. lia. }
  split; [intros _; rewrite Hlen; lia|].
  split.
  - intros Hgt. apply Z.ltb_lt in Hgt. rewrite Hgt in Hqc.
    exists q. split; [done|]. rewrite Hlen. by apply Hb.
  - rewrite Hlen. destruct (split_cap st <? Z.of_nat (length rows)) eqn:E.
    + specialize (Hb q Hqc Hq1). lia.
    + apply Z.ltb_ge in E.
      assert (split_cap st <= worst_total st)
        by (unfold split_cap, worst_total; by destruct (bool_decide _)).
      lia.
Qed.


Lemma amount_unbounded (set_type : string) (n : Z) :
  amount_of set_type n Inf Inf = Inf.
Proof. unfold amount_of, gt_cap. by rewrite !andb_false_r. Qed.

Lemma image_of_sampled_row (ld : list (Z * Z)) (row : QueryRow) (l : Z) :
  dict_get (q_class_id row) ld = Some l ->
  image_of (sampled_of_row row) l = item_of_row ld row.
Proof. intros H. unfold item_of_row. by rewrite H. Qed.

(** Every class of the returned rows is among the first [n] keys of the
    label dictionary in use, [n] being the number of these classes. *)
Definition labels_cover (W : World) (cfg : Config W) : Prop :=
  let d := group_rows (query_rows W cfg) in
  let ld := build_label_dict (cfg_label_dict cfg) d in
  forall k, k ∈ dict_keys d -> k ∈ take (length (dict_keys d)) (dict_keys ld).

Lemma labels_cover_without_dict (W : World) (cfg : Config W) :
  cfg_label_dict cfg = None -> labels_cover W cfg.
Proof.
  intros Hnone k Hk. cbn zeta in *. rewrite Hnone.
  set (d := group_rows (query_rows W cfg)) in *.
  assert (Hnd : NoDup (dict_keys d))
    by (subst d; rewrite group_rows_keys; apply first_seen_NoDup).
  destruct (built_label_dict_keys d Hnd) as [Hlen Hkeys].
  rewrite take_ge by lia. by apply Hkeys.
Qed.

(** A row of the catalog the constructor is asked for: a row of the task,
    without problem flag, and of the split unless everything is verified. *)
Definition row_wanted {W : World} (cfg : Config W) (r : CatalogRow) : Prop :=
  row_dataset r = cfg_dataset_name cfg
  /\ row_problem r = 0
  /\ (cfg_verify_all_sets_all_types cfg = true
      \/ list_index (cfg_set_type cfg) SET_TYPES = Some (row_set_id r)).

#[global] Instance row_wanted_dec {W : World} (cfg : Config W) (r : CatalogRow)
  : Decision (row_wanted cfg r).
Proof. unfold row_wanted. apply _. Defined.




End ConstructionEngine.

#[local] Existing Instance Sample.text_engine.

(** *** Instances *)

(** Classes 1, 0, 2 cover [{0, 1, 2}]: identity, listed from 0 upwards. *)
Example identity_policy :
  build_label_dict None
    (group_rows (to_query_row <$>
       [Sample.row "t" 1 0 "a"; Sample.row "t" 0 0 "b";
        Sample.row "t" 2 0 "c"; Sample.row "t" 1 0 "d"]%string))
  = [(0, 0); (1, 1); (2, 2)].
Proof. vm_compute. reflexivity. Qed.

(** Classes 5, 3, 9 in that order of appearance: 5 is 0, 3 is 1, 9 is 2. *)
Example sequential_policy :
  build_label_dict None
    (group_rows (to_query_row <$>
       [Sample.row "t" 5 0 "a"; Sample.row "t" 3 0 "b";
        Sample.row "t" 5 0 "c"; Sample.row "t" 9 0 "d"]%string))
  = [(5, 0); (3, 1); (9, 2)].
Proof. vm_compute. reflexivity. Qed.

Lemma birds_train_built :
  init Sample.lcg Sample.birds_world
       (Sample.birds_cfg "original" None false) 0%nat
  = inr (Sample.birds_train.1, Built Sample.birds_train.2).
Proof. vm_compute. reflexivity. Qed.

(** The label policy on the sample task, whose classes 5, 3, 9 are not
    [{0, 1, 2}]. *)
Lemma label_dict_policy_witness :
  cfg_label_dict (Sample.birds_cfg "original" None false) = None
  /\ init Sample.lcg Sample.birds_world
          (Sample.birds_cfg "original" None false) 0%nat
     = inr (Sample.birds_train.1, Built Sample.birds_train.2)
  /\ dict_keys (dict Sample.birds_train.2) = [5; 3; 9]
  /\ label_dict Sample.birds_train.2 = [(5, 0); (3, 1); (9, 2)].
Proof.
  split; [reflexivity|]. split; [exact birds_train_built|].
  pose proof (label_dict_policy Sample.lcg Sample.birds_world
                (Sample.birds_cfg "original" None false) 0%nat _ _
                eq_refl birds_train_built) as [Hk _].
  split; [exact Hk | reflexivity].
Defined.

Lemma birds_features_built :
  init Sample.lcg Sample.birds_world
       (Sample.birds_cfg "features" None false) 0%nat
  = inr (Sample.birds_features.1, Built Sample.birds_features.2).
Proof. vm_compute. reflexivity. Qed.

Lemma moved_features_built :
  init Sample.lcg Sample.moved_world Sample.moved_cfg 5%nat
  = inr (Sample.moved_features.1, Built Sample.moved_features.2).
Proof. vm_compute. reflexivity. Qed.

(** Determinism on the sample task, constructed in two places from two
    generator states: same labels and items, other feature vectors. *)
Lemma construction_is_deterministic_witness :
  catalog Sample.birds_world = catalog Sample.moved_world
  /\ same_config (Sample.birds_cfg "features" None false) Sample.moved_cfg
  /\ label_dict Sample.birds_features.2 = label_dict Sample.moved_features.2
  /\ forget_vector <$> images Sample.birds_features.2
     = forget_vector <$> images Sample.moved_features.2
  /\ images Sample.birds_features.2 <> images Sample.moved_features.2.
Proof.
  assert (Hcfg : same_config (Sample.birds_cfg "features" None false)
                             Sample.moved_cfg) by (repeat split).
  split; [reflexivity|]. split; [exact Hcfg|].
  pose proof (construction_is_deterministic Sample.lcg Sample.birds_world
                Sample.moved_world _ _ 0%nat 5%nat _ _ _ _
                eq_refl Hcfg birds_features_built moved_features_built)
    as (Hl & Hi & _).
  split; [exact Hl|]. split; [exact Hi|]. discriminate.
Defined.

(** C1, counterexample: nine classes of 667 [validation] rows, bounded
    mode.  The quota is [round(6000 / 9) = 667], every row is kept, and
    the instance has 6,003 items, more than 6,000. *)
Lemma bounded_validation_exceeds_cap :
  cfg_full_dataset Sample.crowded_cfg = false
  /\ cfg_set_type Sample.crowded_cfg = "validation"%string
  /\ num_each_class_of (Fin 6000) 9 = inr (Fin 667)
  /\ exists n,
      Sample.item_count
        (init Sample.lcg Sample.crowded_world Sample.crowded_cfg 0%nat)
      = Some n
      /\ 6000 < n.
Proof.
  split; [reflexivity|]. split; [reflexivity|].
  split; [vm_compute; reflexivity|].
  exists 6003. split; [vm_compute; reflexivity | lia].
Qed.

(** The caps on the sample task: five items, at most 54,230. *)
Lemma bounded_sampling_caps_witness :
  cfg_full_dataset (Sample.birds_cfg "original" None false) = false
  /\ init Sample.lcg Sample.birds_world
          (Sample.birds_cfg "original" None false) 0%nat
     = inr (Sample.birds_train.1, Built Sample.birds_train.2)
  /\ 1 <= num_classes Sample.birds_train.2 <= 500
  /\ Z.of_nat (length (images Sample.birds_train.2)) <= 54230.
Proof.
  split; [reflexivity|]. split; [exact birds_train_built|].
  pose proof (bounded_sampling_caps Sample.lcg Sample.birds_world
                (Sample.birds_cfg "original" None false) 0%nat _ _
                eq_refl birds_train_built) as (Hk & _ & _ & _ & Hn).
  split; [exact Hk | exact Hn].
Defined.

(** The full-dataset flag with a label dictionary made elsewhere.  The
    query returns five rows of classes 5, 3 and 9; class 9 is not among
    the first three keys of the dictionary, the assertion in
    [_random_value] fails and nothing is constructed. *)
Example full_dataset_with_foreign_labels_raises :
  cfg_full_dataset
    (Sample.birds_cfg "original" (Some Sample.foreign_labels) true) = true
  /\ length (query_rows Sample.birds_world
               (Sample.birds_cfg "original" (Some Sample.foreign_labels) true))
     = 5%nat
  /\ init Sample.lcg Sample.birds_world
          (Sample.birds_cfg "original" (Some Sample.foreign_labels) true) 0%nat
     = inl AssertionError.
Proof. repeat split; vm_compute; reflexivity. Qed.



End ConstructionSpec.

(** ** More on [divide_integer_K] *)

Module PartitionSpec.
Import Py Utils Binary64Facts DivideSpec.

Lemma sum_list_Permutation (l1 l2 : list Z) :
  l1 ≡ₚ l2 -> sum_list l1 = sum_list l2.
Proof.
  unfold sum_list. induction 1; simpl; lia.
Qed.

(** Among the first [n] parts of the exact partition, [min r n] are the
    larger ones. *)
Lemma larger_parts_count (q r : Z) (n : nat) :
  0 <= r ->
  length (filter (fun p => p = q + 1)
            ((fun i => if Z.of_nat i <? r then q + 1 else q) <$> seq 0 n))
  = Z.to_nat (Z.min r (Z.of_nat n)).
Proof.
  intros Hr. induction n as [|n IH]; [simpl; lia|].
  rewrite seq_S, fmap_app, filter_app, length_app, IH. cbn [fmap list_fmap Nat.add].
  destruct (Z.of_nat n <? r) eqn:E.
  - apply Z.ltb_lt in E. rewrite filter_cons_True by done. simpl. lia.
  - apply Z.ltb_ge in E. rewrite filter_cons_False by lia. simpl. lia.
Qed.

Lemma divide_integer_K_shuffles_exact (R : RandomSource) (g : rng R)
    (N K : Z) :
  0 <= N < 2 ^ 52 -> 0 < K < 2 ^ 60 ->
  divide_integer_K R g N K true = inr (shuffle R g (exact_parts N K)).
Proof.
  intros HN HK.
  pose proof (divide_integer_K_exact_below_2_52 R g N K HN HK) as H.
  unfold divide_integer_K in *.
  destruct ((K <? 0) || (2 ^ 60 <=? K)); [discriminate|].
  destruct (fill_loop N K _ 0 _) as [e|array]; [discriminate|].
  cbn [bind] in *. destruct (K =? 0); [discriminate|].
  unfold ret in *. by injection H as ->.
Qed.

(** X1: for [N] below [2^52] and a number of parts [K] below [2^60], the
    size from which [np.zeros] refuses the array, the code does what its
    docstring says, shuffled or not: [K] parts that sum to [N], each the
    floor of [N / K] or one more, exactly [N mod K] of them the larger.
    From [K = 2^60] on it raises [ValueError]. *)
Theorem divide_integer_K_partitions (R : RandomSource) (g : rng R)
    (N K : Z) (shuff : bool) :
  (0 <= N < 2 ^ 52 -> 0 < K < 2 ^ 60 ->
   exists g' parts,
     divide_integer_K R g N K shuff = inr (g', parts)
     /\ length parts = Z.to_nat K
     /\ sum_list parts = N
     /\ Forall (fun p => p = N / K \/ p = N / K + 1) parts
     /\ length (filter (fun p => p = N / K + 1) parts) = Z.to_nat (N mod K)
     /\ (shuff = false -> g' = g /\ parts = exact_parts N K))
  /\ (2 ^ 60 <= K -> divide_integer_K R g N K shuff = inl ValueError).
Proof.
  split.
  2:{ intros HK. unfold divide_integer_K.
      rewrite (proj2 (Z.leb_le (2 ^ 60) K)) by done.
      by rewrite orb_true_r. }
  intros HN HK.
  destruct (exact_parts_spec N K (proj1 HN) (proj1 HK)) as (Hl & Hs & _ & Hi).
  pose proof (Z.mod_pos_bound N K (proj1 HK)) as Hr.
  assert (Hall : Forall (fun p => p = N / K \/ p = N / K + 1)
                        (exact_parts N K)).
  { unfold exact_parts. apply Forall_fmap, Forall_forall. intros i _. cbn.
    destruct (Z.of_nat i <? N mod K); auto. }
  assert (Hc : length (filter (fun p => p = N / K + 1) (exact_parts N K))
               = Z.to_nat (N mod K)).
  { unfold exact_parts. rewrite larger_parts_count by lia. f_equal. lia. }
  destruct shuff.
  - rewrite divide_integer_K_shuffles_exact by done.
    pose proof (PyFacts.shuffle_Permutation R g (exact_parts N K)) as P.
    destruct (shuffle R g (exact_parts N K)) as [g' parts]. cbn [snd] in P.
    exists g', parts. split; [done|].
    split; [by rewrite (Permutation_length P)|].
    split; [by rewrite (sum_list_Permutation _ _ P)|].
    split; [by rewrite P|].
    split; [by rewrite P | discriminate].
  - exists g, (exact_parts N K).
    split; [by apply divide_integer_K_exact_below_2_52|]. done.
Qed.

(** Ten into three, shuffled. *)
Lemma divide_integer_K_partitions_witness :
  0 <= 10 < 2 ^ 52 /\ 0 < 3 < 2 ^ 60
  /\ exists g' parts,
      divide_integer_K Sample.lcg 0%nat 10 3 true = inr (g', parts)
      /\ length parts = 3%nat
      /\ sum_list parts = 10.
Proof.
  assert (H1 : 0 <= 10 < 2 ^ 52) by (split; [lia | reflexivity]).
  assert (H2 : 0 < 3 < 2 ^ 60) by (split; reflexivity).
  split; [exact H1|]. split; [exact H2|].
  destruct (proj1 (divide_integer_K_partitions Sample.lcg 0%nat 10 3 true)
              H1 H2)
    as (g' & parts & E & Hl & Hs & _).
  by exists g', parts.
Defined.

(** X2: a number of parts that is not positive is refused: a negative size of
    the array raises [ValueError], and with [K = 0] the remainder
    [N % K] raises [ZeroDivisionError].  Whatever is returned has [K]
    parts. *)
Theorem divide_integer_K_number_of_parts (R : RandomSource) (g : rng R)
    (N K : Z) (shuff : bool) :
  (K < 0 -> divide_integer_K R g N K shuff = inl ValueError)
  /\ (K = 0 -> divide_integer_K R g N K shuff = inl ZeroDivisionError)
  /\ (forall g' parts,
        divide_integer_K R g N K shuff = inr (g', parts) ->
        0 < K /\ length parts = Z.to_nat K).
Proof.
  split; [|split].
  - intros HK. unfold divide_integer_K.
    by rewrite (proj2 (Z.ltb_lt K 0)) by lia.
  - intros ->. reflexivity.
  - intros g' parts. apply divide_integer_K_length.
Qed.

End PartitionSpec.

(** ** What [get_files_and_labels] appends *)

Module LabelIndexRun.
Import Py Utils PyFacts LabelIndexSpec.

(** What a line of an index file says, when the code uses it: exactly two
    fields, the second an integer literal. *)
Definition parsed_line (line : string) : option (string * Z) :=
  match split (strip line) with
  | [individual_file; individual_label] =>
      match int_of_str individual_label with
      | inr n => Some (individual_file, n)
      | inl _ => None
      end
  | _ => None
  end.

(** The lines a call uses: all that parse, or with [flag_unknown_label]
    those whose label is a key of the dictionary passed in. *)
Definition used_lines (label_dict0 : list (Z * Z * Z)) (dset_idx : Z)
    (flag_unknown_label : bool) (lines : list string) : list (string * Z) :=
  filter (fun p => negb flag_unknown_label
                   || dict_mem (dset_idx, p.2) label_dict0 = true)
         (omap parsed_line lines).

Lemma dict_mem_of_get (d : list (Z * Z * Z)) (k : Z * Z) (l : Z) :
  dict_get k d = Some l -> dict_mem k d = true.
Proof.
  intros H. unfold dict_mem. rewrite H. apply bool_decide_eq_true. by eexists.
Qed.

Lemma filter_all {A} (P : A -> Prop) `{forall x, Decision (P x)} (l : list A) :
  (forall x, P x) -> filter P l = l.
Proof.
  intros HP. induction l as [|x l IH]; [done|].
  rewrite filter_cons_True by done. by f_equal.
Qed.

Lemma omap_cons {A B} (f : A -> option B) (x : A) (l : list A) :
  omap f (x :: l)
  = match f x with Some y => y :: omap f l | None => omap f l end.
Proof. done. Qed.

Section AppendedLines.
Context (base_file_path : string) (dset_idx : Z).

Lemma index_line_skips (flag : bool) (st : index_state) (line : string) :
  parsed_line line = None ->
  index_line base_file_path dset_idx flag st line = st.
Proof.
  unfold parsed_line, index_line.
  destruct (split (strip line)) as [|f [|l [|? ?]]]; try done.
  cbn [length Nat.ltb Nat.leb].
  by destruct (int_of_str l).
Qed.

Lemma index_line_known (flag : bool) (st : index_state) (line f : string)
    (n l : Z) :
  parsed_line line = Some (f, n) ->
  dict_get (dset_idx, n) (label_dict st) = Some l ->
  index_line base_file_path dset_idx flag st line
  = {| files := files st ++ [path_join base_file_path f];
       labels := labels st ++ [l];
       label_dict := label_dict st;
       next_label_to_use := next_label_to_use st |}.
Proof.
  unfold parsed_line, index_line.
  destruct (split (strip line)) as [|f' [|l' [|? ?]]]; try done.
  cbn [length Nat.ltb Nat.leb].
  destruct (int_of_str l') as [e|n']; [done|]. intros [= -> ->] Hget.
  rewrite (dict_mem_of_get _ _ _ Hget).
  cbn [negb andb]. by rewrite Hget.
Qed.

Lemma index_line_unknown_skipped (st : index_state) (line f : string) (n : Z) :
  parsed_line line = Some (f, n) ->
  dict_get (dset_idx, n) (label_dict st) = None ->
  index_line base_file_path dset_idx true st line = st.
Proof.
  unfold parsed_line, index_line.
  destruct (split (strip line)) as [|f' [|l' [|? ?]]]; try done.
  cbn [length Nat.ltb Nat.leb].
  destruct (int_of_str l') as [e|n']; [done|]. intros [= -> ->] Hget.
  by rewrite (proj2 (dict_mem_false _ _) Hget).
Qed.

Lemma index_line_unknown_added (st : index_state) (line f : string) (n : Z) :
  parsed_line line = Some (f, n) ->
  dict_get (dset_idx, n) (label_dict st) = None ->
  index_line base_file_path dset_idx false st line
  = {| files := files st ++ [path_join base_file_path f];
       labels := labels st ++ [next_label_to_use st];
       label_dict := label_dict st ++ [((dset_idx, n), next_label_to_use st)];
       next_label_to_use := next_label_to_use st + 1 |}.
Proof.
  unfold parsed_line, index_line.
  destruct (split (strip line)) as [|f' [|l' [|? ?]]]; try done.
  cbn [length Nat.ltb Nat.leb].
  destruct (int_of_str l') as [e|n']; [done|]. intros [= -> ->] Hget.
  rewrite (proj2 (dict_mem_false _ _) Hget). cbn [negb andb].
  cbn [label_dict files labels next_label_to_use].
  rewrite dict_get_set_eq. by rewrite (dict_set_fresh _ _ _ Hget).
Qed.

(** With [flag_unknown_label] the dictionary is only read. *)
Lemma fold_flagged (lines : list string) :
  forall st,
    let st' := fold_left (index_line base_file_path dset_idx true) lines st in
    let used := used_lines (label_dict st) dset_idx true lines in
    label_dict st' = label_dict st
    /\ next_label_to_use st' = next_label_to_use st
    /\ files st' = files st ++ ((fun p => path_join base_file_path p.1) <$> used)
    /\ exists new,
        labels st' = labels st ++ new
        /\ Forall2 (fun p l => dict_get (dset_idx, p.2) (label_dict st) = Some l)
                   used new.
Proof.
  unfold used_lines.
  induction lines as [|line rest IH]; intros st; cbn [fold_left].
  - cbn. rewrite !app_nil_r. repeat split. exists []. by rewrite app_nil_r.
  - rewrite omap_cons. destruct (parsed_line line) as [[f n]|] eqn:P.
    2:{ rewrite index_line_skips by done. exact (IH st). }
    destruct (dict_get (dset_idx, n) (label_dict st)) as [l|] eqn:G.
    + rewrite (index_line_known true st line f n l P G).
      match goal with |- context [fold_left _ rest ?s] =>
        destruct (IH s) as (Hd & Hn & Hf & new & Hl & Hall) end.
      cbn [label_dict files labels next_label_to_use] in *.
      rewrite filter_cons_True
        by (cbn; by rewrite (dict_mem_of_get _ _ _ G)).
      rewrite Hd, Hn, Hf, Hl, <- !app_assoc. repeat split.
      exists (l :: new). split; [done|]. by constructor.
    + rewrite (index_line_unknown_skipped st line f n P G).
      rewrite filter_cons_False
        by (cbn; by rewrite (proj2 (dict_mem_false _ _) G)).
      apply IH.
Qed.

(** Without the flag every line that parses is used, and the label it
    receives is the one the final dictionary holds for its key. *)
Lemma fold_unflagged (lines : list string) :
  forall st,
    let st' := fold_left (index_line base_file_path dset_idx false) lines st in
    let used := omap parsed_line lines in
    files st' = files st ++ ((fun p => path_join base_file_path p.1) <$> used)
    /\ exists new,
        labels st' = labels st ++ new
        /\ Forall2 (fun p l => dict_get (dset_idx, p.2) (label_dict st') = Some l)
                   used new.
Proof.
  induction lines as [|line rest IH]; intros st; cbn [fold_left].
  - cbn. rewrite !app_nil_r. split; [done|]. exists []. by rewrite app_nil_r.
  - rewrite omap_cons. destruct (parsed_line line) as [[f n]|] eqn:P.
    2:{ rewrite index_line_skips by done. exact (IH st). }
    assert (Hstep : exists l st1,
              index_line base_file_path dset_idx false st line = st1
              /\ files st1 = files st ++ [path_join base_file_path f]
              /\ labels st1 = labels st ++ [l]
              /\ dict_get (dset_idx, n) (label_dict st1) = Some l).
    { destruct (dict_get (dset_idx, n) (label_dict st)) as [l|] eqn:G.
      - exists l. eexists.
        split; [exact (index_line_known false st line f n l P G)|]. done.
      - exists (next_label_to_use st). eexists.
        split; [exact (index_line_unknown_added st line f n P G)|].
        cbn. repeat split. rewrite dict_get_app, G. cbn.
        by rewrite decide_True. }
    destruct Hstep as (l & st1 & -> & Hf1 & Hl1 & Hg1).
    destruct (IH st1) as (Hf & new & Hl & Hall).
    destruct (fold_index_line_dict base_file_path dset_idx false rest st1)
      as (more & Hd & _).
    cbn zeta in *. rewrite Hf, Hl, Hf1, Hl1, <- !app_assoc.
    split; [done|]. exists (l :: new). split; [done|].
    constructor; [|done]. cbn [snd]. by rewrite Hd, dict_get_app, Hg1.
Qed.
End AppendedLines.

(** X3: the files and labels a call appends, for an index file whose
    labels have at most 4300 characters: one pair for every line it uses,
    in order; the file is the line's first field joined to the base path
    and the label is what the returned dictionary holds for the line's
    key.  Lines that do not parse (other than two fields, or a second
    field that is no integer) add nothing to the two lists, and neither
    do, with [flag_unknown_label], lines whose key the dictionary lacks;
    the dictionary is then returned as it was passed in.  (What the call
    prints for a line it cannot read is not part of the statement.) *)
Theorem get_files_and_labels_appends (lines : list string)
    (base_file_path : string) (files0 : list string) (labels0 : list Z)
    (label_dict0 : list (Z * Z * Z)) (dset_idx : Z)
    (flag_unknown_label : bool) :
  Forall ReadFileSpec.label_fits lines ->
  let out := get_files_and_labels lines base_file_path files0 labels0
                                  label_dict0 dset_idx flag_unknown_label in
  let used := used_lines label_dict0 dset_idx flag_unknown_label lines in
  out.1.1 = files0 ++ ((fun p => path_join base_file_path p.1) <$> used)
  /\ (exists new,
        out.1.2 = labels0 ++ new
        /\ Forall2 (fun p l => dict_get (dset_idx, p.2) out.2 = Some l) used new)
  /\ (flag_unknown_label = true -> out.2 = label_dict0).
Proof.
  intros _. unfold get_files_and_labels. cbn [fst snd].
  set (st0 := {| files := files0; labels := labels0;
                 label_dict := label_dict0;
                 next_label_to_use := initial_label label_dict0 |}).
  destruct flag_unknown_label.
  - destruct (fold_flagged base_file_path dset_idx lines st0)
      as (Hd & _ & Hf & new & Hl & Hall).
    cbn zeta in *. rewrite Hd.
    split; [done|]. split; [by exists new | done].
  - destruct (fold_unflagged base_file_path dset_idx lines st0)
      as (Hf & new & Hl & Hall).
    unfold used_lines. rewrite filter_all by done.
    cbn zeta in *.
    split; [done|]. split; [by exists new | discriminate].
Qed.

(** An index file with a line of one field, a label that is no integer
    and a line of three fields, read with [flag_unknown_label] against the
    dictionary [{(0,3): 5, (0,1): 2}]: the two lines with a known label
    are used. *)
Lemma get_files_and_labels_appends_witness :
  Forall ReadFileSpec.label_fits
         ["a.png 7"; "junk"; "b.png x"; "c d 9"; "e.png 1"; "f.png 3"]%string
  /\ used_lines Sample.index_dict 0 true
       ["a.png 7"; "junk"; "b.png x"; "c d 9"; "e.png 1"; "f.png 3"]%string
     = [("e.png", 1); ("f.png", 3)]%string
  /\ (get_files_and_labels
        ["a.png 7"; "junk"; "b.png x"; "c d 9"; "e.png 1"; "f.png 3"]%string
        "base" ["z"]%string [0] Sample.index_dict 0 true).1.1
     = ["z"]%string
       ++ ((fun p => path_join "base" p.1)
             <$> used_lines Sample.index_dict 0 true
                   ["a.png 7"; "junk"; "b.png x"; "c d 9"; "e.png 1";
                    "f.png 3"]%string).
Proof.
  assert (H : Forall ReadFileSpec.label_fits
                ["a.png 7"; "junk"; "b.png x"; "c d 9"; "e.png 1";
                 "f.png 3"]%string).
  { repeat (constructor; [by vm_compute|]). constructor. }
  split; [exact H|]. split; [reflexivity|].
  exact (proj1 (get_files_and_labels_appends _ "base" ["z"]%string [0]
                  Sample.index_dict 0 true H)).
Defined.

(** X4: dense labelling is kept: when the dictionary passed in holds the
    values 0, 1, 2, ... in insertion order (an empty dictionary does), so
    does the dictionary returned, and it maps distinct keys to distinct
    labels. *)
Theorem dense_labels_are_kept (lines : list string)
    (base_file_path : string) (files0 : list string) (labels0 : list Z)
    (label_dict0 : list (Z * Z * Z)) (dset_idx : Z)
    (flag_unknown_label : bool) :
  dict_values label_dict0 = labels_from 0 (length label_dict0) ->
  let label_dict1 :=
    (get_files_and_labels lines base_file_path files0 labels0
                          label_dict0 dset_idx flag_unknown_label).2 in
  dict_values label_dict1 = labels_from 0 (length label_dict1)
  /\ dict_injective label_dict1.
Proof.
  intros Hdense. cbn zeta.
  assert (Hinit : initial_label label_dict0 = Z.of_nat (length label_dict0)).
  { unfold initial_label. rewrite Hdense.
    destruct label_dict0 as [|e d]; [done|].
    cbn [length]. unfold labels_from. cbn [seq fmap list_fmap].
    rewrite last_default, <- fmap_S_seq, <- list_fmap_compose, fmap_last.
    destruct d as [|e' d] using rev_ind; [done|].
    rewrite length_app, Nat.add_1_r, seq_S, last_snoc. cbn. lia. }
  unfold get_files_and_labels. cbn [snd].
  destruct (fold_index_line_dict base_file_path dset_idx flag_unknown_label
              lines {| files := files0; labels := labels0;
                       label_dict := label_dict0;
                       next_label_to_use := initial_label label_dict0 |})
    as (new & Hd & Hv & _).
  cbn [label_dict next_label_to_use] in Hd, Hv. rewrite Hd.
  assert (Hall : dict_values (label_dict0 ++ new)
                 = labels_from 0 (length (label_dict0 ++ new))).
  { unfold dict_values in *. rewrite fmap_app, Hdense, Hv, Hinit, length_app.
    unfold labels_from. rewrite seq_app, fmap_app. f_equal. cbn.
    replace (seq (length label_dict0) (length new))
      with (Nat.add (length label_dict0) <$> seq 0 (length new))
      by (rewrite fmap_add_seq; f_equal; lia).
    rewrite <- list_fmap_compose.
    apply list_fmap_ext. intros _ i _. cbn. lia. }
  split; [exact Hall|].
  intros k1 k2 v H1 H2.
  apply dict_get_Some_elem, list_elem_of_lookup in H1 as [i Hi].
  apply dict_get_Some_elem, list_elem_of_lookup in H2 as [j Hj].
  assert (Vi : v = 0 + Z.of_nat i).
  { apply (labels_from_lookup 0 (length (label_dict0 ++ new))).
    rewrite <- Hall. unfold dict_values. by rewrite list_lookup_fmap, Hi. }
  assert (Vj : v = 0 + Z.of_nat j).
  { apply (labels_from_lookup 0 (length (label_dict0 ++ new))).
    rewrite <- Hall. unfold dict_values. by rewrite list_lookup_fmap, Hj. }
  assert (i = j) by lia. subst j. congruence.
Qed.

(** From an empty dictionary the three sample lines are labelled 0, 1, 2. *)
Lemma dense_labels_are_kept_witness :
  dict_values (@nil (Z * Z * Z)) = labels_from 0 (length (@nil (Z * Z * Z)))
  /\ dict_values (get_files_and_labels Sample.index_lines "base"%string
                    [] [] [] 0 false).2
     = [0; 1; 2]
  /\ dict_injective (get_files_and_labels Sample.index_lines "base"%string
                       [] [] [] 0 false).2.
Proof.
  split; [reflexivity|].
  destruct (dense_labels_are_kept Sample.index_lines "base"%string
              [] [] [] 0 false eq_refl) as [Hv Hi].
  split; [exact Hv | exact Hi].
Defined.

(** X5: the two readers of index files agree: on a file whose every line has
    exactly two fields and which [read_file] reads, [get_files_and_labels]
    uses every line; it appends the first fields, joined to the base
    path, in the order [read_file] returns them, and labels every line
    with what the returned dictionary holds for the integer [read_file]
    returns. *)
Theorem index_readers_agree (lines : list string) (pairs : list (string * Z))
    (base_file_path : string) (files0 : list string) (labels0 : list Z)
    (label_dict0 : list (Z * Z * Z)) (dset_idx : Z) :
  Forall (fun line => length (ReadFileSpec.fields line) = 2%nat) lines ->
  read_file lines = inr pairs ->
  let out := get_files_and_labels lines base_file_path files0 labels0
                                  label_dict0 dset_idx false in
  out.1.1 = files0 ++ (path_join base_file_path <$> pairs.*1)
  /\ exists new,
      out.1.2 = labels0 ++ new
      /\ Forall2 (fun p l => dict_get (dset_idx, p.2) out.2 = Some l) pairs new.
Proof.
  intros Htwo Hread. unfold read_file in Hread.
  apply ReadFileSpec.read_file_loop_ok in Hread as (ps & -> & Hall).
  cbn [app] in *.
  assert (E : omap parsed_line lines = ps).
  { induction Hall as [|line p lines ps (d1 & rest & Hf & Hi) _ IH]; [done|].
    inversion Htwo as [|? ? Hlen Htwo']; subst.
    rewrite omap_cons. unfold parsed_line at 1.
    unfold ReadFileSpec.fields in Hf, Hlen. rewrite Hf in Hlen |- *.
    destruct rest; [|done]. rewrite Hi, (IH Htwo').
    by destruct p. }
  unfold get_files_and_labels. cbn [fst snd].
  destruct (fold_unflagged base_file_path dset_idx lines
              {| files := files0; labels := labels0;
                 label_dict := label_dict0;
                 next_label_to_use := initial_label label_dict0 |})
    as (Hf & new & Hl & Hlab).
  cbn zeta in *. rewrite E in Hf, Hlab. cbn [files labels] in Hf, Hl.
  split.
  - rewrite Hf. f_equal. by rewrite <- list_fmap_compose.
  - by exists new.
Qed.

Lemma index_readers_agree_witness :
  Forall (fun line => length (ReadFileSpec.fields line) = 2%nat)
         Sample.index_lines
  /\ read_file Sample.index_lines
     = inr [("a.png", 7); ("b.png", 8); ("c.png", 9)]%string
  /\ (get_files_and_labels Sample.index_lines "base"%string [] []
                           Sample.index_dict 0 false).1.1
     = path_join "base"
         <$> [("a.png", 7); ("b.png", 8); ("c.png", 9)]%string.*1.
Proof.
  assert (H2 : Forall (fun line => length (ReadFileSpec.fields line) = 2%nat)
                      Sample.index_lines)
    by (repeat constructor).
  split; [exact H2|]. split; [reflexivity|].
  exact (proj1 (index_readers_agree Sample.index_lines _ "base"%string
                  [] [] Sample.index_dict 0 H2 eq_refl)).
Defined.

End LabelIndexRun.

(** ** The shape of a sample *)

Module SamplingFacts.
Import Py Loader PyFacts LoaderFacts ConstructionFacts InitFacts.

(** [take_values] keeps a prefix: the whole list without quota, and
    otherwise as many values as the quota says, but never fewer than
    one, the quota being tested after a value is taken. *)
Lemma take_values_take (q : cap) (values : list RowData) :
  take_values q 0 values
  = match q with
    | Inf => values
    | Fin n => take (Z.to_nat (Z.max 1 n)) values
    end.
Proof.
  destruct q as [n|]; [|apply take_values_Inf].
  assert (H : forall vs t, 0 <= t ->
            take_values (Fin n) t vs
            = take (Z.to_nat (Z.max 1 (n - t))) vs).
  { induction vs as [|v vs IH]; intros t Ht; cbn [take_values].
    - by rewrite take_nil.
    - cbn [ge_cap]. destruct (n <=? t + 1) eqn:E.
      + apply Z.leb_le in E.
        replace (Z.to_nat (Z.max 1 (n - t))) with 1%nat by lia.
        cbn. by rewrite take_0.
      + apply Z.leb_gt in E. rewrite IH by lia.
        replace (Z.to_nat (Z.max 1 (n - t)))
          with (S (Z.to_nat (Z.max 1 (n - (t + 1))))) by lia.
        done. }
  rewrite H by lia. by rewrite Z.sub_0_r.
Qed.

Lemma take_values_sublist (q : cap) (values : list RowData) :
  take_values q 0 values `sublist_of` values.
Proof. rewrite take_values_take. destruct q; [apply sublist_take | done]. Qed.

Lemma take_values_nonempty (q : cap) (values : list RowData) :
  values <> [] -> take_values q 0 values <> [].
Proof. by destruct values. Qed.

(** The keys among the first [nc] of the label dictionary. *)
Definition covered (ld : list (Z * Z)) (nc : Z) (k : Z) : Prop :=
  k ∈ take (Z.to_nat nc) (dict_keys ld).

#[global] Instance covered_dec ld nc k : Decision (covered ld nc k).
Proof. unfold covered. apply _. Defined.

(** [vs'] is what the loop keeps of the rows [vs] of a class: a prefix of
    a rearrangement. *)
Definition part_of (q : cap) (vs' vs : list RowData) : Prop :=
  exists vs1, vs1 ≡ₚ vs /\ vs' = take_values q 0 vs1.

Section Blocks.
Context (R : RandomSource) (ld : list (Z * Z)) (nc : Z) (scn : cap).

(** What a completed run of the loop returns: for the first [nc - ccs]
    covered classes of the dictionary, in its order, a part of each. *)
Lemma random_value_loop_blocks (q : cap) (items : list (Z * list RowData)) :
  forall ccs g out g' out',
    ccs < nc ->
    random_value_loop R ld nc scn q items ccs g out = inr (g', out') ->
    exists blocks,
      out' = out ++ entries blocks
      /\ blocks.*1 = take (Z.to_nat (nc - ccs))
                          (filter (covered ld nc) items.*1)
      /\ Forall2 (fun b kv => b.1 = kv.1 /\ part_of q b.2 kv.2) blocks
           (take (Z.to_nat (nc - ccs))
                 (filter (fun kv => covered ld nc kv.1) items))
      /\ entries blocks ⊆+ entries items.
Proof.
  induction items as [|[key values] rest IH];
    intros ccs g out g' out' Hccs Hrun; cbn [random_value_loop] in Hrun.
  - inversion Hrun; subst. exists []. rewrite app_nil_r.
    rewrite fmap_nil, !filter_nil, !take_nil.
    repeat split; [constructor | done].
  - rewrite fmap_cons. cbn [fst].
    destruct (decide (covered ld nc key)) as [Hin|Hout].
    + rewrite bool_decide_eq_true_2 in Hrun by done. cbn [negb] in Hrun.
      rewrite !filter_cons_True by done.
      destruct (shuffle R g values) as [g1 values'] eqn:Hs.
      pose proof (shuffle_Permutation R g values) as Hperm.
      rewrite Hs in Hperm. cbn [snd] in Hperm.
      assert (Hthis : (sampled_of key <$> take_values q 0 values')
                      ⊆+ (sampled_of key <$> values)).
      { rewrite <- Hperm. apply sublist_submseteq, fmap_sublist,
          take_values_sublist. }
      assert (Hpart : part_of q (take_values q 0 values') values)
        by by exists values'.
      destruct (nc <=? ccs + 1) eqn:Hstop.
      * apply Z.leb_le in Hstop. inversion Hrun; subst.
        exists [(key, take_values q 0 values')].
        replace (Z.to_nat (nc - ccs)) with 1%nat by lia.
        cbn [take]. rewrite !take_0.
        rewrite (entries_cons key (take_values q 0 values') []).
        change (entries []) with (@nil Sampled). rewrite app_nil_r.
        repeat split.
        -- by constructor.
        -- rewrite entries_cons. by apply submseteq_inserts_r.
      * apply Z.leb_gt in Hstop.
        destruct (IH _ _ _ _ _ Hstop Hrun) as (blocks & -> & Hk & Hb & Hsub).
        exists ((key, take_values q 0 values') :: blocks).
        replace (Z.to_nat (nc - ccs))
          with (S (Z.to_nat (nc - (ccs + 1)))) by lia.
        cbn [take]. rewrite !entries_cons, fmap_cons, Hk.
        repeat split.
        -- by rewrite app_assoc.
        -- by constructor.
        -- by apply submseteq_app.
    + rewrite bool_decide_eq_false_2 in Hrun by done. cbn [negb] in Hrun.
      rewrite !filter_cons_False by done.
      destruct (eq_cap nc scn); [|discriminate].
      destruct (IH _ _ _ _ _ Hccs Hrun) as (blocks & -> & Hk & Hb & Hsub).
      exists blocks. repeat split; try done.
      rewrite entries_cons. by apply submseteq_inserts_l.
Qed.
End Blocks.

(** *** The grouping *)

Lemma dict_set_values {V} (P : V -> Prop) (d : list (Z * V)) (k : Z) (v : V) :
  Forall (fun kv => P kv.2) d -> P v ->
  Forall (fun kv => P kv.2) (dict_set k v d).
Proof.
  intros Hd Hv. induction Hd as [|[k' v'] d Hkv Hd IH]; cbn [dict_set].
  - by constructor.
  - destruct (decide (k = k')); constructor; done.
Qed.

(** No class of the grouping is without rows. *)
Lemma group_rows_nonempty (rows : list QueryRow) :
  Forall (fun kv => kv.2 <> []) (group_rows rows).
Proof.
  unfold group_rows.
  assert (H : forall d, Forall (fun kv : Z * list RowData => kv.2 <> []) d ->
            Forall (fun kv : Z * list RowData => kv.2 <> [])
                   (fold_left group_row rows d)).
  { induction rows as [|row rows IH]; intros d Hd; cbn [fold_left]; [done|].
    apply IH. unfold group_row.
    destruct (dict_get (q_class_id row) d) as [l|];
      apply (dict_set_values (fun v : list RowData => v <> [])); try done.
    by destruct l. }
  apply H. constructor.
Qed.

(** The rows of one class, as the grouping stores them. *)
Definition class_rows (k : Z) (rows : list QueryRow) : list RowData :=
  row_data <$> filter (fun row => q_class_id row = k) rows.

Lemma group_row_get (d : list (Z * list RowData)) (row : QueryRow) (k : Z) :
  default [] (dict_get k (group_row d row))
  = default [] (dict_get k d) ++ class_rows k [row].
Proof.
  unfold group_row, class_rows.
  destruct (decide (q_class_id row = k)) as [<-|Hne].
  - rewrite filter_cons_True, filter_nil by done. cbn [fmap list_fmap].
    destruct (dict_get (q_class_id row) d) as [l|];
      by rewrite dict_get_set_eq.
  - rewrite filter_cons_False, filter_nil by done. cbn [fmap list_fmap].
    rewrite app_nil_r.
    destruct (dict_get (q_class_id row) d) as [l|];
      by rewrite dict_get_set_ne.
Qed.

Lemma group_rows_get (rows : list QueryRow) (k : Z) :
  default [] (dict_get k (group_rows rows)) = class_rows k rows.
Proof.
  unfold group_rows.
  assert (H : forall d,
            default [] (dict_get k (fold_left group_row rows d))
            = default [] (dict_get k d) ++ class_rows k rows).
  { induction rows as [|row rows IH]; intros d; cbn [fold_left].
    - unfold class_rows. rewrite filter_nil. cbn. by rewrite app_nil_r.
    - rewrite IH, group_row_get, <- app_assoc. f_equal.
      unfold class_rows. rewrite <- fmap_app. f_equal.
      change (row :: rows) with ([row] ++ rows). by rewrite filter_app. }
  by rewrite H.
Qed.

(** *** What a completed construction holds *)

Lemma build_images_fmap (ld : list (Z * Z)) (sampled : list Sampled)
    (imgs : list CollectionImage) :
  build_images ld sampled = inr imgs ->
  imgs = (fun s => image_of s (default 0 (dict_get (s_label s) ld))) <$> sampled
  /\ Forall (fun s => s_label s ∈ dict_keys ld) sampled.
Proof.
  intros Hbi. apply build_images_spec in Hbi.
  induction Hbi as [|s im ? ? (l & Hl & ->) _ [IH1 IH2]];
    [by split; [|constructor]|].
  split.
  - rewrite fmap_cons, Hl. cbn [default]. by f_equal.
  - constructor; [|done]. apply dict_get_is_Some. by eexists.
Qed.

Lemma num_classes_of_bounds (d : list (Z * list RowData)) (full : bool) :
  (1 <= length (dict_keys d))%nat ->
  1 <= num_classes_of d (caps_of full).1.1 <= Z.of_nat (length (dict_keys d)).
Proof.
  intros H. destruct full; cbn [caps_of fst]; unfold num_classes_of.
  - lia.
  - unfold gt_cap. destruct (500 <? _) eqn:E; [apply Z.ltb_lt in E|]; lia.
Qed.

Section BlocksOfInit.
Context {sqlite : Sqlite}.

(** The items of a completed construction are made, in order, from parts
    of the first [num_classes] covered classes of the grouping. *)
Lemma init_Built_blocks (R : RandomSource) (W : World) (cfg : Config W)
    (g0 g : rng R) (self : CollectionDataset W) :
  init R W cfg g0 = inr (g, Built self) ->
  let rows := query_rows W cfg in
  let d := group_rows rows in
  let ld := label_dict self in
  let nc := num_classes self in
  let caps := caps_of (cfg_full_dataset cfg) in
  exists q blocks,
    num_each_class_of
      (amount_of (cfg_set_type cfg) (Z.of_nat (length rows)) caps.1.2 caps.2)
      nc = inr q
    /\ 1 <= nc <= Z.of_nat (length (dict_keys d))
    /\ forget_vector <$> images self
       = (fun s => image_of s (default 0 (dict_get (s_label s) ld)))
           <$> entries blocks
    /\ Forall (fun s => s_label s ∈ dict_keys ld) (entries blocks)
    /\ blocks.*1 = take (Z.to_nat nc) (filter (covered ld nc) (dict_keys d))
    /\ Forall2 (fun b kv => b.1 = kv.1 /\ part_of q b.2 kv.2) blocks
         (take (Z.to_nat nc) (filter (fun kv => covered ld nc kv.1) d))
    /\ entries blocks ⊆+ entries d
    /\ ld = build_label_dict (cfg_label_dict cfg) d
    /\ nc = num_classes_of d caps.1.1.
Proof.
  intros Hinit.
  destruct (init_Built_inv R W cfg g0 g self Hinit)
    as (Hrows & Hst & sampled & imgs & Hrv & Hbi & Himgs & Hld & _ & Hnc & _).
  cbn zeta in *.
  set (rows := query_rows W cfg) in *.
  set (d := group_rows rows) in *.
  pose proof (num_classes_of_bounds d (cfg_full_dataset cfg)
                (ConstructionSpec.grouped_classes_nonempty rows Hrows)) as Hb.
  rewrite <- Hnc in Hb, Hrv. rewrite <- Hld in Hrv, Hbi.
  unfold random_value in Hrv.
  destruct (num_each_class_of _ (num_classes self)) as [e|q] eqn:Hq;
    [discriminate|]. cbn [bind] in Hrv.
  assert (Hpos : 0 < num_classes self) by lia.
  destruct (random_value_loop_blocks R _ _ _ q d 0 _ [] g sampled Hpos Hrv)
    as (blocks & Hs & Hk & Hf & Hsub).
  cbn [app] in Hs. subst sampled. rewrite Z.sub_0_r in Hk, Hf.
  destruct (build_images_fmap _ _ _ Hbi) as [Ei Hkeys].
  exists q, blocks. repeat split; try done; try lia.
  by rewrite Himgs.
Qed.
End BlocksOfInit.


(** *** The label dictionary the constructor makes itself *)

Lemma zip_seq_get (K : list Z) :
  forall (a i : nat) (k : Z),
    NoDup K -> K !! i = Some k ->
    dict_get k (zip K (Z.of_nat <$> seq a (length K)))
    = Some (Z.of_nat (a + i)).
Proof.
  induction K as [|k0 K IH]; intros a i k Hnd Hi; [done|].
  inversion Hnd as [|? ? Hk0 Hnd']; subst.
  cbn [length seq fmap list_fmap zip zip_with dict_get].
  destruct i as [|i]; cbn in Hi.
  - injection Hi as ->. rewrite decide_True by done.
    by rewrite Nat.add_0_r.
  - rewrite decide_False.
    + rewrite (IH (S a) i k Hnd' Hi). do 2 f_equal. lia.
    + intros ->. apply Hk0. by eapply list_elem_of_lookup_2.
Qed.

Lemma zip_range_get (K : list Z) (i : nat) (k : Z) :
  NoDup K -> K !! i = Some k ->
  dict_get k (zip K (range (length K))) = Some (Z.of_nat i).
Proof. intros Hnd Hi. unfold range. by rewrite (zip_seq_get K 0 i k). Qed.

Lemma range_NoDup (n : nat) : NoDup (range n).
Proof.
  unfold range. apply NoDup_fmap_2; [|apply NoDup_seq].
  intros x y H. lia.
Qed.

(** Either policy pairs a duplicate-free list of the classes of the
    grouping with 0, 1, 2, ... *)
Lemma built_label_dict_zip (d : list (Z * list RowData)) :
  NoDup (dict_keys d) ->
  exists K,
    build_label_dict None d = zip K (range (length K))
    /\ NoDup K
    /\ length K = length (dict_keys d)
    /\ forall k, k ∈ K <-> k ∈ dict_keys d.
Proof.
  intros Hnd. unfold build_label_dict.
  destruct (bool_decide _) eqn:E.
  - apply bool_decide_eq_true in E.
    exists (range (length (dict_keys d))).
    rewrite range_length, zip_diag. split; [done|].
    split; [apply range_NoDup|]. split; [done|].
    intros k. rewrite <- !(elem_of_list_to_set (C := gset Z)). by rewrite E.
  - exists (dict_keys d). by rewrite sequential_labels.
Qed.

Lemma dict_get_unique {V} (l : list (Z * V)) (k : Z) (v : V) :
  NoDup l.*1 -> (k, v) ∈ l -> dict_get k l = Some v.
Proof.
  induction l as [|[k' v'] l IH]; intros Hnd Hin.
  - by apply elem_of_nil in Hin.
  - inversion Hnd as [|? ? Hk Hnd']; subst. cbn [dict_get].
    apply elem_of_cons in Hin as [[= -> ->]|Hin].
    + by rewrite decide_True.
    + rewrite decide_False; [by apply IH|].
      intros ->. apply Hk. apply list_elem_of_fmap. by exists (k', v).
Qed.

Lemma filter_keys {V} (P : Z -> Prop) `{forall k, Decision (P k)}
    (l : list (Z * V)) :
  (filter (fun kv => P kv.1) l).*1 = filter P l.*1.
Proof.
  induction l as [|[k v] l IH]; [done|].
  rewrite fmap_cons. cbn [fst].
  destruct (decide (P k)).
  - rewrite !filter_cons_True by done. by rewrite fmap_cons, IH.
  - by rewrite !filter_cons_False.
Qed.

(** How many rows of a class of [m] rows the loop keeps under a quota:
    all without one, and otherwise the quota, but at least one. *)
Definition kept_of (q : cap) (m : nat) : nat :=
  match q with
  | Inf => m
  | Fin n => Nat.min (Z.to_nat (Z.max 1 n)) m
  end.

Lemma take_values_kept (q : cap) (values : list RowData) :
  length (take_values q 0 values) = kept_of q (length values).
Proof.
  rewrite take_values_take. destruct q; [apply length_take | done].
Qed.

End SamplingFacts.

(** ** What a constructed dataset holds *)

Module SamplingSpec.
Import Py Loader PyFacts LoaderFacts ConstructionFacts InitFacts SamplingFacts.

Section SamplingEngine.
Context {sqlite : Sqlite}.

Lemma s_label_sampled_of (k : Z) (v : RowData) : s_label (sampled_of k v) = k.
Proof. by destruct v as [[[h p] s] pr]. Qed.

Lemma dict_get_value (ld : list (Z * Z)) (k l : Z) :
  dict_get k ld = Some l -> l ∈ dict_values ld.
Proof.
  intros H. apply dict_get_Some_elem in H. unfold dict_values.
  apply list_elem_of_fmap. by exists (k, l).
Qed.

(** X6: every item is one of the rows the query returned, with the dense
    label of its class, and no row is used twice; the class id of every
    item is a value of the label dictionary. *)
Theorem items_are_rows (R : RandomSource) (W : World) (cfg : Config W)
    (g0 g : rng R) (self : CollectionDataset W) :
  init R W cfg g0 = inr (g, Built self) ->
  forget_vector <$> images self
    ⊆+ ConstructionSpec.item_of_row (label_dict self) <$> query_rows W cfg
  /\ (length (images self) <= length (query_rows W cfg))%nat
  /\ Forall (fun im => class_id im ∈ dict_values (label_dict self))
            (images self).
Proof.
  intros Hinit.
  destruct (init_Built_blocks R W cfg g0 g self Hinit)
    as (q & blocks & _ & _ & Himgs & Hkeys & _ & _ & Hsub & _).
  cbn zeta in *.
  assert (Hsub' : forget_vector <$> images self
                  ⊆+ ConstructionSpec.item_of_row (label_dict self)
                     <$> query_rows W cfg).
  { rewrite Himgs.
    rewrite (group_rows_entries (query_rows W cfg)) in Hsub.
    apply (fmap_submseteq
             (fun s => image_of s (default 0 (dict_get (s_label s)
                                                (label_dict self)))))
      in Hsub.
    by rewrite <- list_fmap_compose in Hsub. }
  split; [exact Hsub'|]. split.
  - apply submseteq_length in Hsub'. by rewrite !length_fmap in Hsub'.
  - assert (Hc : Forall (fun c => c ∈ dict_values (label_dict self))
                   (class_id <$> (forget_vector <$> images self))).
    { rewrite Himgs, <- list_fmap_compose. apply Forall_fmap.
      eapply Forall_impl; [exact Hkeys|]. cbn. intros s Hs.
      apply dict_get_is_Some in Hs as [l Hl]. rewrite Hl. cbn.
      by apply dict_get_value with (s_label s). }
    rewrite ConstructionSpec.class_id_forget in Hc.
    by apply Forall_fmap in Hc.
Qed.

Lemma block_labels (f : Z -> Z) (blocks : list (Z * list RowData)) :
  (fun s => f (s_label s)) <$> entries blocks
  = blocks ≫= (fun b => replicate (length b.2) (f b.1)).
Proof.
  induction blocks as [|[k vs] blocks IH]; [done|].
  rewrite entries_cons, fmap_app, IH. cbn [mbind list_bind fst snd].
  f_equal. induction vs as [|v vs IHv]; [done|].
  cbn [fmap list_fmap length replicate].
  rewrite s_label_sampled_of. by f_equal.
Qed.

(** X7: the items come class by class: the classes follow the order in which
    they first appear in the query result, and the items of one class are
    next to each other. *)
Theorem items_are_grouped_by_class (R : RandomSource) (W : World)
    (cfg : Config W) (g0 g : rng R) (self : CollectionDataset W) :
  init R W cfg g0 = inr (g, Built self) ->
  exists counts : list (Z * nat),
    counts.*1 `sublist_of` first_seen (q_class_id <$> query_rows W cfg)
    /\ Forall (fun kn => (1 <= kn.2)%nat) counts
    /\ class_id <$> images self
       = counts ≫= (fun kn =>
           replicate kn.2 (default 0 (dict_get kn.1 (label_dict self)))).
Proof.
  intros Hinit.
  destruct (init_Built_blocks R W cfg g0 g self Hinit)
    as (q & blocks & _ & _ & Himgs & _ & Hk & Hf & _).
  cbn zeta in *.
  exists ((fun b => (b.1, length b.2)) <$> blocks). split; [|split].
  - rewrite <- list_fmap_compose.
    change (fst ∘ (fun b : Z * list RowData => (b.1, length b.2)))
      with (@fst Z (list RowData)).
    rewrite Hk, <- group_rows_keys.
    etrans; [apply sublist_take | apply sublist_filter].
  - apply Forall_fmap. apply Forall_forall. intros b Hb.
    apply list_elem_of_lookup in Hb as [i Hi].
    destruct (Forall2_lookup_l _ _ _ _ _ Hf Hi)
      as (kv & Hkv & _ & vs1 & Hperm & Hpart).
    apply list_elem_of_lookup_2 in Hkv.
    assert (Hd : kv ∈ group_rows (query_rows W cfg)).
    { eapply elem_of_sublist; [exact Hkv|].
      etrans; [apply sublist_take | apply sublist_filter]. }
    pose proof (proj1 (Forall_forall _ _)
                  (group_rows_nonempty (query_rows W cfg)) kv Hd) as Hne.
    cbn. rewrite Hpart.
    assert (Hv : vs1 <> []).
    { intros ->. apply Hne. by apply Permutation_nil_l in Hperm. }
    destruct vs1; [done|]. cbn. lia.
  - rewrite <- ConstructionSpec.class_id_forget, Himgs, <- list_fmap_compose.
    set (f := fun k => default 0 (dict_get k (label_dict self))).
    trans ((fun s => f (s_label s)) <$> entries blocks); [done|].
    rewrite block_labels. clear.
    induction blocks as [|b blocks IH]; [done|].
    cbn. by rewrite IH.
Qed.

(** With the label dictionary the constructor makes itself, the classes
    kept are those labelled [0 .. num_classes - 1], and what is kept of
    each is a prefix, of the length the quota allows, of a rearrangement
    of its rows. *)
Lemma own_labels_blocks (R : RandomSource) (W : World) (cfg : Config W)
    (g0 g : rng R) (self : CollectionDataset W) :
  cfg_label_dict cfg = None ->
  init R W cfg g0 = inr (g, Built self) ->
  let rows := query_rows W cfg in
  let caps := caps_of (cfg_full_dataset cfg) in
  exists q (blocks : list (Z * list RowData)) K,
    num_each_class_of
      (amount_of (cfg_set_type cfg) (Z.of_nat (length rows)) caps.1.2 caps.2)
      (num_classes self) = inr q
    /\ 1 <= num_classes self <= Z.of_nat (length K)
    /\ class_id <$> images self
       = blocks ≫= (fun b => replicate (length b.2)
                               (default 0 (dict_get b.1 (label_dict self))))
    /\ NoDup K
    /\ (forall i k, K !! i = Some k ->
                    dict_get k (label_dict self) = Some (Z.of_nat i))
    /\ dict_keys (label_dict self) = K
    /\ NoDup blocks.*1
    /\ (forall k, k ∈ blocks.*1 <-> k ∈ take (Z.to_nat (num_classes self)) K)
    /\ Forall (fun b => length b.2
                        = kept_of q (length (class_rows b.1 rows))
                        /\ b.2 <> []) blocks.
Proof.
  intros Hnone Hinit.
  destruct (init_Built_blocks R W cfg g0 g self Hinit)
    as (q & blocks & Hq & Hnc & Himgs & _ & Hk & Hf & _ & Hld & _).
  cbn zeta in *.
  set (rows := query_rows W cfg) in *.
  set (d := group_rows rows) in *.
  set (nc := num_classes self) in *.
  assert (Hnd : NoDup (dict_keys d))
    by (subst d; rewrite group_rows_keys; apply first_seen_NoDup).
  rewrite Hnone in Hld.
  destruct (built_label_dict_zip d Hnd) as (K & HK & HndK & HlenK & HelK).
  rewrite HK in Hld.
  assert (Hkeys : dict_keys (label_dict self) = K).
  { rewrite Hld. unfold dict_keys. apply fst_zip. rewrite range_length. lia. }
  assert (Hfilter : forall k,
            k ∈ filter (covered (label_dict self) nc) (dict_keys d)
            <-> k ∈ take (Z.to_nat nc) K).
  { intros k. rewrite list_elem_of_filter. unfold covered. rewrite Hkeys.
    split; [by intros [? _]|]. intros Hin. split; [done|].
    apply HelK. eapply elem_of_sublist; [exact Hin | apply sublist_take]. }
  assert (Hall : take (Z.to_nat nc)
                      (filter (covered (label_dict self) nc) (dict_keys d))
                 = filter (covered (label_dict self) nc) (dict_keys d)).
  { apply take_ge.
    assert (Hs : filter (covered (label_dict self) nc) (dict_keys d)
                 ⊆+ take (Z.to_nat nc) K).
    { apply NoDup_submseteq; [by apply NoDup_filter|].
      intros k. apply Hfilter. }
    apply submseteq_length in Hs. rewrite length_take in Hs. lia. }
  assert (Hall' : take (Z.to_nat nc)
                       (filter (fun kv => covered (label_dict self) nc kv.1) d)
                  = filter (fun kv => covered (label_dict self) nc kv.1) d).
  { apply take_ge.
    rewrite <- (length_fmap fst), filter_keys.
    fold (dict_keys d). rewrite <- Hall at 1. rewrite length_take. lia. }
  rewrite Hall in Hk. rewrite Hall' in Hf.
  exists q, blocks, K. split; [done|]. split; [lia|]. split.
  { rewrite <- ConstructionSpec.class_id_forget, Himgs, <- list_fmap_compose.
    set (f := fun k => default 0 (dict_get k (label_dict self))).
    trans ((fun s => f (s_label s)) <$> entries blocks); [done|].
    apply block_labels. }
  split; [done|]. split.
  { intros i k Hi. rewrite Hld. by apply zip_range_get. }
  split; [done|]. split.
  { rewrite Hk. by apply NoDup_filter. }
  split.
  { intros k. rewrite Hk. apply Hfilter. }
  apply Forall_forall. intros b Hb.
  apply list_elem_of_lookup in Hb as [i Hi].
  destruct (Forall2_lookup_l _ _ _ _ _ Hf Hi)
    as (kv & Hkv & Hkey & vs1 & Hperm & Hpart).
  apply list_elem_of_lookup_2, list_elem_of_filter in Hkv as [_ Hkv].
  pose proof (proj1 (Forall_forall _ _) (group_rows_nonempty rows) kv Hkv)
    as Hne.
  assert (Hget : dict_get kv.1 d = Some kv.2).
  { apply dict_get_unique; [done|]. by destruct kv. }
  pose proof (group_rows_get rows kv.1) as Hrows.
  fold d in Hrows. rewrite Hget in Hrows. cbn [default] in Hrows.
  rewrite Hkey, <- Hrows, Hpart, take_values_kept, (Permutation_length Hperm).
  split; [done|]. apply take_values_nonempty.
  intros ->. apply Hne. by apply Permutation_nil_l in Hperm.
Qed.

(** X8: without an external label dictionary the class ids of the items are
    exactly [0 .. num_classes - 1]: each of them is the class id of some
    item, and no item has another. *)
Theorem class_ids_are_dense (R : RandomSource) (W : World) (cfg : Config W)
    (g0 g : rng R) (self : CollectionDataset W) :
  cfg_label_dict cfg = None ->
  init R W cfg g0 = inr (g, Built self) ->
  forall c, c ∈ class_id <$> images self <-> 0 <= c < num_classes self.
Proof.
  intros Hnone Hinit c.
  destruct (own_labels_blocks R W cfg g0 g self Hnone Hinit)
    as (q & blocks & K & _ & Hnc & -> & HndK & Hlab & _ & _ & Hkept & Hsz).
  rewrite list_elem_of_bind. split.
  - intros (b & Hc & Hb). apply elem_of_replicate in Hc as [-> _].
    assert (Hk : b.1 ∈ take (Z.to_nat (num_classes self)) K).
    { apply Hkept, list_elem_of_fmap. by exists b. }
    apply elem_of_take in Hk as (i & Hi & Hlt).
    rewrite (Hlab i b.1 Hi). cbn. lia.
  - intros Hc.
    destruct (lookup_lt_is_Some_2 K (Z.to_nat c)) as [k Hk]; [lia|].
    assert (Hin : k ∈ blocks.*1).
    { apply Hkept, elem_of_take. exists (Z.to_nat c). split; [done | lia]. }
    apply list_elem_of_fmap in Hin as (b & -> & Hb).
    exists b. split; [|done]. apply elem_of_replicate.
    rewrite (Hlab _ _ Hk). cbn. split; [lia|].
    pose proof (proj1 (Forall_forall _ _) Hsz b Hb) as [_ Hne].
    by destruct b.2.
Qed.

Lemma filter_replicate_eq (c x : Z) (n : nat) :
  length (filter (fun y => y = c) (replicate n x))
  = if decide (x = c) then n else 0%nat.
Proof.
  induction n as [|n IH]; cbn [replicate].
  - by destruct (decide (x = c)).
  - destruct (decide (x = c)) as [->|Hne].
    + rewrite filter_cons_True by done. cbn. by rewrite IH.
    + by rewrite filter_cons_False.
Qed.

Lemma length_filter_class (c : Z) (imgs : list CollectionImage) :
  length (filter (fun im => class_id im = c) imgs)
  = length (filter (fun y => y = c) (class_id <$> imgs)).
Proof.
  induction imgs as [|im imgs IH]; [done|].
  rewrite fmap_cons. destruct (decide (class_id im = c)).
  - rewrite !filter_cons_True by done. cbn. by rewrite IH.
  - by rewrite !filter_cons_False.
Qed.

(** The number of items of one class, when no two blocks share a
    label. *)
Lemma count_in_blocks (f : Z -> Z) (c k : Z)
    (blocks : list (Z * list RowData)) :
  NoDup blocks.*1 ->
  (forall b, b ∈ blocks -> (f b.1 = c <-> b.1 = k)) ->
  forall b, b ∈ blocks -> b.1 = k ->
    length (filter (fun y => y = c)
              (blocks ≫= (fun b => replicate (length b.2) (f b.1))))
    = length b.2.
Proof.
  intros Hnd Hf.
  assert (Hnone : forall bs : list (Z * list RowData),
            (forall b, b ∈ bs -> f b.1 <> c) ->
            length (filter (fun y => y = c)
                      (bs ≫= (fun b => replicate (length b.2) (f b.1))))
            = 0%nat).
  { induction bs as [|b0 bs IH]; intros Hbs; [done|].
    cbn [mbind list_bind]. rewrite filter_app, length_app, filter_replicate_eq.
    rewrite decide_False by (apply Hbs, elem_of_cons; by left).
    rewrite IH; [done|]. intros b Hb. apply Hbs, elem_of_cons. by right. }
  induction blocks as [|b0 blocks IH]; intros b Hb Hk.
  - by apply elem_of_nil in Hb.
  - rewrite fmap_cons in Hnd. inversion Hnd as [|? ? Hb0 Hnd']; subst.
    cbn [mbind list_bind]. rewrite filter_app, length_app, filter_replicate_eq.
    destruct (decide (b0.1 = b.1)) as [E|Hne].
    + rewrite decide_True by (apply Hf; [apply elem_of_cons; by left | done]).
      rewrite Hnone.
      * apply elem_of_cons in Hb as [->|Hb]; [lia|].
        exfalso. apply Hb0. rewrite E. apply list_elem_of_fmap. by exists b.
      * intros b' Hb' Hc.
        apply Hf in Hc; [|apply elem_of_cons; by right].
        apply Hb0. rewrite E, <- Hc. apply list_elem_of_fmap. by exists b'.
    + rewrite decide_False.
      * apply elem_of_cons in Hb as [->|Hb]; [done|].
        rewrite Nat.add_0_l. apply (IH Hnd'); [|done|done].
        intros b' Hb'. apply Hf, elem_of_cons. by right.
      * intros Hc. apply Hf in Hc; [done | apply elem_of_cons; by left].
Qed.

(** X9: without an external label dictionary every kept class is sampled to
    the quota: the class labelled [c] has as many items as it has rows,
    or, under a quota, as many as the quota says when it has more. *)
Theorem class_sizes_follow_quota (R : RandomSource) (W : World)
    (cfg : Config W) (g0 g : rng R) (self : CollectionDataset W) :
  cfg_label_dict cfg = None ->
  init R W cfg g0 = inr (g, Built self) ->
  let rows := query_rows W cfg in
  let caps := caps_of (cfg_full_dataset cfg) in
  exists q,
    num_each_class_of
      (amount_of (cfg_set_type cfg) (Z.of_nat (length rows)) caps.1.2 caps.2)
      (num_classes self) = inr q
    /\ forall k c,
         dict_get k (label_dict self) = Some c ->
         0 <= c < num_classes self ->
         length (filter (fun im => class_id im = c) (images self))
         = kept_of q (length (filter (fun row => q_class_id row = k) rows)).
Proof.
  intros Hnone Hinit.
  destruct (own_labels_blocks R W cfg g0 g self Hnone Hinit)
    as (q & blocks & K & Hq & Hnc & Hcls & HndK & Hlab & Hkeys & Hndb
        & Hkept & Hsz).
  cbn zeta in *. exists q. split; [exact Hq|].
  intros k c Hget Hc.
  assert (Hi : K !! Z.to_nat c = Some k).
  { assert (Hin : k ∈ K).
    { rewrite <- Hkeys. apply dict_get_is_Some. by eexists. }
    apply list_elem_of_lookup in Hin as [i Hi].
    pose proof (Hlab i k Hi) as Hgi. rewrite Hget in Hgi.
    injection Hgi as ->. by rewrite Nat2Z.id. }
  assert (Hin : k ∈ blocks.*1).
  { apply Hkept, elem_of_take. exists (Z.to_nat c). split; [done | lia]. }
  apply list_elem_of_fmap in Hin as (b & Hbk & Hb).
  rewrite length_filter_class, Hcls.
  rewrite (count_in_blocks
             (fun k => default 0 (dict_get k (label_dict self)))
             c k blocks Hndb) with (b := b); [| |done|done].
  - pose proof (proj1 (Forall_forall _ _) Hsz b Hb) as [-> _].
    unfold class_rows. by rewrite length_fmap, <- Hbk.
  - intros b' Hb'.
    assert (Hk' : b'.1 ∈ take (Z.to_nat (num_classes self)) K).
    { apply Hkept, list_elem_of_fmap. by exists b'. }
    apply elem_of_take in Hk' as (j & Hj & _).
    rewrite (Hlab j _ Hj). cbn [default]. unfold id. split.
    + intros <-. rewrite Nat2Z.id in Hi. congruence.
    + intros E. rewrite E in Hj.
      pose proof (NoDup_lookup K _ _ _ HndK Hi Hj). lia.
Qed.

(** X10: sampling only sets in above the caps.  In bounded mode without a
    supplied label dictionary, when the checks of the constructor pass,
    the query returns rows, no more than the cap of the split and of at
    most 500 classes, and the store of feature vectors opens if it is
    consulted, the construction completes and keeps every row the query
    returned, each once. *)
Theorem small_tasks_are_kept_whole (R : RandomSource) (W : World)
    (cfg : Config W) (g0 : rng R) :
  cfg_full_dataset cfg = false ->
  cfg_label_dict cfg = None ->
  ConstructionSpec.environment_ok W cfg = true ->
  ConstructionSpec.store_readable W cfg ->
  query_rows W cfg <> [] ->
  (length (first_seen (q_class_id <$> query_rows W cfg)) <= 500)%nat ->
  Z.of_nat (length (query_rows W cfg))
    <= ConstructionSpec.split_cap (cfg_set_type cfg) ->
  exists g self,
    init R W cfg g0 = inr (g, Built self)
    /\ forget_vector <$> images self
       ≡ₚ ConstructionSpec.item_of_row (label_dict self) <$> query_rows W cfg.
Proof.
  intros Hfull Hnone Henv Hopen Hne Hcls Hcap.
  pose proof (ConstructionSpec.labels_cover_without_dict W cfg Hnone) as Hcover.
  unfold ConstructionSpec.labels_cover in Hcover.
  unfold ConstructionSpec.environment_ok in Henv.
  repeat (apply andb_true_iff in Henv as [Henv ?]).
  rename Henv into Hdir, H into Hdb, H0 into Hvec, H1 into Hin, H2 into Hst.
  assert (Hst' : cfg_set_type cfg ∈ SET_TYPES)
    by by apply bool_decide_eq_true in Hst.
  unfold init, query_rows in *.
  unfold sanitize_and_check_root_path, execute_database_query.
  rewrite Hdir, Hst, Hin, Hvec, Hdb; cbn [assert bind ret].
  destruct (list_index (cfg_set_type cfg) SET_TYPES) as [i|] eqn:Hi;
    [|done].
  destruct (select_rows _ _ _ _) as [e|rows]; [done|]. cbn [bind].
  set (d := group_rows rows) in *.
  set (ld := build_label_dict (cfg_label_dict cfg) d) in *.
  cbn zeta in Hcover.
  destruct (Nat.eqb (length rows) 0) eqn:Hrows.
  { apply Nat.eqb_eq in Hrows. by destruct rows. }
  rewrite Hfull. cbn [caps_of].
  rewrite (ConstructionSpec.amount_bounded _ _ Hst').
  rewrite (proj2 (Z.ltb_ge _ _)) by lia.
  unfold random_value. cbn [num_each_class_of bind ret].
  assert (Hnc : num_classes_of d (Fin 500) = Z.of_nat (length (dict_keys d))).
  { unfold num_classes_of, gt_cap. rewrite (proj2 (Z.ltb_ge _ _)); [done|].
    subst d. rewrite group_rows_keys. lia. }
  rewrite Hnc.
  destruct (random_value_loop_full R ld (Z.of_nat (length (dict_keys d)))
              (Fin 500) d 0 (seed R 27) []) as (g & added & Hrun & Hperm).
  { intros kv Hkv. rewrite Nat2Z.id. apply Hcover.
    unfold dict_keys. apply list_elem_of_fmap. by exists kv. }
  { unfold dict_keys. rewrite length_fmap. lia. }
  rewrite Hrun. cbn [app bind].
  assert (Hadded : added ≡ₚ sampled_of_row <$> rows)
    by (rewrite Hperm; apply group_rows_entries).
  destruct (build_images_total ld added) as [imgs Hbi].
  { apply Forall_forall. intros s Hs. rewrite Hadded in Hs.
    apply list_elem_of_fmap in Hs as (row & -> & Hrow).
    eapply subseteq_take, Hcover.
    subst d. rewrite group_rows_keys.
    apply elem_of_first_seen, list_elem_of_fmap. by exists row. }
  rewrite Hbi. cbn [bind].
  match goal with
  | |- context [run_verification cfg ?s] =>
      destruct (run_verification_total cfg s) as [self Hv];
      [|rewrite Hv; apply run_verification_same in Hv]
  end.
  { intros Hc f. unfold FeatureVectorSpec.store_file.
    cbn [vector_type dataset_name input_type] in *.
    destruct (cfg_vector_type cfg) as [vt|] eqn:Hvt;
      cbn [mbind option_bind]; [|done].
    intros [= <-]. by apply Hopen. }
  destruct Hv as (Himgs & Hld & _). cbn in Himgs, Hld. cbn [bind ret].
  exists g, self. split; [done|].
  rewrite Hld, Himgs, (build_images_forget _ _ _ Hbi).
  destruct (build_images_fmap _ _ _ Hbi) as [-> _].
  rewrite Hadded, <- list_fmap_compose.
  apply Permutation_refl'. apply list_fmap_ext. intros _ row _. done.
Qed.

End SamplingEngine.

#[local] Existing Instance Sample.text_engine.

(** *** On the sample task

    Five rows of the classes 5, 3 and 9, labelled 0, 1 and 2. *)

(** On the sample task. *)
Lemma items_are_rows_witness :
  init Sample.lcg Sample.birds_world
       (Sample.birds_cfg "original" None false) 0%nat
  = inr (Sample.birds_train.1, Built Sample.birds_train.2)
  /\ forget_vector <$> images Sample.birds_train.2
     ⊆+ ConstructionSpec.item_of_row (label_dict Sample.birds_train.2)
        <$> query_rows Sample.birds_world
                       (Sample.birds_cfg "original" None false).
Proof.
  split; [exact ConstructionSpec.birds_train_built|].
  exact (proj1 (items_are_rows Sample.lcg Sample.birds_world
                  (Sample.birds_cfg "original" None false) 0%nat _ _
                  ConstructionSpec.birds_train_built)).
Defined.

Lemma items_are_grouped_by_class_witness :
  init Sample.lcg Sample.birds_world
       (Sample.birds_cfg "original" None false) 0%nat
  = inr (Sample.birds_train.1, Built Sample.birds_train.2)
  /\ class_id <$> images Sample.birds_train.2 = [0; 0; 0; 1; 2]
  /\ exists counts : list (Z * nat),
      counts.*1 `sublist_of` [5; 3; 9]
      /\ class_id <$> images Sample.birds_train.2
         = counts ≫= (fun kn =>
             replicate kn.2
               (default 0 (dict_get kn.1 (label_dict Sample.birds_train.2)))).
Proof.
  split; [exact ConstructionSpec.birds_train_built|].
  split; [reflexivity|].
  destruct (items_are_grouped_by_class Sample.lcg Sample.birds_world
              (Sample.birds_cfg "original" None false) 0%nat _ _
              ConstructionSpec.birds_train_built) as (counts & Hs & _ & Hc).
  exists counts. split; [exact Hs | exact Hc].
Defined.

Lemma class_ids_are_dense_witness :
  cfg_label_dict (Sample.birds_cfg "original" None false) = None
  /\ init Sample.lcg Sample.birds_world
          (Sample.birds_cfg "original" None false) 0%nat
     = inr (Sample.birds_train.1, Built Sample.birds_train.2)
  /\ num_classes Sample.birds_train.2 = 3
  /\ 2 ∈ class_id <$> images Sample.birds_train.2.
Proof.
  split; [reflexivity|].
  split; [exact ConstructionSpec.birds_train_built|].
  split; [reflexivity|].
  apply (class_ids_are_dense Sample.lcg Sample.birds_world
           (Sample.birds_cfg "original" None false) 0%nat _ _
           eq_refl ConstructionSpec.birds_train_built 2).
  split; [lia | reflexivity].
Defined.

Lemma class_sizes_follow_quota_witness :
  cfg_label_dict (Sample.birds_cfg "original" None false) = None
  /\ init Sample.lcg Sample.birds_world
          (Sample.birds_cfg "original" None false) 0%nat
     = inr (Sample.birds_train.1, Built Sample.birds_train.2)
  /\ dict_get 5 (label_dict Sample.birds_train.2) = Some 0
  /\ length (filter (fun im => class_id im = 0)
               (images Sample.birds_train.2)) = 3%nat.
Proof.
  split; [reflexivity|].
  split; [exact ConstructionSpec.birds_train_built|].
  split; [reflexivity|].
  destruct (class_sizes_follow_quota Sample.lcg Sample.birds_world
              (Sample.birds_cfg "original" None false) 0%nat _ _
              eq_refl ConstructionSpec.birds_train_built) as (q & Hq & Hsz).
  rewrite (Hsz 5 0 eq_refl); [|split; [lia | reflexivity]].
  vm_compute in Hq. injection Hq as <-. reflexivity.
Defined.

Lemma small_tasks_are_kept_whole_witness :
  cfg_full_dataset (Sample.birds_cfg "features" None false) = false
  /\ length (query_rows Sample.birds_world
               (Sample.birds_cfg "features" None false)) = 5%nat
  /\ exists g self,
      init Sample.lcg Sample.birds_world
           (Sample.birds_cfg "features" None false) 0%nat
      = inr (g, Built self)
      /\ forget_vector <$> images self
         ≡ₚ ConstructionSpec.item_of_row (label_dict self)
            <$> query_rows Sample.birds_world
                           (Sample.birds_cfg "features" None false).
Proof.
  split; [reflexivity|]. split; [reflexivity|].
  apply (small_tasks_are_kept_whole Sample.lcg Sample.birds_world
           (Sample.birds_cfg "features" None false) 0%nat
           eq_refl eq_refl eq_refl).
  - intros _ vt [= <-] _. by eexists.
  - discriminate.
  - vm_compute. lia.
  - vm_compute. discriminate.
Defined.

End SamplingSpec.

(** ** The flag [initialized_correctly] and what is served *)

Module ServingSpec.
Import Py Loader PyFacts LoaderFacts ConstructionFacts InitFacts
       FeatureVectorSpec.

Section ServingEngine.
Context {sqlite : Sqlite}.

(** The path under which the original image of an item is looked for. *)
Definition original_path {W : World} (self : CollectionDataset W)
    (im : CollectionImage) : string :=
  root_path self +:+ dataset_name self +:+ "/"%string +:+ relative_path im.

(** A completed construction ran the verification on an instance whose
    items carry no feature vector yet. *)
Lemma init_Built_verified (R : RandomSource) (W : World) (cfg : Config W)
    (g0 g : rng R) (self : CollectionDataset W) :
  init R W cfg g0 = inr (g, Built self) ->
  exists self0,
    run_verification cfg self0 = inr self
    /\ input_type self0 = cfg_input_type cfg
    /\ vector_type self0 = cfg_vector_type cfg
    /\ dataset_name self0 = cfg_dataset_name cfg
    /\ root_path self0 = IMAGES_ROOT_PATH
    /\ Forall (fun im => feature_vector im = []) (images self0).
Proof.
  unfold init. unfold sanitize_and_check_root_path.
  change (replace_double_slash (IMAGES_ROOT_PATH +:+ "/"))
    with IMAGES_ROOT_PATH.
  destruct (isdir W IMAGES_ROOT_PATH); [|discriminate]. cbn [bind ret].
  destruct (bool_decide (cfg_set_type cfg ∈ SET_TYPES));
    [|discriminate]. cbn [assert bind ret].
  destruct (bool_decide (cfg_input_type cfg ∈ INPUT_TYPES));
    [|discriminate]. cbn [assert bind ret].
  destruct (negb _ || _); [|discriminate]. cbn [assert bind ret].
  destruct (list_index (cfg_set_type cfg) SET_TYPES) as [i|]; [|discriminate].
  destruct (execute_database_query W _ _ _) as [e|rows]; [discriminate|].
  cbn [bind]. destruct (Nat.eqb (length rows) 0); [discriminate|].
  destruct (caps_of (cfg_full_dataset cfg)) as [[c1 c2] c3].
  destruct (random_value R _ _ _ _ _ _) as [e|[g1 sampled]];
    [discriminate|]; cbn [bind].
  destruct (build_images _ sampled) as [e|imgs] eqn:Hbi;
    [discriminate|]; cbn [bind].
  match goal with
  | |- context [run_verification cfg ?s] =>
      set (self0 := s); destruct (run_verification cfg self0) as [e|self1] eqn:Hv
  end; [discriminate|]. cbn [bind ret].
  intros [= <- <-]. exists self0. repeat split; try done.
  cbn. apply build_images_spec in Hbi.
  clear -Hbi. induction Hbi as [|s im ? ? (l & _ & ->) _ IH]; by constructor.
Qed.

(** The store has a vector for every item. *)
Definition vectors_ok {W : World} (self : CollectionDataset W) : Prop :=
  exists file_h,
    store_of self = Some file_h /\ required_hashes self ⊆ dom file_h.

(** Every original image file is there. *)
Definition files_ok {W : World} (self : CollectionDataset W) : Prop :=
  forall im, im ∈ images self -> isfile W (original_path self im) = true.

Lemma loaded_hashes (file_h : gmap string Tensor)
    (imgs imgs' : list CollectionImage) :
  Forall2 (loaded_from file_h) imgs imgs' ->
  file_hash <$> imgs' = file_hash <$> imgs
  /\ relative_path <$> imgs' = relative_path <$> imgs.
Proof.
  induction 1 as [|im im' ? ? (t & _ & ->) _ [IH1 IH2]]; [done|].
  rewrite !fmap_cons, IH1, IH2. done.
Qed.

(** What the verification of the feature vectors returns, when it
    returns. *)
Lemma verify_outcome {W : World} (self self1 : CollectionDataset W)
    (skip_load ok : bool) (log : list report) :
  verify_feature_vectors_exist_and_load self skip_load
  = inr (ok, self1, log) ->
  (ok = true <-> vectors_ok self)
  /\ (ok = false \/ skip_load = true -> self1 = self)
  /\ (ok = true -> skip_load = false ->
      exists file_h imgs,
        store_of self = Some file_h
        /\ self1 = set_images self imgs
        /\ Forall2 (loaded_from file_h) (images self) imgs).
Proof.
  unfold vectors_ok, store_of, required_hashes,
    verify_feature_vectors_exist_and_load.
  destruct (vector_type self) as [vt|]; cbn [mbind option_bind].
  2:{ intros [= <- <- _]. split; [|by split].
      split; [done | by intros (? & [=] & _)]. }
  destruct (isfile W _) eqn:Hf; cbn [negb].
  2:{ intros [= <- <- _]. split; [|by split].
      split; [done|]. intros (file_h & Hh & _).
      apply (h5_file_is_file W) in Hh. congruence. }
  destruct (h5_file W _) as [file_h|]; [|discriminate].
  set (X := (list_to_set (file_hash <$> images self) : gset string)
            ∖ dom file_h).
  assert (HX : X = ∅ <-> (list_to_set (file_hash <$> images self)
                          : gset string) ⊆ dom file_h).
  { subst X. split.
    - intros E h Hh. destruct (decide (h ∈ dom file_h)) as [|Hn]; [done|].
      assert (Hin : h ∈ (list_to_set (file_hash <$> images self)
                         : gset string) ∖ dom file_h)
        by by apply elem_of_difference.
      rewrite E in Hin. by apply not_elem_of_empty in Hin.
    - intros Hsub. apply set_eq. intros h. rewrite elem_of_difference.
      split; [|by intros ?%not_elem_of_empty].
      intros [Hin Hout]. destruct Hout. by apply Hsub. }
  destruct (Nat.ltb 0 (length (elements X))) eqn:E.
  { intros [= <- <- _]. split; [|by split].
    split; [done|]. intros (? & [= <-] & Hsub). apply HX in Hsub.
    apply missing_list_empty in Hsub. congruence. }
  apply missing_list_empty, HX in E.
  destruct skip_load.
  { intros [= <- <- _]. split; [|by split; [auto|]].
    split; [|done]. intros _. by exists file_h. }
  destruct (load_feature_vectors_ok file_h (images self))
    as (imgs & -> & Hall).
  { intros im Him. apply E, elem_of_list_to_set, list_elem_of_fmap.
    by exists im. }
  cbn [bind ret]. intros [= <- <- _]. split; [|split].
  - split; [|done]. intros _. by exists file_h.
  - by intros [[=]|[=]].
  - intros _ _. by exists file_h, imgs.
Qed.

Lemma files_ok_paths {W : World} (self : CollectionDataset W) :
  files_ok self
  <-> Forall (fun p => isfile W (root_path self +:+ dataset_name self
                                 +:+ "/"%string +:+ p) = true)
             (relative_path <$> images self).
Proof.
  unfold files_ok, original_path. rewrite Forall_fmap, Forall_forall. done.
Qed.

Lemma files_ok_ext {W : World} (a b : CollectionDataset W) :
  root_path a = root_path b -> dataset_name a = dataset_name b ->
  relative_path <$> images a = relative_path <$> images b ->
  files_ok a <-> files_ok b.
Proof. intros H1 H2 H3. by rewrite !files_ok_paths, H1, H2, H3. Qed.

Lemma vectors_ok_ext {W : World} (a b : CollectionDataset W) :
  vector_type a = vector_type b -> dataset_name a = dataset_name b ->
  file_hash <$> images a = file_hash <$> images b ->
  vectors_ok a <-> vectors_ok b.
Proof.
  intros H1 H2 H3. unfold vectors_ok, store_of, required_hashes.
  by rewrite H1, H2, H3.
Qed.

Lemma verify_original_files {W : World} (self : CollectionDataset W) :
  verify_original_images_exist self = true <-> files_ok self.
Proof.
  unfold verify_original_images_exist, files_ok, original_path.
  rewrite forallb_forall. split; intros H im Him; apply H.
  - by apply list_elem_of_In.
  - by apply list_elem_of_In.
Qed.

(** X11: what the flag [initialized_correctly] of a completed construction
    says: that every original image file exists, for [original] input;
    that the store has a vector for every item, for [features] input;
    and both when everything is verified.  Feature vectors are loaded
    only for [features] input without the flag for verifying everything;
    otherwise every item keeps its empty vector. *)
Theorem verification_decides_the_flag (R : RandomSource) (W : World)
    (cfg : Config W) (g0 g : rng R) (self : CollectionDataset W) :
  init R W cfg g0 = inr (g, Built self) ->
  (initialized_correctly self = true
   <-> if cfg_verify_all_sets_all_types cfg
       then files_ok self /\ vectors_ok self
       else if bool_decide (cfg_input_type cfg = "original"%string)
            then files_ok self else vectors_ok self)
  /\ (cfg_verify_all_sets_all_types cfg = true
      \/ cfg_input_type cfg = "original"%string ->
      Forall (fun im => feature_vector im = []) (images self))
  /\ root_path self = IMAGES_ROOT_PATH.
Proof.
  intros Hinit.
  destruct (init_Built_verified R W cfg g0 g self Hinit)
    as (self0 & Hv & Hit & Hvt & Hdn & Hrp & Hempty).
  unfold run_verification in Hv. rewrite Hit in Hv.
  destruct (cfg_verify_all_sets_all_types cfg); cbn [negb] in Hv.
  - destruct (verify_feature_vectors_exist_and_load self0 true)
      as [e|[[ok self1] log]] eqn:E; [discriminate|].
    destruct (verify_outcome _ _ _ _ _ E) as (Hok & Hsame & _).
    cbn [bind ret] in Hv. injection Hv as <-.
    rewrite (Hsame (or_intror eq_refl)). cbn.
    split; [|by split].
    by rewrite andb_true_iff, verify_original_files, Hok.
  - destruct (bool_decide (cfg_input_type cfg = "original"%string)) eqn:B.
    + injection Hv as <-. cbn. split; [|by split].
      by rewrite verify_original_files.
    + destruct (verify_feature_vectors_exist_and_load self0 false)
        as [e|[[ok self1] log]] eqn:E; [discriminate|].
      destruct (verify_outcome _ _ _ _ _ E) as (Hok & Hsame & Hload).
      cbn [bind ret] in Hv. injection Hv as <-.
      cbn [initialized_correctly set_initialized_correctly].
      split; [|split].
      * rewrite Hok. destruct ok.
        -- destruct (Hload eq_refl eq_refl) as (file_h & imgs & _ & -> & Hall).
           apply loaded_hashes in Hall as [Hh _].
           symmetry. by apply vectors_ok_ext.
        -- rewrite (Hsame (or_introl eq_refl)). by apply vectors_ok_ext.
      * intros [[=]|Ho]. apply bool_decide_eq_false in B. done.
      * destruct ok.
        -- by destruct (Hload eq_refl eq_refl) as (file_h & imgs & _ & -> & _).
        -- by rewrite (Hsame (or_introl eq_refl)).
Qed.

(** X12: a dataset constructed over feature vectors, without the flag for
    verifying everything: when it is flagged as initialized, the item at
    every position is served as the vector the store holds under the
    item's hash, with the item's class id; when it is not, no vector was
    loaded and every access fails its first assertion. *)
Theorem features_are_served (R : RandomSource) (W : World) (cfg : Config W)
    (g0 g : rng R) (self : CollectionDataset W) :
  cfg_input_type cfg = "features"%string ->
  cfg_verify_all_sets_all_types cfg = false ->
  init R W cfg g0 = inr (g, Built self) ->
  (initialized_correctly self = true ->
   exists file_h,
     store_of self = Some file_h
     /\ forall i im,
         images self !! i = Some im ->
         file_h !! file_hash im = Some (feature_vector im)
         /\ getitem self (Z.of_nat i)
            = inr (InTensor (feature_vector im), class_id im))
  /\ (initialized_correctly self = false ->
      Forall (fun im => feature_vector im = []) (images self)
      /\ len self = inl AssertionError
      /\ forall index, getitem self index = inl AssertionError).
Proof.
  intros Hfeat Hall Hinit.
  destruct (init_Built_verified R W cfg g0 g self Hinit)
    as (self0 & Hv & Hit & Hvt & Hdn & Hrp & Hempty).
  unfold run_verification in Hv. rewrite Hall, Hit, Hfeat in Hv.
  cbn [negb] in Hv. rewrite bool_decide_eq_false_2 in Hv by discriminate.
  destruct (verify_feature_vectors_exist_and_load self0 false)
    as [e|[[ok self1] log]] eqn:E; [discriminate|].
  destruct (verify_outcome _ _ _ _ _ E) as (Hok & Hsame & Hload).
  cbn [bind ret] in Hv. injection Hv as <-.
  cbn [initialized_correctly set_initialized_correctly]. split.
  - intros ->.
    destruct (Hload eq_refl eq_refl) as (file_h & imgs & Hst & -> & Hl).
    exists file_h. split; [exact Hst|].
    intros i im Him. cbn in Him.
    destruct (Forall2_lookup_r _ _ _ _ _ Hl Him) as (im0 & _ & t & Ht & ->).
    split; [exact Ht|].
    unfold getitem. cbn [initialized_correctly set_initialized_correctly
                         set_images images input_type negb].
    rewrite Hit, Hfeat, bool_decide_eq_true_2 by done.
    apply lookup_lt_Some in Him as Hlt.
    rewrite (proj2 (andb_true_iff _ _)), Nat2Z.id, Him; [done|].
    split; [apply Z.leb_le | apply Z.leb_le]; lia.
  - intros ->. rewrite (Hsame (or_introl eq_refl)). cbn.
    split; [done|]. split; [done|]. intros index. done.
Qed.

End ServingEngine.

#[local] Existing Instance Sample.text_engine.

(** *** On the sample task *)

Lemma verification_decides_the_flag_witness :
  init Sample.lcg Sample.birds_world
       (Sample.birds_cfg "original" None false) 0%nat
  = inr (Sample.birds_train.1, Built Sample.birds_train.2)
  /\ initialized_correctly Sample.birds_train.2 = true
  /\ files_ok Sample.birds_train.2
  /\ Forall (fun im => feature_vector im = []) (images Sample.birds_train.2).
Proof.
  split; [exact ConstructionSpec.birds_train_built|].
  split; [reflexivity|].
  destruct (verification_decides_the_flag Sample.lcg Sample.birds_world
              (Sample.birds_cfg "original" None false) 0%nat _ _
              ConstructionSpec.birds_train_built) as (Hflag & Hvec & _).
  split; [exact (proj1 Hflag eq_refl) | exact (Hvec (or_intror eq_refl))].
Defined.

Lemma features_are_served_witness :
  cfg_input_type (Sample.birds_cfg "features" None false) = "features"%string
  /\ cfg_verify_all_sets_all_types (Sample.birds_cfg "features" None false)
     = false
  /\ init Sample.lcg Sample.birds_world
          (Sample.birds_cfg "features" None false) 0%nat
     = inr (Sample.birds_features.1, Built Sample.birds_features.2)
  /\ initialized_correctly Sample.birds_features.2 = true
  /\ exists file_h,
      store_of Sample.birds_features.2 = Some file_h
      /\ forall i im,
          images Sample.birds_features.2 !! i = Some im ->
          file_h !! file_hash im = Some (feature_vector im)
          /\ getitem Sample.birds_features.2 (Z.of_nat i)
             = inr (InTensor (feature_vector im), class_id im).
Proof.
  do 2 (split; [reflexivity|]).
  split; [exact ConstructionSpec.birds_features_built|].
  split; [reflexivity|].
  exact (proj1 (features_are_served Sample.lcg Sample.birds_world
                  (Sample.birds_cfg "features" None false) 0%nat _ _
                  eq_refl eq_refl ConstructionSpec.birds_features_built)
               eq_refl).
Defined.

End ServingSpec.

(** ** Class summaries *)

Module ClassSummarySpec.
Import Py Loader PyFacts.

Lemma sorted_set_spec (xs : list Z) :
  StronglySorted Z.le (sorted_set xs)
  /\ NoDup (sorted_set xs)
  /\ forall c, c ∈ sorted_set xs <-> c ∈ xs.
Proof.
  unfold sorted_set.
  pose proof (merge_sort_Permutation Z.le
                (elements (list_to_set xs : gset Z))) as P.
  split; [apply (StronglySorted_merge_sort Z.le)|]. split.
  - rewrite P. apply NoDup_elements.
  - intros c. by rewrite P, elem_of_elements, elem_of_list_to_set.
Qed.

Lemma sorted_strictly (l : list Z) :
  StronglySorted Z.le l -> NoDup l -> StronglySorted Z.lt l.
Proof.
  induction 1 as [|x l Hs IH Hx]; intros Hnd; [constructor|].
  inversion Hnd as [|? ? Hin Hnd']; subst.
  constructor; [by apply IH|].
  apply Forall_forall. intros y Hy.
  pose proof (proj1 (Forall_forall _ _) Hx y Hy).
  assert (x <> y) by (intros ->; done). lia.
Qed.

(** X13: [unique_class_id_list], read on the object a call of the
    constructor left.  After the early return of a constructor whose
    query found no row the attribute [images] does not exist and
    [AttributeError] is raised.  On a complete instance the property
    fails its assertion when there is no item, and otherwise returns the
    class ids of the items, each once, in strictly increasing order. *)
Theorem unique_class_id_list_spec {W : World} :
  on_instance (@NoRows W) unique_class_id_list = inl AttributeError
  /\ forall self : CollectionDataset W,
       (images self = [] ->
        on_instance (Built self) unique_class_id_list = inl AssertionError)
       /\ (images self <> [] ->
           exists l,
             on_instance (Built self) unique_class_id_list = inr l
             /\ l <> []
             /\ StronglySorted Z.lt l
             /\ forall c, c ∈ l
                          <-> exists im, im ∈ images self /\ class_id im = c).
Proof.
  split; [done|]. intros self.
  cbn [on_instance]. unfold unique_class_id_list. split.
  - by intros ->.
  - intros Hne. destruct (images self) as [|im imgs] eqn:E; [done|].
    cbn [length Nat.ltb Nat.leb assert bind ret].
    destruct (sorted_set_spec (class_id <$> im :: imgs)) as (Hs & Hnd & Hel).
    eexists. split; [done|]. split; [|split].
    + intros Hnil.
      assert (Hin : class_id im ∈ sorted_set (class_id <$> im :: imgs))
        by (apply Hel; rewrite fmap_cons; apply elem_of_cons; by left).
      rewrite Hnil in Hin. by apply elem_of_nil in Hin.
    + by apply sorted_strictly.
    + intros c. rewrite Hel, list_elem_of_fmap. split.
      * intros (x & -> & Hx). by exists x.
      * intros (x & Hx & <-). by exists x.
Qed.

(** Assigning a value to each key of a duplicate-free list, in order. *)
Lemma fold_dict_set (f : Z -> Z) (keys : list Z) :
  forall acc : list (Z * Z),
    NoDup keys ->
    (forall k, k ∈ keys -> k ∉ dict_keys acc) ->
    fold_left (fun counts k => dict_set k (f k) counts) keys acc
    = acc ++ ((fun k => (k, f k)) <$> keys).
Proof.
  induction keys as [|k keys IH]; intros acc Hnd Hfresh; cbn [fold_left].
  - by rewrite app_nil_r.
  - inversion Hnd as [|? ? Hk Hnd']; subst.
    assert (Hget : dict_get k acc = None).
    { apply dict_get_None, Hfresh, elem_of_cons. by left. }
    rewrite (dict_set_fresh _ _ _ Hget), IH; [|done|].
    + by rewrite <- app_assoc.
    + intros k' Hk'. unfold dict_keys. rewrite fmap_app, elem_of_app.
      intros [Hin|Hin].
      * apply (Hfresh k'); [apply elem_of_cons; by right | done].
      * cbn in Hin. apply list_elem_of_singleton in Hin. by subst.
Qed.

Definition sum_values (d : list (Z * Z)) : Z := foldr Z.add 0 d.*2.

(** Counting the occurrences of every element of a duplicate-free list
    that covers [xs] counts [xs]. *)
Lemma counts_add_up (keys xs : list Z) :
  NoDup keys -> (forall x, x ∈ xs -> x ∈ keys) ->
  foldr Z.add 0 (count xs <$> keys) = Z.of_nat (length xs).
Proof.
  intros Hnd. induction xs as [|x xs IH]; intros Hcov.
  - clear. induction keys as [|k keys IH]; [done|].
    rewrite fmap_cons. cbn [foldr]. by rewrite IH.
  - assert (Hx : x ∈ keys) by (apply Hcov, elem_of_cons; by left).
    assert (Hstep : foldr Z.add 0 (count (x :: xs) <$> keys)
                    = 1 + foldr Z.add 0 (count xs <$> keys)).
    { clear IH Hcov. induction Hnd as [|k keys Hk Hnd IHk].
      - by apply elem_of_nil in Hx.
      - rewrite !fmap_cons. cbn [foldr]. unfold count at 1 3.
        destruct (decide (x = k)) as [->|Hne].
        + rewrite filter_cons_True by done. cbn [length].
          assert (E : foldr Z.add 0 (count (k :: xs) <$> keys)
                      = foldr Z.add 0 (count xs <$> keys)).
          { f_equal. apply list_fmap_ext. intros i y Hy. unfold count.
            rewrite filter_cons_False; [done|].
            intros ->. apply Hk. by eapply list_elem_of_lookup_2. }
          rewrite E. lia.
        + rewrite filter_cons_False by done.
          apply elem_of_cons in Hx as [->|Hx]; [done|].
          rewrite (IHk Hx). lia. }
    rewrite Hstep, IH.
    + cbn [length]. lia.
    + intros y Hy. apply Hcov, elem_of_cons. by right.
Qed.

(** X14: [class_id_counts], read on the object a call of the constructor
    left.  After the early return of a constructor whose query found no
    row, [AttributeError] is raised.  On a complete instance with items
    the property returns one entry per class id of the items, in
    increasing order of class id, holding the number of items of that
    class, which is at least one; the counts add up to the number of
    items.  On a complete instance without items the assertion fails. *)
Theorem class_id_counts_spec {W : World} :
  on_instance (@NoRows W) class_id_counts = inl AttributeError
  /\ forall self : CollectionDataset W,
       (images self = [] ->
        on_instance (Built self) class_id_counts = inl AssertionError)
       /\ (images self <> [] ->
           exists counts,
             on_instance (Built self) class_id_counts = inr counts
             /\ on_instance (Built self) unique_class_id_list
                = inr (dict_keys counts)
             /\ (forall c n,
                   dict_get c counts = Some n ->
                   1 <= n
                   /\ n = Z.of_nat
                            (length (filter (fun im => class_id im = c)
                                            (images self))))
             /\ sum_values counts = Z.of_nat (length (images self))).
Proof.
  split; [done|]. intros self. cbn [on_instance].
  unfold class_id_counts, unique_class_id_list. split; [by intros ->|].
  intros Hne. destruct (images self) as [|im imgs] eqn:E; [done|].
  cbn [length Nat.ltb Nat.leb assert bind ret].
  set (xs := class_id <$> im :: imgs).
  destruct (sorted_set_spec xs) as (Hs & Hnd & Hel).
  rewrite fold_dict_set; [|done|intros k _; apply not_elem_of_nil].
  cbn [app]. eexists. split; [done|].
  assert (Hkeys : dict_keys ((fun k => (k, count xs k)) <$> sorted_set xs)
                  = sorted_set xs).
  { unfold dict_keys. rewrite <- list_fmap_compose.
    rewrite <- (list_fmap_id (sorted_set xs)) at 2.
    by apply list_fmap_ext. }
  split; [by rewrite Hkeys|]. split.
  - intros c n Hget. apply dict_get_Some_elem in Hget.
    apply list_elem_of_fmap in Hget as (k & [= -> ->] & Hk).
    apply Hel in Hk. unfold count.
    assert (Hlen : length (filter (fun y => y = k) xs)
                   = length (filter (fun x => class_id x = k) (im :: imgs))).
    { subst xs. clear. induction (im :: imgs) as [|x l IH]; [done|].
      rewrite fmap_cons. destruct (decide (class_id x = k)).
      - rewrite !filter_cons_True by done. cbn. by rewrite IH.
      - by rewrite !filter_cons_False. }
    rewrite <- Hlen. split; [|done].
    apply list_elem_of_lookup in Hk as [i Hi].
    assert (Hin : k ∈ filter (fun y => y = k) xs)
      by (apply list_elem_of_filter; split;
          [done | by eapply list_elem_of_lookup_2]).
    destruct (filter (fun y => y = k) xs); [by apply elem_of_nil in Hin|].
    cbn. lia.
  - unfold sum_values. rewrite <- list_fmap_compose.
    change (snd ∘ (fun k => (k, count xs k))) with (count xs).
    rewrite counts_add_up; [|done|intros x Hx; by apply Hel].
    subst xs. by rewrite length_fmap.
Qed.

End ClassSummarySpec.

(** ** Class summaries of a constructed dataset *)

Module ClassSummaryOfConstruction.
Import Py Loader PyFacts ConstructionFacts InitFacts SamplingFacts
       SamplingSpec ClassSummarySpec.

Section SummaryEngine.
Context {sqlite : Sqlite}.

Lemma range_sorted (n : nat) : StronglySorted Z.le (range n).
Proof.
  unfold range. induction n as [|n IH]; [constructor|].
  rewrite seq_S, fmap_app.
  apply StronglySorted_app_2; [|exact IH | cbn; by repeat constructor].
  intros x y Hx Hy. cbn in Hy. apply list_elem_of_singleton in Hy as ->.
  apply list_elem_of_fmap in Hx as (i & -> & Hi).
  apply elem_of_seq in Hi. lia.
Qed.

(** X15: on a dataset constructed without an external label dictionary,
    [unique_class_id_list] returns [0, 1, ..., num_classes - 1]. *)
Theorem unique_class_id_list_of_construction (R : RandomSource) (W : World)
    (cfg : Config W) (g0 g : rng R) (self : CollectionDataset W) :
  cfg_label_dict cfg = None ->
  init R W cfg g0 = inr (g, Built self) ->
  unique_class_id_list self = inr (range (Z.to_nat (num_classes self))).
Proof.
  intros Hnone Hinit.
  assert (Hd : forall c, c ∈ class_id <$> images self
                         <-> 0 <= c < num_classes self).
  { intros c.
    destruct (own_labels_blocks R W cfg g0 g self Hnone Hinit)
      as (q & blocks & K & _ & Hnc & -> & HndK & Hlab & _ & _ & Hkept & Hsz).
    rewrite list_elem_of_bind. split.
    - intros (b & Hc & Hb). apply elem_of_replicate in Hc as [-> _].
      assert (Hk : b.1 ∈ take (Z.to_nat (num_classes self)) K).
      { apply Hkept, list_elem_of_fmap. by exists b. }
      apply elem_of_take in Hk as (i & Hi & Hlt).
      rewrite (Hlab i b.1 Hi). cbn. lia.
    - intros Hc.
      destruct (lookup_lt_is_Some_2 K (Z.to_nat c)) as [k Hk]; [lia|].
      assert (Hin : k ∈ blocks.*1).
      { apply Hkept, elem_of_take. exists (Z.to_nat c). split; [done | lia]. }
      apply list_elem_of_fmap in Hin as (b & -> & Hb).
      exists b. split; [|done]. apply elem_of_replicate.
      rewrite (Hlab _ _ Hk). cbn. split; [lia|].
      pose proof (proj1 (Forall_forall _ _) Hsz b Hb) as [_ Hne].
      by destruct b.2. }
  destruct (init_Built_blocks R W cfg g0 g self Hinit)
    as (_ & _ & _ & Hnc & _).
  cbn zeta in Hnc.
  assert (Hne : images self <> []).
  { intros E.
    assert (Hin : 0 ∈ class_id <$> images self) by (apply Hd; lia).
    rewrite E in Hin. by apply elem_of_nil in Hin. }
  unfold unique_class_id_list.
  destruct (images self) as [|im imgs] eqn:E; [done|].
  cbn [length Nat.ltb Nat.leb assert bind ret]. unfold ret. f_equal.
  destruct (sorted_set_spec (class_id <$> im :: imgs)) as (Hs & Hnd & Hel).
  apply (StronglySorted_unique Z.le); [done | apply range_sorted |].
  apply NoDup_Permutation; [done | apply range_NoDup |].
  intros c. rewrite Hel, Hd, elem_of_range. lia.
Qed.

End SummaryEngine.

#[local] Existing Instance Sample.text_engine.

Lemma unique_class_id_list_of_construction_witness :
  cfg_label_dict (Sample.birds_cfg "original" None false) = None
  /\ init Sample.lcg Sample.birds_world
          (Sample.birds_cfg "original" None false) 0%nat
     = inr (Sample.birds_train.1, Built Sample.birds_train.2)
  /\ unique_class_id_list Sample.birds_train.2 = inr [0; 1; 2].
Proof.
  split; [reflexivity|].
  split; [exact ConstructionSpec.birds_train_built|].
  exact (unique_class_id_list_of_construction Sample.lcg Sample.birds_world
           (Sample.birds_cfg "original" None false) 0%nat _ _
           eq_refl ConstructionSpec.birds_train_built).
Defined.

End ClassSummaryOfConstruction.

(** ** Checks over the whole catalog *)

Module CatalogChecksSpec.
Import Py Loader PyFacts.

Section CatalogEngine.
Context {sqlite : Sqlite}.

(** A constructor call whose input type is not an input type fails an
    assertion, whatever else it is given. *)
Lemma init_rejects_input_type (R : RandomSource) (W : World) (cfg : Config W)
    (g0 : rng R) :
  cfg_input_type cfg ∉ INPUT_TYPES ->
  init R W cfg g0 = inl AssertionError.
Proof.
  intros Hin. unfold init.
  destruct (sanitize_and_check_root_path W IMAGES_ROOT_PATH) as [e|root] eqn:S.
  { unfold sanitize_and_check_root_path in S.
    by destruct (isdir W _); [|injection S as <-]. }
  cbn [bind].
  destruct (bool_decide (cfg_set_type cfg ∈ SET_TYPES)); [|done].
  cbn [assert bind ret].
  by rewrite bool_decide_eq_false_2.
Qed.

Lemma select_datasets_nil (W : World) (l : list string) :
  select_datasets W = inr l -> (l = [] <-> catalog W = []).
Proof.
  unfold select_datasets. destruct (isfile W _); [|discriminate].
  intros [= <-].
  pose proof (merge_sort_Permutation str_le
                (remove_dups (row_dataset <$> catalog W))) as P.
  split.
  - intros E. rewrite E in P. apply Permutation_nil_l in P.
    destruct (catalog W) as [|r rows]; [done|exfalso].
    assert (Hin : row_dataset r ∈ remove_dups (row_dataset <$> r :: rows))
      by (apply elem_of_remove_dups; rewrite fmap_cons; apply elem_of_cons;
          by left).
    rewrite <- P in Hin. by apply elem_of_nil in Hin.
  - intros E. rewrite E. reflexivity.
Qed.

(** X16: [verify_everything] verifies nothing: with a catalog that lists any
    image it raises [AssertionError], because the constructor is handed
    its arguments one position off and refuses ["train"] as input type;
    it returns only for an empty catalog, and then [True].  It never
    returns [False]. *)
Theorem verify_everything_never_reports (R : RandomSource) (W : World)
    (resnet50_tf_pipeline : Image W -> Tensor) (root_path : string)
    (g0 : rng R) :
  (catalog W <> [] ->
   verify_everything R W resnet50_tf_pipeline root_path g0
   = inl AssertionError)
  /\ (forall g b,
        verify_everything R W resnet50_tf_pipeline root_path g0 = inr (g, b) ->
        b = true /\ g = g0 /\ catalog W = [])
  /\ (catalog W = [] ->
      isdir W (replace_double_slash (root_path +:+ "/"%string)) = true ->
      isfile W DATABASE_PATH = true ->
      verify_everything R W resnet50_tf_pipeline root_path g0
      = inr (g0, true)).
Proof.
  assert (Hloop : forall root datasets g broken,
            datasets <> [] ->
            verify_everything_loop R W resnet50_tf_pipeline root datasets
                                   g broken = inl AssertionError).
  { intros root [|dataset rest] g broken Hne; [done|].
    cbn [verify_everything_loop].
    rewrite init_rejects_input_type; [done|].
    cbn. unfold INPUT_TYPES. rewrite !not_elem_of_cons.
    repeat split; try discriminate. apply not_elem_of_nil. }
  unfold verify_everything, sanitize_and_check_root_path.
  split; [|split].
  - intros Hne. destruct (isdir W _); [|done]. cbn [bind ret].
    destruct (select_datasets W) as [e|l] eqn:S.
    { unfold select_datasets in S.
      by destruct (isfile W _); [|injection S as <-]. }
    cbn [bind]. rewrite Hloop; [done|].
    intros E. by apply (select_datasets_nil W l S) in E.
  - intros g b. destruct (isdir W _); [|discriminate]. cbn [bind ret].
    destruct (select_datasets W) as [e|l] eqn:S; [discriminate|].
    cbn [bind]. destruct l as [|d l].
    + cbn. intros [= <- <-]. repeat split.
      by apply (select_datasets_nil W [] S).
    + by rewrite Hloop.
  - intros Hnil Hdir Hdb. rewrite Hdir. cbn [bind ret].
    unfold select_datasets. by rewrite Hdb, Hnil.
Qed.

(** The rows of a task that carry no problem flag, and the split ids
    that occur among them. *)
Definition good_rows (W : World) (dataset : string) : list CatalogRow :=
  filter (fun r => row_problem r = 0 /\ row_dataset r = dataset) (catalog W).

Definition split_ids (W : World) (dataset : string) : list Z :=
  remove_dups (row_set_id <$> good_rows W dataset).

Definition rows_of_split (W : World) (dataset : string) (s : Z) : Z :=
  Z.of_nat (length (filter (fun r => row_set_id r = s) (good_rows W dataset))).

(** The entry the loop makes for a task from the rows of counts. *)
Definition entry_from (dataset : string) (count_rows : list Z)
  : DatasetEntry :=
  let set_counts :=
    if Nat.eqb (length count_rows) 3 then count_rows else [0; 0; 0] in
  {| name := dataset;
     counts := Some {| total_count := foldr Z.add 0 set_counts;
                       train_count := set_counts !!! 0%nat;
                       validation_count := set_counts !!! 1%nat;
                       test_count := set_counts !!! 2%nat |} |}.

(** The engine reads the counting query for a task the way it is
    written. *)
Definition counts_as_written (W : World) (dataset : string) : Prop :=
  count_otherwise (catalog W) (count_query dataset) = None.

Lemma dict_set_fresh_str {V} (d : list (string * V)) (k : string) (v : V) :
  k ∉ dict_keys d -> dict_set k v d = d ++ [(k, v)].
Proof. intros H. by apply dict_set_fresh, dict_get_None. Qed.

Lemma get_list_of_datasets_loop_counts (W : World) (names : list string) :
  forall acc r,
    NoDup names ->
    (forall n, n ∈ names -> n ∉ dict_keys acc) ->
    get_list_of_datasets_loop W true names acc = inr r ->
    exists made : list (string * list Z),
      made.*1 = names
      /\ Forall (fun p => select_set_counts W p.1 = inr p.2) made
      /\ r = acc ++ ((fun p => (p.1, entry_from p.1 p.2)) <$> made).
Proof.
  induction names as [|n names IH]; intros acc r Hnd Hfresh;
    cbn [get_list_of_datasets_loop negb].
  - intros [= <-]. exists []. by rewrite app_nil_r.
  - inversion Hnd as [|? ? Hn Hnd']; subst.
    destruct (select_set_counts W n) as [e|a] eqn:Hs; [discriminate|].
    cbn [bind]. rewrite dict_set_fresh_str
      by (apply Hfresh, elem_of_cons; by left).
    intros Hloop. apply IH in Hloop as (made & Hm & Hall & ->); [|done|].
    + exists ((n, a) :: made). rewrite fmap_cons, Hm. split; [done|].
      split; [by constructor|]. by rewrite <- app_assoc.
    + intros k Hk. unfold dict_keys. rewrite fmap_app, elem_of_app.
      intros [Hin|Hin].
      * apply (Hfresh k); [apply elem_of_cons; by right | done].
      * cbn in Hin. apply list_elem_of_singleton in Hin. by subst.
Qed.

Lemma rows_of_split_sum (W : World) (dataset : string) (ids : list Z) :
  ids ≡ₚ split_ids W dataset ->
  foldr Z.add 0 (rows_of_split W dataset <$> ids)
  = Z.of_nat (length (good_rows W dataset)).
Proof.
  intros P.
  assert (E : rows_of_split W dataset <$> ids
              = Loader.count (row_set_id <$> good_rows W dataset) <$> ids).
  { apply list_fmap_ext. intros _ s _. unfold rows_of_split, Loader.count.
    do 2 f_equal. induction (good_rows W dataset) as [|r l IH]; [done|].
    rewrite fmap_cons. destruct (decide (row_set_id r = s)).
    - rewrite !filter_cons_True by done. cbn. by rewrite IH.
    - by rewrite !filter_cons_False. }
  rewrite E, ClassSummarySpec.counts_add_up.
  - by rewrite length_fmap.
  - rewrite P. apply NoDup_remove_dups.
  - intros x Hx. rewrite P. by apply elem_of_remove_dups.
Qed.

(** X17: [get_list_of_datasets] with counts, when it returns: the dictionary
    has one entry for every task of the catalog, under its name; the
    total of an entry is the sum of its three split counts.  For a task
    whose counting query the engine reads the way it is written: when the
    rows of the task without problem flag come from exactly three splits,
    the total is their number, and with the split ids 0, 1 and 2 the
    three counts are the rows of these splits; when they come from fewer
    or more splits, all four counts are 0 however many rows there are. *)
Theorem get_list_of_datasets_counts (W : World)
    (r : list (string * DatasetEntry)) :
  get_list_of_datasets W true = inr r ->
  (forall dataset,
     dataset ∈ dict_keys r
     <-> exists row, row ∈ catalog W /\ row_dataset row = dataset)
  /\ forall dataset e,
       dict_get dataset r = Some e ->
       name e = dataset
       /\ exists c,
           counts e = Some c
           /\ total_count c = train_count c + validation_count c + test_count c
           /\ (counts_as_written W dataset ->
               (length (split_ids W dataset) = 3%nat ->
                total_count c = Z.of_nat (length (good_rows W dataset)))
               /\ ((forall s, s ∈ split_ids W dataset <-> 0 <= s <= 2) ->
                   train_count c = rows_of_split W dataset 0
                   /\ validation_count c = rows_of_split W dataset 1
                   /\ test_count c = rows_of_split W dataset 2)
               /\ (length (split_ids W dataset) <> 3%nat ->
                   total_count c = 0 /\ train_count c = 0
                   /\ validation_count c = 0 /\ test_count c = 0)).
Proof.
  unfold get_list_of_datasets, select_datasets.
  destruct (isfile W DATABASE_PATH) eqn:Hdb; [|discriminate].
  cbn [bind ret].
  set (names := merge_sort str_le (remove_dups (row_dataset <$> catalog W))).
  assert (P : names ≡ₚ remove_dups (row_dataset <$> catalog W))
    by apply merge_sort_Permutation.
  intros Hloop.
  apply get_list_of_datasets_loop_counts in Hloop
      as (made & Hm & Hall & ->);
    [| by rewrite P; apply NoDup_remove_dups
     | intros n _; apply not_elem_of_nil].
  cbn [app].
  assert (Hkeys : dict_keys ((fun p : string * list Z =>
                                (p.1, entry_from p.1 p.2)) <$> made) = names).
  { unfold dict_keys. rewrite <- list_fmap_compose, <- Hm.
    by apply list_fmap_ext. }
  split.
  - intros dataset. rewrite Hkeys, P, elem_of_remove_dups, list_elem_of_fmap.
    split.
    + intros (row & -> & Hrow). by exists row.
    + intros (row & Hrow & <-). by exists row.
  - intros dataset e Hget. apply dict_get_Some_elem in Hget.
    apply list_elem_of_fmap in Hget as ([n a] & [= -> ->] & Hin).
    pose proof (proj1 (Forall_forall _ _) Hall _ Hin) as Hsel.
    cbn [fst snd] in *.
    split; [done|]. unfold entry_from. cbn [counts name]. eexists.
    split; [done|]. cbn [total_count train_count validation_count test_count].
    split.
    { destruct (Nat.eqb (length a) 3) eqn:E; [|done].
      apply Nat.eqb_eq in E.
      destruct a as [|x [|y [|z [|? ?]]]]; try done. cbn. lia. }
    intros Hw. unfold counts_as_written in Hw.
    unfold select_set_counts in Hsel. rewrite Hdb, Hw in Hsel.
    injection Hsel as <-.
    fold (good_rows W n). fold (split_ids W n).
    set (ids := merge_sort Z.le (split_ids W n)).
    assert (Pi : ids ≡ₚ split_ids W n) by apply merge_sort_Permutation.
    change (fun s => Z.of_nat (length (filter (fun r => row_set_id r = s)
                                              (good_rows W n))))
      with (rows_of_split W n).
    rewrite length_fmap, (Permutation_length Pi).
    destruct (Nat.eqb (length (split_ids W n)) 3) eqn:E.
    + apply Nat.eqb_eq in E.
      assert (Hl : length ids = 3%nat) by by rewrite (Permutation_length Pi).
      split; [|split; [|done]].
      * intros _. by apply rows_of_split_sum.
      * intros Hids.
        assert (Eids : ids = [0; 1; 2]).
        { apply (StronglySorted_unique Z.le).
          - apply (StronglySorted_merge_sort Z.le).
          - repeat constructor; lia.
          - apply NoDup_Permutation.
            + rewrite Pi. apply NoDup_remove_dups.
            + repeat constructor; rewrite ?not_elem_of_cons;
                rewrite ?elem_of_nil; try lia.
              all: intros H'; decompose [or] H'; try lia; done.
            + intros s. rewrite Pi, Hids, !elem_of_cons, elem_of_nil. lia. }
        by rewrite Eids.
    + apply Nat.eqb_neq in E. split; [done|].
      split; [|done]. intros Hids. exfalso. apply E.
      assert (Ps : split_ids W n ≡ₚ [0; 1; 2]).
      { apply NoDup_Permutation.
        - apply NoDup_remove_dups.
        - repeat constructor; rewrite ?not_elem_of_cons;
            rewrite ?elem_of_nil; try lia.
          all: intros H'; decompose [or] H'; try lia; done.
        - intros s. rewrite Hids, !elem_of_cons, elem_of_nil. lia. }
      by rewrite (Permutation_length Ps).
Qed.

End CatalogEngine.

#[local] Existing Instance Sample.text_engine.

(** The sample catalog: [birds] has rows of two splits only, [cars] of
    one; both are listed, with every count 0 although [birds] has six
    rows without problem flag. *)
Lemma get_list_of_datasets_counts_witness :
  exists r,
    get_list_of_datasets Sample.birds_world true = inr r
    /\ dict_keys r = ["birds"; "cars"]%string
    /\ length (good_rows Sample.birds_world "birds") = 6%nat
    /\ forall e,
         dict_get "birds"%string r = Some e ->
         exists c, counts e = Some c
                   /\ total_count c = 0 /\ train_count c = 0.
Proof.
  destruct (get_list_of_datasets Sample.birds_world true) as [e|r] eqn:E;
    [vm_compute in E; discriminate|].
  exists r. split; [done|].
  destruct (get_list_of_datasets_counts Sample.birds_world r E) as [_ Hent].
  split; [vm_compute in E; by injection E as <-|].
  split; [reflexivity|].
  intros e He.
  destruct (Hent "birds"%string e He) as (_ & c & Hc & _ & Hw).
  destruct (Hw eq_refl) as (_ & _ & Hz).
  exists c. split; [done|].
  destruct Hz as (? & ? & _); [vm_compute; lia | done].
Defined.

End CatalogChecksSpec.

(** ** The folder of original images *)

Module FolderCheckSpec.
Import Py Loader PyFacts.

(** *** Pieces of a name *)

Lemma find_ge (c : ascii) (s : string) : -1 <= find c s.
Proof.
  induction s as [|c' r IH]; cbn [find]; [lia|].
  destruct (Ascii.eqb c' c); [lia|].
  destruct (find c r =? -1); lia.
Qed.

Lemma split_on_from_no_sep (sep : ascii) (s : string) :
  forall cur, find sep s = -1 -> split_on_from sep cur s = [cur +:+ s].
Proof.
  induction s as [|c r IH]; intros cur; cbn [find split_on_from].
  - intros _. by rewrite append_empty_r.
  - destruct (Ascii.eqb c sep); [discriminate|].
    pose proof (find_ge sep r) as Hge.
    destruct (find sep r =? -1) eqn:E; [|intros H; apply Z.eqb_neq in E; lia].
    apply Z.eqb_eq in E. intros _.
    rewrite (IH _ E). by rewrite <- append_snoc.
Qed.

Lemma last_cons_nonempty {A} (x : A) (l : list A) (d : A) :
  l <> [] -> List.last (x :: l) d = List.last l d.
Proof. by destruct l. Qed.

Lemma split_on_from_nonempty (sep : ascii) (s : string) :
  forall cur, split_on_from sep cur s <> [].
Proof.
  induction s as [|c r IH]; intros cur; cbn [split_on_from]; [done|].
  destruct (Ascii.eqb c sep); [done | apply IH].
Qed.

(** The last piece is what follows the last separator. *)
Lemma last_split_on_from (sep : ascii) (a b : string) :
  forall cur,
    List.last (split_on_from sep cur (a +:+ String sep b)) EmptyString
    = List.last (split_on_from sep EmptyString b) EmptyString.
Proof.
  induction a as [|c a IH]; intros cur.
  - change (EmptyString +:+ String sep b)%string with (String sep b).
    cbn [split_on_from]. rewrite Ascii.eqb_refl.
    apply last_cons_nonempty, split_on_from_nonempty.
  - change (String c a +:+ String sep b)%string
      with (String c (a +:+ String sep b)).
    cbn [split_on_from]. destruct (Ascii.eqb c sep).
    + rewrite last_cons_nonempty by apply split_on_from_nonempty. apply IH.
    + apply IH.
Qed.

Lemma last_split_on (sep : ascii) (a b : string) :
  find sep b = -1 ->
  List.last (split_on sep (a +:+ String sep b)) EmptyString = b.
Proof.
  intros Hb. unfold split_on. rewrite last_split_on_from.
  by rewrite split_on_from_no_sep.
Qed.

Lemma find_append_sep (sep : ascii) (a b : string) :
  -1 < find sep (a +:+ String sep b).
Proof.
  induction a as [|c a IH].
  - change (EmptyString +:+ String sep b)%string with (String sep b).
    cbn [find]. by rewrite Ascii.eqb_refl.
  - change (String c a +:+ String sep b)%string
      with (String c (a +:+ String sep b)).
    cbn [find]. destruct (Ascii.eqb c sep); [done|].
    destruct (find sep (a +:+ String sep b) =? -1) eqn:E.
    + apply Z.eqb_eq in E. lia.
    + lia.
Qed.

(** X18: whether a file counts as an image is decided by its name after the
    last slash: a name without a dot does not count, and a name with a
    dot counts when what follows its last dot is, in lower case, one of
    the ten valid extensions.  Directories on the way do not matter. *)
Theorem is_image_file_spec (stem ext : string) :
  find "/" stem = -1 -> find "/" ext = -1 -> find "." ext = -1 ->
  let name := (stem +:+ String "." ext)%string in
  is_image_file name = bool_decide (lower ext ∈ VALID_IMAGE_EXTENSIONS)
  /\ (forall dir,
        is_image_file (dir +:+ String "/" name)
        = bool_decide (lower ext ∈ VALID_IMAGE_EXTENSIONS))
  /\ is_image_file ext = false
  /\ (forall dir, is_image_file (dir +:+ String "/" ext) = false).
Proof.
  intros Hstem Hext Hdot. cbn zeta.
  assert (Hname : find "/" (stem +:+ String "." ext) = -1).
  { clear Hdot. induction stem as [|c stem IH].
    - change (EmptyString +:+ String "." ext)%string with (String "." ext).
      cbn [find]. cbn [Ascii.eqb Bool.eqb]. by rewrite Hext.
    - change (String c stem +:+ String "." ext)%string
        with (String c (stem +:+ String "." ext)).
      cbn [find] in *. destruct (Ascii.eqb c "/"); [discriminate|].
      pose proof (find_ge "/" stem) as Hge.
      destruct (find "/" stem =? -1) eqn:E;
        [|apply Z.eqb_neq in E; lia].
      apply Z.eqb_eq in E. by rewrite (IH E). }
  assert (Hwith : forall after,
            after = (stem +:+ String "." ext)%string ->
            (if -1 <? find "." after
             then bool_decide
                    (lower (List.last (split_on "." after) EmptyString)
                     ∈ VALID_IMAGE_EXTENSIONS)
             else false)
            = bool_decide (lower ext ∈ VALID_IMAGE_EXTENSIONS)).
  { intros after ->.
    rewrite (proj2 (Z.ltb_lt _ _) (find_append_sep "." stem ext)).
    by rewrite last_split_on. }
  assert (Hwithout : forall after,
            after = ext ->
            (if -1 <? find "." after
             then bool_decide
                    (lower (List.last (split_on "." after) EmptyString)
                     ∈ VALID_IMAGE_EXTENSIONS)
             else false) = false).
  { intros after ->. by rewrite Hdot. }
  unfold is_image_file.
  split; [|split; [|split]].
  - apply Hwith. unfold split_on. by rewrite split_on_from_no_sep.
  - intros dir. apply Hwith. by apply last_split_on.
  - apply Hwithout. unfold split_on. by rewrite split_on_from_no_sep.
  - intros dir. apply Hwithout. by apply last_split_on.
Qed.

Lemma is_image_file_spec_witness :
  find "/" "cat.2"%string = -1 /\ find "/" "JPG"%string = -1
  /\ find "." "JPG"%string = -1
  /\ is_image_file "birds/cat.2.JPG"%string = true
  /\ is_image_file "birds.png/JPG"%string = false.
Proof.
  do 3 (split; [reflexivity|]).
  destruct (is_image_file_spec "cat.2"%string "JPG"%string
              eq_refl eq_refl eq_refl) as (_ & H2 & _ & H4).
  split; [exact (H2 "birds"%string) | exact (H4 "birds.png"%string)].
Defined.

(** *** The comparison of folder and catalog *)

Lemma elements_nil (X : gset string) :
  Nat.eqb (length (elements X)) 0 = true <-> X = ∅.
Proof.
  rewrite Nat.eqb_eq. split.
  - intros H. apply leibniz_equiv, elements_empty_inv.
    by destruct (elements X).
  - intros ->. by rewrite elements_empty.
Qed.

(** X19: [verify_all_original_images_are_in_database] reports, each once, the
    image files of the folder whose path the catalog lacks and the paths
    of the catalog (task name and relative path put together, problem
    rows included) that are no image file of the folder; it answers
    [True] exactly when both lists are empty, that is, when folder and
    catalog hold the same paths. *)
Theorem folder_and_catalog_compared (W : World)
    (glob : string -> list string) (root_path : string) (ok : bool)
    (images_not_in_db db_images_without_files : list string) :
  verify_all_original_images_are_in_database W glob root_path
  = inr (ok, images_not_in_db, db_images_without_files) ->
  let source_dir :=
    (replace_double_slash (root_path +:+ "/") +:+ "original_images/")%string in
  let image_files :=
    filter (fun file => is_image_file file = true) (glob source_dir) in
  let db_images :=
    (fun r => row_dataset r +:+ row_relative_path r) <$> catalog W in
  NoDup images_not_in_db
  /\ NoDup db_images_without_files
  /\ (forall f, f ∈ images_not_in_db <-> f ∈ image_files /\ f ∉ db_images)
  /\ (forall f, f ∈ db_images_without_files
                <-> f ∈ db_images /\ f ∉ image_files)
  /\ (ok = true <-> images_not_in_db = [] /\ db_images_without_files = [])
  /\ (ok = true <-> forall f, f ∈ image_files <-> f ∈ db_images).
Proof.
  unfold verify_all_original_images_are_in_database,
    sanitize_and_check_root_path, select_image_paths.
  destruct (isdir W _); [|discriminate]. cbn [bind ret].
  destruct (isfile W _); [|discriminate]. cbn [bind ret].
  set (image_files := filter _ (glob _)).
  set (db_images := _ <$> catalog W).
  set (A := (list_to_set image_files : gset string) ∖ list_to_set db_images).
  set (B := (list_to_set db_images : gset string) ∖ list_to_set image_files).
  intros H. cbn zeta.
  assert (Hab : images_not_in_db = elements A
                /\ db_images_without_files = elements B
                /\ ok = Nat.eqb (length (elements A)) 0
                        && Nat.eqb (length (elements B)) 0).
  { destruct (_ && _); by injection H as <- <- <-. }
  destruct Hab as (-> & -> & ->). clear H.
  assert (HA : forall f, f ∈ elements A <-> f ∈ image_files /\ f ∉ db_images).
  { intros f. subst A.
    by rewrite elem_of_elements, elem_of_difference, !elem_of_list_to_set. }
  assert (HB : forall f, f ∈ elements B <-> f ∈ db_images /\ f ∉ image_files).
  { intros f. subst B.
    by rewrite elem_of_elements, elem_of_difference, !elem_of_list_to_set. }
  split; [apply NoDup_elements|]. split; [apply NoDup_elements|].
  split; [exact HA|]. split; [exact HB|].
  rewrite andb_true_iff, !elements_nil. split.
  - split.
    + intros [-> ->]. by rewrite elements_empty.
    + intros [EA EB]. split; apply leibniz_equiv, elements_empty_inv.
      * by rewrite EA.
      * by rewrite EB.
  - split.
    + intros [EA EB] f. split; intros Hf.
      * destruct (decide (f ∈ db_images)) as [|Hn]; [done|exfalso].
        assert (Hin : f ∈ elements A) by by apply HA.
        rewrite EA, elements_empty in Hin. by apply elem_of_nil in Hin.
      * destruct (decide (f ∈ image_files)) as [|Hn]; [done|exfalso].
        assert (Hin : f ∈ elements B) by by apply HB.
        rewrite EB, elements_empty in Hin. by apply elem_of_nil in Hin.
    + intros Heq. split; apply set_eq; intros f.
      * split; [|by intros Hf%not_elem_of_empty].
        intros Hf. apply elem_of_elements, HA in Hf as [H1 H2].
        exfalso. by apply H2, Heq.
      * split; [|by intros Hf%not_elem_of_empty].
        intros Hf. apply elem_of_elements, HB in Hf as [H1 H2].
        exfalso. by apply H2, Heq.
Qed.

(** A folder with two image files and a text file against the sample
    catalog, whose paths are other ones. *)
Lemma folder_and_catalog_compared_witness :
  exists ok a b,
    verify_all_original_images_are_in_database Sample.birds_world
      (fun _ => ["birds/a.png"; "birds/b.PNG"; "notes.txt"]%string) "data"
    = inr (ok, a, b)
    /\ ok = false
    /\ NoDup a
    /\ forall f, f ∈ a <-> f = "birds/a.png"%string \/ f = "birds/b.PNG"%string.
Proof.
  destruct (verify_all_original_images_are_in_database Sample.birds_world
              (fun _ => ["birds/a.png"; "birds/b.PNG"; "notes.txt"]%string)
              "data") as [e|[[ok a] b]] eqn:E;
    [vm_compute in E; discriminate|].
  exists ok, a, b. split; [done|].
  destruct (folder_and_catalog_compared _ _ _ _ _ _ E) as (Ha & _).
  vm_compute in E. injection E as <- <- <-.
  split; [done|]. split; [exact Ha|].
  intros f. rewrite !elem_of_cons, elem_of_nil. tauto.
Defined.

End FolderCheckSpec.

(** ** The root path *)

Module RootPathSpec.
Import Py Loader PyFacts.

Definition starts_with_sep (s : string) : bool :=
  match s with
  | String c _ => Ascii.eqb c "/"
  | EmptyString => false
  end.

(** Two, or three, slashes in a row somewhere in [s]. *)
Fixpoint has_double_slash (s : string) : bool :=
  match s with
  | EmptyString => false
  | String c r =>
      (Ascii.eqb c "/" && starts_with_sep r) || has_double_slash r
  end.

Fixpoint has_triple_slash (s : string) : bool :=
  match s with
  | EmptyString => false
  | String c r =>
      (Ascii.eqb c "/" && starts_with_sep r
       && match r with String _ r' => starts_with_sep r' | _ => false end)
      || has_triple_slash r
  end.

(** One step of [replace_double_slash]. *)
Lemma replace_double_slash_cons (c : ascii) (r : string) :
  replace_double_slash (String c r)
  = if Ascii.eqb c "/" && starts_with_sep r
    then String "/" (replace_double_slash
                       (match r with String _ r' => r' | _ => EmptyString end))
    else String c (replace_double_slash r).
Proof.
  destruct (Ascii.eqb_spec c "/") as [->|Hc].
  - destruct r as [|d r]; [done|]. cbn [starts_with_sep andb].
    destruct (Ascii.eqb_spec d "/") as [->|Hd]; [done|].
    destruct d as [[] [] [] [] [] [] [] []]; try done.
  - cbn [andb].
    destruct c as [[] [] [] [] [] [] [] []]; try done.
Qed.

Lemma replace_double_slash_starts (s : string) :
  starts_with_sep (replace_double_slash s) = starts_with_sep s.
Proof.
  destruct s as [|c r]; [done|]. rewrite replace_double_slash_cons.
  destruct (Ascii.eqb c "/" && starts_with_sep r) eqn:E; [|done].
  apply andb_true_iff in E as [E _]. cbn. by rewrite E.
Qed.

(** An induction that follows [replace_double_slash]. *)
Lemma string_pair_ind (P : string -> Prop) :
  P EmptyString ->
  (forall c, P (String c EmptyString)) ->
  (forall c d r, P r -> P (String d r) -> P (String c (String d r))) ->
  forall s, P s.
Proof.
  intros H0 H1 H2.
  assert (H : forall s, P s /\ forall c, P (String c s)).
  { induction s as [|d r [IH1 IH2]]; [by split|].
    split; [apply IH2|]. intros c. apply H2; [done | apply IH2]. }
  intros s. apply H.
Qed.

Lemma ends_with_sep_cons (c : ascii) (r : string) :
  ends_with_sep (String c r)
  = match r with EmptyString => Ascii.eqb c "/" | _ => ends_with_sep r end.
Proof. by destruct r. Qed.

Lemma replace_double_slash_nonempty (s : string) :
  s <> EmptyString -> replace_double_slash s <> EmptyString.
Proof.
  destruct s as [|c r]; [done|]. intros _. rewrite replace_double_slash_cons.
  by destruct (_ && _).
Qed.

Lemma replace_double_slash_ends (s : string) :
  ends_with_sep s = true -> ends_with_sep (replace_double_slash s) = true.
Proof.
  induction s as [| c | c d r IH1 IH2] using string_pair_ind; [done| |].
  { rewrite replace_double_slash_cons. cbn [starts_with_sep].
    by rewrite andb_false_r. }
  rewrite replace_double_slash_cons. cbn [starts_with_sep].
  rewrite (ends_with_sep_cons c (String d r)).
  destruct (Ascii.eqb c "/" && Ascii.eqb d "/") eqn:E.
  - intros H. rewrite ends_with_sep_cons.
    destruct r as [|e r]; [done|].
    rewrite ends_with_sep_cons in H.
    pose proof (replace_double_slash_nonempty (String e r) ltac:(done)) as Hne.
    destruct (replace_double_slash (String e r)) eqn:R; [done|].
    by apply IH1.
  - intros H. rewrite ends_with_sep_cons.
    pose proof (replace_double_slash_nonempty (String d r) ltac:(done)) as Hne.
    destruct (replace_double_slash (String d r)) eqn:R; [done|].
    by apply IH2.
Qed.

Lemma append_cons (c : ascii) (a b : string) :
  (String c a +:+ b)%string = String c (a +:+ b).
Proof. done. Qed.

Lemma ends_with_sep_append (p : string) :
  ends_with_sep (p +:+ "/") = true.
Proof.
  induction p as [|c p IH]; [done|].
  rewrite append_cons, ends_with_sep_cons.
  destruct (p +:+ "/")%string eqn:E; [|done].
  by destruct p.
Qed.

(** One pass halves every run of slashes, rounding up: a doubled slash is
    left exactly where three stood in a row. *)
Lemma replace_double_slash_double (s : string) :
  has_double_slash (replace_double_slash s) = has_triple_slash s.
Proof.
  induction s as [| c | c d r IH1 IH2] using string_pair_ind; [done| |].
  { rewrite replace_double_slash_cons. cbn [starts_with_sep].
    rewrite andb_false_r. cbn. by rewrite !andb_false_r. }
  rewrite replace_double_slash_cons. cbn [starts_with_sep].
  destruct (Ascii.eqb c "/" && Ascii.eqb d "/") eqn:E.
  - apply andb_true_iff in E as [Ec Ed].
    apply Ascii.eqb_eq in Ec as ->. apply Ascii.eqb_eq in Ed as ->.
    cbn [has_double_slash]. rewrite replace_double_slash_starts, IH1.
    rewrite Ascii.eqb_refl. cbn [andb].
    change (has_triple_slash (String "/" (String "/" r)))
      with ((true && true && starts_with_sep r)
            || has_triple_slash (String "/" r)).
    cbn [andb has_triple_slash]. rewrite Ascii.eqb_refl. cbn [andb].
    destruct (starts_with_sep r); [done|]. done.
  - cbn [has_double_slash]. rewrite replace_double_slash_starts, IH2.
    cbn [starts_with_sep]. rewrite E. cbn [orb].
    change (has_triple_slash (String c (String d r)))
      with ((Ascii.eqb c "/" && Ascii.eqb d "/" && starts_with_sep r)
            || has_triple_slash (String d r)).
    by rewrite E.
Qed.

Lemma replace_double_slash_plain (p : string) :
  has_double_slash p = false ->
  replace_double_slash (p +:+ "/")
  = if ends_with_sep p then p else (p +:+ "/")%string.
Proof.
  induction p as [|c p IH]; [done|].
  intros H. cbn [has_double_slash] in H.
  apply orb_false_iff in H as [H1 H2].
  rewrite append_cons, replace_double_slash_cons, ends_with_sep_cons.
  destruct p as [|d p].
  - change (EmptyString +:+ "/")%string with "/"%string.
    cbn [starts_with_sep]. rewrite Ascii.eqb_refl, andb_true_r.
    destruct (Ascii.eqb_spec c "/") as [->|Hc]; done.
  - rewrite (append_cons d p). cbn [starts_with_sep] in *. rewrite H1.
    rewrite <- (append_cons d p), (IH H2).
    by destruct (ends_with_sep (String d p)).
Qed.

(** X20: [sanitize_and_check_root_path] returns only a directory, and what it
    returns ends in a slash.  A root path without doubled slash comes
    back as it is when it ends in a slash and with one slash added when
    it does not.  Doubled slashes are halved in one pass from the left:
    the result is free of doubled slashes if and only if no three slashes
    stood in a row (the added one counted). *)
Theorem sanitize_and_check_root_path_spec (W : World) (root_path r : string) :
  sanitize_and_check_root_path W root_path = inr r ->
  isdir W r = true
  /\ ends_with_sep r = true
  /\ (has_double_slash root_path = false ->
      r = if ends_with_sep root_path then root_path
          else (root_path +:+ "/")%string)
  /\ (has_double_slash r = false
      <-> has_triple_slash (root_path +:+ "/") = false).
Proof.
  unfold sanitize_and_check_root_path.
  destruct (isdir W _) eqn:D; [|discriminate]. intros [= <-].
  split; [done|]. split; [|split].
  - apply replace_double_slash_ends, ends_with_sep_append.
  - apply replace_double_slash_plain.
  - by rewrite replace_double_slash_double.
Qed.

(** A doubled slash inside is halved; three slashes in a row leave a
    doubled one behind. *)
Lemma sanitize_and_check_root_path_spec_witness :
  sanitize_and_check_root_path Sample.birds_world "data//birds"
  = inr "data/birds/"%string
  /\ has_double_slash "data/birds/" = false
  /\ sanitize_and_check_root_path Sample.birds_world "data///birds"
     = inr "data//birds/"%string
  /\ has_double_slash "data//birds/" <> false.
Proof.
  split; [reflexivity|].
  split; [|split; [reflexivity|]].
  - exact (proj2 (proj2 (proj2 (proj2
             (sanitize_and_check_root_path_spec Sample.birds_world
                "data//birds" "data/birds/" eq_refl)))) eq_refl).
  - intros H.
    pose proof (proj1 (proj2 (proj2 (proj2
                  (sanitize_and_check_root_path_spec Sample.birds_world
                     "data///birds" "data//birds/" eq_refl)))) H).
    discriminate.
Defined.

End RootPathSpec.

(** ** How a construction ends, and original images served *)

Module OutcomeSpec.
Import Py Loader PyFacts LoaderFacts ConstructionFacts InitFacts SamplingFacts.

Section OutcomeEngine.
Context {sqlite : Sqlite}.

Lemma list_index_found (x : string) (l : list string) :
  x ∈ l -> exists i, list_index x l = Some i.
Proof.
  induction l as [|y l IH]; cbn [list_index].
  - by intros ?%elem_of_nil.
  - intros Hin. destruct (decide (x = y)); [by eexists|].
    apply elem_of_cons in Hin as [->|Hin]; [done|].
    destruct (IH Hin) as [i ->]. by eexists.
Qed.

(** The sampling loop fails in one way only. *)
Lemma random_value_loop_raises (R : RandomSource) (ld : list (Z * Z))
    (nc : Z) (scn q : cap) (items : list (Z * list RowData)) :
  forall ccs g out e,
    random_value_loop R ld nc scn q items ccs g out = inl e ->
    e = AssertionError.
Proof.
  induction items as [|[key values] rest IH]; intros ccs g out e;
    cbn [random_value_loop]; [discriminate|].
  destruct (negb _).
  - destruct (eq_cap nc scn); [apply IH|]. by intros [= <-].
  - destruct (shuffle R g values) as [g1 values'].
    destruct (nc <=? ccs + 1); [discriminate | apply IH].
Qed.

(** What the loop returns can be labelled. *)
Lemma random_value_loop_labelled (R : RandomSource) (ld : list (Z * Z))
    (nc : Z) (scn q : cap) (items : list (Z * list RowData))
    (g g' : rng R) (sampled : list Sampled) :
  0 < nc ->
  random_value_loop R ld nc scn q items 0 g [] = inr (g', sampled) ->
  Forall (fun s => s_label s ∈ dict_keys ld) sampled.
Proof.
  intros Hnc Hrun.
  destruct (random_value_loop_blocks R ld nc scn q items 0 g [] g' sampled
              Hnc Hrun) as (blocks & -> & Hk & _).
  cbn [app]. apply Forall_forall. intros s Hs.
  unfold entries in Hs. apply list_elem_of_bind in Hs as ([k vs] & Hs & Hb).
  apply list_elem_of_fmap in Hs as ([[[h p] si] pr] & -> & _). cbn.
  assert (Hin : k ∈ blocks.*1) by (apply list_elem_of_fmap; by exists (k, vs)).
  rewrite Hk in Hin.
  assert (Hf : k ∈ filter (covered ld nc) items.*1)
    by (eapply elem_of_sublist; [exact Hin | apply sublist_take]).
  apply list_elem_of_filter in Hf as [Hc _].
  eapply elem_of_sublist; [exact Hc | apply sublist_take].
Qed.

(** X21: what the constructor can raise.  An exception it raises is an
    [AssertionError] of its own checks, or what the database engine
    raises on its query, or the [OSError] of a store of feature vectors
    whose file is there and does not open, when the store is consulted.
    Nothing else is raised: no access to the label dictionary misses its
    key, no quota divides by zero and no feature vector is looked for
    that the store lacks.  The constructor does raise [AssertionError]
    when one of its checks of the arguments and of the environment
    fails, and it returns early, without items, when the checks pass
    and the query returns no row. *)
Theorem init_raises_only_assertions (R : RandomSource) (W : World)
    (cfg : Config W) (g0 : rng R) :
  (forall e,
     init R W cfg g0 = inl e ->
     e = AssertionError
     \/ (exists i,
           list_index (cfg_set_type cfg) SET_TYPES = Some i
           /\ select_otherwise (catalog W)
                (select_query (cfg_dataset_name cfg) i
                              (cfg_verify_all_sets_all_types cfg))
              = Some (inl e))
     \/ (e = OSError
         /\ (cfg_verify_all_sets_all_types cfg = true
             \/ cfg_input_type cfg = "features"%string)
         /\ exists vt,
             cfg_vector_type cfg = Some vt
             /\ isfile W (VECTORS_ROOT_PATH +:+ vt +:+ "/"%string
                          +:+ cfg_dataset_name cfg +:+ ".h5"%string) = true
             /\ h5_file W (VECTORS_ROOT_PATH +:+ vt +:+ "/"%string
                           +:+ cfg_dataset_name cfg +:+ ".h5"%string) = None))
  /\ (ConstructionSpec.environment_ok W cfg = false ->
      init R W cfg g0 = inl AssertionError)
  /\ (ConstructionSpec.environment_ok W cfg = true ->
      forall i,
        list_index (cfg_set_type cfg) SET_TYPES = Some i ->
        select_rows (catalog W) (cfg_dataset_name cfg) i
                    (cfg_verify_all_sets_all_types cfg) = inr [] ->
        init R W cfg g0 = inr (seed R 27, NoRows)).
Proof.
  unfold ConstructionSpec.environment_ok.
  unfold init, sanitize_and_check_root_path, execute_database_query.
  destruct (isdir W _); cbn [andb];
    [|by split; [intros e [= <-]; left|split]]. cbn [bind ret].
  destruct (bool_decide (cfg_set_type cfg ∈ SET_TYPES)) eqn:Hst; cbn [andb];
    [|by split; [intros e [= <-]; left|split]]. cbn [assert bind ret].
  apply bool_decide_eq_true in Hst.
  destruct (bool_decide (cfg_input_type cfg ∈ INPUT_TYPES)) eqn:Hin;
    cbn [andb];
    [|by split; [intros e [= <-]; left|split]]. cbn [assert bind ret].
  apply bool_decide_eq_true in Hin.
  destruct (negb _ || _); cbn [andb];
    [|by split; [intros e [= <-]; left|split]]. cbn [assert bind ret].
  destruct (list_index_found _ _ Hst) as [i Hi]. rewrite Hi.
  destruct (isfile W _); [|by split; [intros e [= <-]; left|split]].
  cbn [bind ret].
  split; [|split; [discriminate | by intros _ ? [= <-] ->]].
  intros e.
  destruct (select_rows _ _ _ _) as [e'|rows] eqn:Hsel.
  { cbn [bind]. intros [= <-]. right. left. exists i. split; [done|].
    unfold select_rows in Hsel.
    destruct (select_otherwise _ _) as [a|]; [by subst | discriminate]. }
  cbn [bind].
  destruct (Nat.eqb (length rows) 0) eqn:Hrows; [discriminate|].
  assert (Hne : rows <> []) by (intros E; by rewrite E in Hrows).
  set (d := group_rows rows).
  set (ld := build_label_dict (cfg_label_dict cfg) d).
  pose proof (num_classes_of_bounds d (cfg_full_dataset cfg)
                (ConstructionSpec.grouped_classes_nonempty rows Hne)) as Hnc.
  assert (Hq : exists q,
            num_each_class_of
              (amount_of (cfg_set_type cfg) (Z.of_nat (length rows))
                 (caps_of (cfg_full_dataset cfg)).1.2
                 (caps_of (cfg_full_dataset cfg)).2)
              (num_classes_of d (caps_of (cfg_full_dataset cfg)).1.1)
            = inr q).
  { destruct (cfg_full_dataset cfg); cbn [caps_of fst snd] in *.
    - rewrite ConstructionSpec.amount_unbounded. by eexists.
    - rewrite (ConstructionSpec.amount_bounded _ _ Hst).
      destruct (_ <? _); [|by eexists].
      destruct (ConstructionSpec.quota_bound (cfg_set_type cfg)
                  (num_classes_of d (Fin 500))) as (q & -> & _); [|by eexists].
      pose proof (ConstructionSpec.num_classes_bounded d
                    (ConstructionSpec.grouped_classes_nonempty rows Hne)).
      lia. }
  destruct (caps_of (cfg_full_dataset cfg)) as [[c1 c2] c3].
  cbn [fst snd] in *. destruct Hq as [q Hq].
  unfold random_value. rewrite Hq. cbn [bind].
  destruct (random_value_loop R ld _ c1 q d 0 (seed R 27) [])
    as [e'|[g1 sampled]] eqn:Hrun.
  { cbn [bind]. intros [= <-]. left. by eapply random_value_loop_raises. }
  cbn [bind].
  destruct (build_images_total ld sampled) as [imgs ->].
  { eapply random_value_loop_labelled; [|exact Hrun]. lia. }
  cbn [bind].
  match goal with
  | |- context [run_verification cfg ?s] =>
      destruct (run_verification cfg s) as [e'|self] eqn:Hv
  end; [|discriminate].
  cbn [bind]. intros [= <-].
  apply run_verification_raises in Hv as (-> & Hc & f & Hf & Hfile & Hh).
  right. right. split; [done|].
  unfold FeatureVectorSpec.store_file in Hf.
  cbn [vector_type dataset_name input_type] in Hf, Hc.
  split.
  - destruct Hc as [Hc|Hc]; [by left | right].
    unfold INPUT_TYPES in Hin.
    apply elem_of_cons in Hin as [Ho|Hin]; [done|].
    by apply list_elem_of_singleton in Hin.
  - destruct (cfg_vector_type cfg) as [vt|]; cbn [mbind option_bind] in Hf;
      [|done].
    injection Hf as <-. by exists vt.
Qed.

(** X22: a dataset constructed over original images with a pipeline, once
    flagged as initialized, serves the item at a position by opening the
    file of the item under the images root and the task's folder,
    converting the image to RGB and running the pipeline on it; the
    item's class id comes with it.  When the file does not open the
    access fails with the error of the decoder. *)
Theorem originals_are_served (R : RandomSource) (W : World) (cfg : Config W)
    (g0 g : rng R) (self : CollectionDataset W) (p : Image W -> Tensor) :
  cfg_input_type cfg = "original"%string ->
  cfg_pipeline cfg = Some p ->
  init R W cfg g0 = inr (g, Built self) ->
  initialized_correctly self = true ->
  forall i im,
    images self !! i = Some im ->
    let path := (IMAGES_ROOT_PATH +:+ cfg_dataset_name cfg +:+ "/"
                 +:+ relative_path im)%string in
    original_image_path_for_index self (Z.of_nat i) = inr path
    /\ getitem self (Z.of_nat i)
       = match image_open W path with
         | Some image => inr (InTensor (p (convert_rgb W image)), class_id im)
         | None => inl OSError
         end.
Proof.
  intros Horig Hpipe Hinit Hok i im Him.
  destruct (ServingSpec.init_Built_verified R W cfg g0 g self Hinit)
    as (self0 & Hv & Hit & _ & Hdn & Hrp & _).
  assert (Hsame : input_type self = cfg_input_type cfg
                  /\ dataset_name self = cfg_dataset_name cfg
                  /\ root_path self = IMAGES_ROOT_PATH).
  { unfold run_verification in Hv. rewrite Hit, Horig in Hv.
    destruct (negb _).
    - cbn in Hv. injection Hv as <-. cbn. by rewrite Hit, Horig.
    - destruct (verify_feature_vectors_exist_and_load self0 true)
        as [e|[[ok self1] log]] eqn:E; [discriminate|].
      destruct (ServingSpec.verify_outcome _ _ _ _ _ E) as (_ & Hs & _).
      cbn [bind ret] in Hv. injection Hv as <-.
      rewrite (Hs (or_intror eq_refl)). cbn. by rewrite Hit, Horig. }
  destruct Hsame as (Hi & Hd & Hr).
  destruct (init_Built_inv R W cfg g0 g self Hinit)
    as (_ & _ & _ & _ & _ & _ & _ & _ & _ & _ & _ & _ & Hp).
  cbn zeta.
  assert (B : (0 <=? Z.of_nat i)
              && (Z.of_nat i <=? Z.of_nat (length (images self))) = true).
  { apply lookup_lt_Some in Him. apply andb_true_iff.
    split; apply Z.leb_le; lia. }
  assert (P : original_image_path_for_index self (Z.of_nat i)
              = inr (IMAGES_ROOT_PATH +:+ cfg_dataset_name cfg +:+ "/"
                     +:+ relative_path im)%string).
  { unfold original_image_path_for_index.
    by rewrite B, Nat2Z.id, Him, Hr, Hd. }
  split; [exact P|].
  unfold getitem. rewrite Hok, B, Hi, Horig, P, Hp, Hpipe. cbn [negb bind].
  rewrite bool_decide_eq_false_2 by discriminate.
  rewrite bool_decide_eq_true_2 by done.
  destruct (image_open W _); [|done].
  by rewrite Nat2Z.id, Him.
Qed.

End OutcomeEngine.

(** An engine that refuses every query that names a task. *)
Definition refusing_engine : Sqlite :=
  {| select_otherwise := fun _ _ => Some (inl OperationalError);
     count_otherwise := fun _ _ => Some (inl OperationalError) |}.

(** With it the constructor raises what the engine raises. *)
Example refused_query_raises :
  @init refusing_engine Sample.lcg Sample.birds_world
        (Sample.birds_cfg "original" None false) 0%nat
  = inl OperationalError.
Proof. reflexivity. Qed.

#[local] Existing Instance Sample.text_engine.

(** In the sample world the file of the store of the backbone [xception]
    is there and is no store: the constructor raises [OSError]. *)
Example unreadable_store_raises :
  init Sample.lcg Sample.birds_world
       {| cfg_dataset_name := "birds";
          cfg_set_type := "train";
          cfg_input_type := "features";
          cfg_vector_type := Some "xception"%string;
          cfg_pipeline := None;
          cfg_label_dict := None;
          cfg_verify_all_sets_all_types := false;
          cfg_full_dataset := false |} 0%nat
  = inl OSError.
Proof. vm_compute. reflexivity. Qed.

(** The sample task over original images, with a pipeline that returns
    one number whatever the image. *)
Definition piped_cfg : Config Sample.birds_world :=
  {| cfg_dataset_name := "birds";
     cfg_set_type := "train";
     cfg_input_type := "original";
     cfg_vector_type := Some "resnet50"%string;
     cfg_pipeline := Some (fun _ => [float_one]);
     cfg_label_dict := None;
     cfg_verify_all_sets_all_types := false;
     cfg_full_dataset := false |}.

Definition piped : rng Sample.lcg * CollectionDataset Sample.birds_world :=
  Eval vm_compute in
    Sample.built_or_blank (init Sample.lcg Sample.birds_world piped_cfg 0%nat)
                          0%nat.

Lemma piped_built :
  init Sample.lcg Sample.birds_world piped_cfg 0%nat
  = inr (piped.1, Built piped.2).
Proof. vm_compute. reflexivity. Qed.

Lemma originals_are_served_witness :
  cfg_input_type piped_cfg = "original"%string
  /\ init Sample.lcg Sample.birds_world piped_cfg 0%nat
     = inr (piped.1, Built piped.2)
  /\ initialized_correctly piped.2 = true
  /\ exists im,
      images piped.2 !! 0%nat = Some im
      /\ getitem piped.2 0 = inr (InTensor [float_one], class_id im).
Proof.
  split; [reflexivity|]. split; [exact piped_built|]. split; [reflexivity|].
  destruct (images piped.2 !! 0%nat) as [im|] eqn:E;
    [|vm_compute in E; discriminate].
  exists im. split; [done|].
  exact (proj2 (originals_are_served Sample.lcg Sample.birds_world piped_cfg
                  0%nat _ _ _ eq_refl eq_refl piped_built eq_refl 0%nat im E)).
Defined.

End OutcomeSpec.

Module SuppliedLabelsSpec.
Import Py Loader PyFacts LoaderFacts ConstructionFacts InitFacts.

Section SuppliedEngine.
Context {sqlite : Sqlite}.

(** X23: in bounded mode, with fewer than 500 classes among the returned
    rows, a supplied label dictionary has to list every one of these
    classes among its first [n] keys, [n] being their number: otherwise
    the constructor raises [AssertionError], as it does for a dictionary
    made for a split with more classes. *)
Theorem supplied_labels_must_cover (R : RandomSource) (W : World)
    (cfg : Config W) (g0 : rng R) :
  ConstructionSpec.environment_ok W cfg = true ->
  cfg_full_dataset cfg = false ->
  (length (first_seen (q_class_id <$> query_rows W cfg)) < 500)%nat ->
  ~ ConstructionSpec.labels_cover W cfg ->
  init R W cfg g0 = inl AssertionError.
Proof.
  intros Henv Hfull Hcls Hcover.
  unfold ConstructionSpec.labels_cover in Hcover.
  unfold ConstructionSpec.environment_ok in Henv.
  repeat (apply andb_true_iff in Henv as [Henv ?]).
  rename Henv into Hdir, H into Hdb, H0 into Hvec, H1 into Hin, H2 into Hst.
  assert (Hst' : cfg_set_type cfg ∈ SET_TYPES)
    by by apply bool_decide_eq_true in Hst.
  unfold init, query_rows in *.
  unfold sanitize_and_check_root_path, execute_database_query.
  rewrite Hdir, Hst, Hin, Hvec, Hdb; cbn [assert bind ret].
  destruct (list_index (cfg_set_type cfg) SET_TYPES) as [i|] eqn:Hi;
    [|exfalso; apply Hcover; by intros k ?%elem_of_nil].
  destruct (select_rows _ _ _ _) as [e|rows];
    [exfalso; apply Hcover; by intros k ?%elem_of_nil|].
  cbn [bind].
  set (d := group_rows rows) in *.
  set (ld := build_label_dict (cfg_label_dict cfg) d) in *.
  cbn zeta in Hcover.
  assert (Hex : exists kv, kv ∈ d
                  /\ kv.1 ∉ take (length (dict_keys d)) (dict_keys ld)).
  { destruct (decide (Forall (fun kv : Z * list RowData =>
               kv.1 ∈ take (length (dict_keys d)) (dict_keys ld)) d))
      as [Hall|Hnall].
    - exfalso. apply Hcover. intros k Hk. unfold dict_keys in Hk.
      apply list_elem_of_fmap in Hk as (kv & -> & Hkv).
      by apply (proj1 (Forall_forall _ _) Hall).
    - apply not_Forall_Exists in Hnall; [|intros kv; apply _].
      apply Exists_exists in Hnall as (kv & Hkv & Hn). by exists kv. }
  assert (Hne : rows <> []).
  { intros E. destruct Hex as (kv & Hkv & _). subst d. rewrite E in Hkv.
    by apply elem_of_nil in Hkv. }
  assert (Hrows : Nat.eqb (length rows) 0 = false) by by destruct rows.
  rewrite Hrows, Hfull. cbn [caps_of].
  assert (Hnc : num_classes_of d (Fin 500) = Z.of_nat (length (dict_keys d))).
  { unfold num_classes_of, gt_cap. rewrite (proj2 (Z.ltb_ge _ _)); [done|].
    subst d. rewrite group_rows_keys. lia. }
  assert (Hlt : Z.of_nat (length (dict_keys d)) < 500)
    by (subst d; rewrite group_rows_keys; lia).
  assert (Hq : exists q,
            num_each_class_of
              (amount_of (cfg_set_type cfg) (Z.of_nat (length rows))
                         (Fin 54000) (Fin 6000))
              (num_classes_of d (Fin 500)) = inr q).
  { rewrite (ConstructionSpec.amount_bounded _ _ Hst').
    destruct (_ <? _); [|by eexists].
    destruct (ConstructionSpec.quota_bound (cfg_set_type cfg)
                (num_classes_of d (Fin 500))) as (q & -> & _); [|by eexists].
    apply ConstructionSpec.num_classes_bounded.
    by apply ConstructionSpec.grouped_classes_nonempty. }
  destruct Hq as [q Hq]. unfold random_value. rewrite Hq. cbn [bind].
  rewrite Hnc.
  rewrite (random_value_loop_uncovered R ld _ (Fin 500) q d 0 (seed R 27) []);
    [done | | | ].
  - cbn [eq_cap]. apply Z.eqb_neq. lia.
  - destruct Hex as (kv & Hkv & Hn). exists kv. by rewrite Nat2Z.id.
  - unfold dict_keys. rewrite length_fmap. lia.
Qed.

End SuppliedEngine.

#[local] Existing Instance Sample.text_engine.

(** The sample task with a dictionary made elsewhere, bounded mode. *)
Lemma supplied_labels_must_cover_witness :
  ConstructionSpec.environment_ok Sample.birds_world
    (Sample.birds_cfg "original" (Some Sample.foreign_labels) false) = true
  /\ first_seen (q_class_id <$> query_rows Sample.birds_world
       (Sample.birds_cfg "original" (Some Sample.foreign_labels) false))
     = [5; 3; 9]
  /\ init Sample.lcg Sample.birds_world
          (Sample.birds_cfg "original" (Some Sample.foreign_labels) false)
          0%nat
     = inl AssertionError.
Proof.
  split; [reflexivity|]. split; [reflexivity|].
  apply supplied_labels_must_cover; [reflexivity | reflexivity | | ].
  - vm_compute. lia.
  - intros Hc. specialize (Hc 9).
    apply (bool_decide_eq_false_1 (9 ∈ [5; 3; 10])); [reflexivity|].
    apply Hc. by apply (bool_decide_eq_true_1 _).
Defined.

End SuppliedLabelsSpec.
